(** * ORRB remote renderer: worker pool, stamped configuration and batch framing

    A shallow embedding of [orrb/queue_executor.py],
    [orrb/remote_renderer.py] and the integer parts of [orrb/utils.py].
    Python objects are modelled by records,
    dictionaries by [gmap string _], exceptions by the [Raise] branch of
    [result], and threads by an interleaving step function over one shared
    state ([Pool.step]). *)

From Stdlib Require Import ZArith List String Ascii Lia PrimFloat Sorted.
From Stdlib Require Strings.Byte.
From stdpp Require Import base option list gmap strings pretty.

Open Scope string_scope.
Open Scope list_scope.
Open Scope Z_scope.

(* ================================================================== *)
(** ** Python values, exceptions and built-ins *)
(* ================================================================== *)

Module Py.

(** The exceptions the modelled code can raise. *)
Inductive exn : Type :=
| AssertionError
| AttributeError
| IndexError
| KeyError (key : string)
| TypeError
| UnboundLocalError (name : string)
| ValueError
| ZeroDivisionError
| OSError
| RuntimeError
| RpcError
| RendererError (msg : string).

(** The outcome of a Python call: a value, or a raised exception. *)
Inductive result (A : Type) : Type :=
| Ok (a : A)
| Raise (e : exn).
Arguments Ok {A} a.
Arguments Raise {A} e.

#[export] Instance result_ret : MRet result := fun _ a => Ok a.
#[export] Instance result_bind : MBind result := fun _ _ f m =>
  match m with
  | Ok a => f a
  | Raise e => Raise e
  end.

Definition is_ok {A} (r : result A) : bool :=
  match r with Ok _ => true | Raise _ => false end.

(** [assert c] *)
Definition py_assert (c : bool) : result unit :=
  if c then Ok tt else Raise AssertionError.

(** Python [float] is an IEEE-754 double. *)
Definition pyfloat : Type := PrimFloat.float.

(** [os.environ] *)
Definition getenv (environ : gmap string string) (name : string) : option string :=
  environ !! name.

(** Truth value of [os.getenv(name)]: [None] and the empty string are false. *)
Definition truthy_str (v : option string) : bool :=
  match v with
  | Some (String _ _) => true
  | _ => false
  end.

(** *** [int(str)] for base 10

    Surrounding ASCII white space is stripped, one sign is allowed, and single
    underscores may separate digits.  Anything else is a [ValueError]. *)

Definition is_space (c : ascii) : bool :=
  let n := nat_of_ascii c in
  ((9 <=? n) && (n <=? 13) || (n =? 32))%nat.

Definition digit_of (c : ascii) : option Z :=
  let n := nat_of_ascii c in
  if ((48 <=? n) && (n <=? 57))%nat then Some (Z.of_nat n - 48) else None.

Fixpoint lstrip (s : string) : string :=
  match s with
  | String c s' => if is_space c then lstrip s' else s
  | EmptyString => EmptyString
  end.

Definition rstrip (s : string) : string :=
  String.rev (lstrip (String.rev s)).

Definition strip (s : string) : string := rstrip (lstrip s).

(** Digits with single interior underscores; [prev_digit] tells whether the
    previous character was a digit (an underscore needs a digit on both
    sides). *)
Fixpoint parse_digits (s : string) (acc : Z) (prev_digit : bool) : option Z :=
  match s with
  | EmptyString => if prev_digit then Some acc else None
  | String c s' =>
      match digit_of c with
      | Some d => parse_digits s' (10 * acc + d) true
      | None =>
          if (Ascii.eqb c "_"%char && prev_digit)%bool
          then match s' with
               | String c' _ =>
                   if bool_decide (is_Some (digit_of c'))
                   then parse_digits s' acc false
                   else None
               | EmptyString => None
               end
          else None
      end
  end.

Definition py_int (s : string) : result Z :=
  let body :=
    match strip s with
    | String "-"%char r => option_map Z.opp (parse_digits r 0 false)
    | String "+"%char r => parse_digits r 0 false
    | r => parse_digits r 0 false
    end in
  match body with
  | Some z => Ok z
  | None => Raise ValueError
  end.

(** [l[:n]]: a negative bound counts from the end, and bounds are clipped. *)
Definition slice_to {A} (l : list A) (n : Z) : list A :=
  if 0 <=? n then firstn (Z.to_nat n) l
  else firstn (Z.to_nat (Z.of_nat (length l) + n)) l.

(** [queue.Queue]: the FIFO of items and the count of unfinished tasks that
    [put] increments and [task_done] decrements. *)
Record Queue (A : Type) : Type := mkQueue {
  items : list A;
  unfinished_tasks : nat
}.
Arguments mkQueue {A} _ _.
Arguments items {A} _.
Arguments unfinished_tasks {A} _.

Definition new_queue {A} : Queue A := mkQueue [] 0%nat.

Definition put {A} (x : A) (q : Queue A) : Queue A :=
  mkQueue (items q ++ [x]) (S (unfinished_tasks q)).

(** [get]: [None] when there is nothing to take (the caller blocks, or times
    out with [Empty]). *)
Definition get {A} (q : Queue A) : option (A * Queue A) :=
  match items q with
  | [] => None
  | x :: rest => Some (x, mkQueue rest (unfinished_tasks q))
  end.

Definition task_done {A} (q : Queue A) : result (Queue A) :=
  match unfinished_tasks q with
  | O => Raise ValueError
  | S n => Ok (mkQueue (items q) n)
  end.

End Py.

(* ================================================================== *)
(** ** [orrb/utils.py] and the data of [orrb/remote_renderer.py] *)
(* ================================================================== *)

Module Renderer.
Import Py.

(** *** Arrays and workloads *)

Inductive dtype : Type := UInt8 | Float32.

(** A decoded frame: the raw buffer viewed with an element type and a shape. *)
Record Image : Type := mkImage {
  img_dtype : dtype;
  img_shape : list Z;
  img_buffer : list Byte.byte
}.

(** The flat data of a scalar array, by element type. *)
Inductive scalars : Type :=
| Floats (l : list pyfloat)
| Ints (l : list Z)
| Bools (l : list bool).

Definition scalars_len (d : scalars) : nat :=
  match d with
  | Floats l => length l
  | Ints l => length l
  | Bools l => length l
  end.

(** The values a workload dictionary holds. *)
Inductive pyval : Type :=
| VInt (z : Z)
| VInts (l : list Z)
| VVectors (l : list (list pyfloat))
| VImages (l : list Image)
| VMatrix (rows cols : nat) (data : scalars).

(** A workload (and a batch result) is a [dict] keyed by strings. *)
Abbreviation Workload := (gmap string pyval).

(** *** [orrb/utils.py]: frame readers

    [np.frombuffer(data, dtype).reshape(...)]; the image sizes are taken
    non-negative (positive where a dimension is inferred), every other case is
    a [ValueError]. *)

Definition buffer_len (data : list Byte.byte) : Z := Z.of_nat (length data).

Definition read_depth_image (data : list Byte.byte) (w h : Z) : result Image :=
  let n := buffer_len data in
  if (0 <=? h) && (0 <=? w) && (n mod 4 =? 0) && (n / 4 =? h * w)
  then Ok (mkImage Float32 [h; w] data)
  else Raise ValueError.

Definition read_normals_image (data : list Byte.byte) (w h : Z) : result Image :=
  let n := buffer_len data in
  if (0 <=? h) && (0 <=? w) && (n mod 4 =? 0) && (n / 4 =? h * w * 3)
  then Ok (mkImage Float32 [h; w; 3] data)
  else Raise ValueError.

Definition read_rgba_image (data : list Byte.byte) (w h : Z) : result Image :=
  let n := buffer_len data in
  if (0 <? h) && (0 <? w) && (n mod (h * w) =? 0)
  then Ok (mkImage UInt8 [h; w; n / (h * w)] data)
  else Raise ValueError.

Definition read_segmentation_image (data : list Byte.byte) (w h : Z) : result Image :=
  let n := buffer_len data in
  if (0 <=? h) && (0 <=? w) && (n =? h * w)
  then Ok (mkImage UInt8 [h; w] data)
  else Raise ValueError.

(** *** Configuration objects *)

Record RemoteRendererConfig : Type := mkRemoteRendererConfig {
  camera_names : list string;
  render_alpha : bool;
  render_depth : bool;
  render_normals : bool;
  render_segmentation : bool;
  image_width : Z;
  image_height : Z;
  spawn_servers : bool;
  renderer_local_binary : option string;
  renderer_version : option string;
  renderer_config_path : option string;
  model_xml_path : option string;
  model_mapping_path : option string;
  asset_basedir : string;
  workers_count : Z;
  queues_count : Z;
  streams_count : Z
}.

(** [RemoteRendererConfig.__init__] *)
Definition default_config : RemoteRendererConfig :=
  mkRemoteRendererConfig [] false false false false 100 100 true
    None None None None None "." 4 4 4.

(** The [RendererConfig] message: a list of scene components, whose content
    the client only copies. *)
Definition Component : Type := string.

Record RendererConfig : Type := mkRendererConfig {
  components : list Component
}.

(** *** Messages of the render service *)

Record UpdateRequest : Type := mkUpdateRequest {
  ur_components : list Component
}.

Record Entry : Type := mkEntry {
  qpos : list pyfloat;
  seed : option Z
}.

Record RenderBatchRequest : Type := mkRenderBatchRequest {
  width : Z;
  height : Z;
  batch_seed : option Z;
  use_entry_seeds : bool;
  rq_render_alpha : bool;
  rq_render_depth : bool;
  rq_render_normals : bool;
  rq_render_segmentation : bool;
  entries : list Entry;
  rq_camera_names : list string
}.

Record StreamEntry : Type := mkStreamEntry {
  image_data : list Byte.byte;
  depth_data : list Byte.byte;
  normals_data : list Byte.byte;
  segmentation_data : list Byte.byte
}.

Record Stream : Type := mkStream {
  stream_name : string;
  stream_entries : list StreamEntry
}.

(** An auxiliary stream: a name and flat scalar data. *)
Record AuxStream (A : Type) : Type := mkAuxStream {
  aux_name : string;
  aux_data : list A
}.
Arguments mkAuxStream {A} _ _.
Arguments aux_name {A} _.
Arguments aux_data {A} _.

Record RenderBatchResponse : Type := mkRenderBatchResponse {
  streams : list Stream;
  auxiliary_float_streams : list (AuxStream pyfloat);
  auxiliary_int_streams : list (AuxStream Z);
  auxiliary_bool_streams : list (AuxStream bool)
}.

(** The integer ranges the generated message classes enforce on assignment
    (a value outside raises [ValueError]).  [RenderService_pb2] is generated
    code outside the sources, so the ranges of these three fields are left
    open; [batch_seed] is an int32, as the source says where it truncates. *)
Record Schema : Type := mkSchema {
  fits_width : Z -> bool;
  fits_height : Z -> bool;
  fits_entry_seed : Z -> bool
}.

Definition fits_int32 (z : Z) : bool := (- 2 ^ 31 <=? z) && (z <? 2 ^ 31).

Definition int32_schema : Schema := mkSchema fits_int32 fits_int32 fits_int32.

(** Assignment to an integer field. *)
Definition set_int (fits : Z -> bool) (z : Z) : result Z :=
  if fits z then Ok z else Raise ValueError.

(** *** Building the render-batch request *)

(** [v % (1 << 31)]; only an [int] has a remainder that the integer field
    [batch_seed] accepts. *)
Definition mod_int31 (v : pyval) : result Z :=
  match v with
  | VInt z => Ok (z mod 2 ^ 31)
  | _ => Raise TypeError
  end.

(** [seeds[i]], to be stored in the integer field [entry.seed]. *)
Definition seed_at (seeds : pyval) (i : nat) : result Z :=
  match seeds with
  | VInts l =>
      match l !! i with
      | Some z => Ok z
      | None => Raise IndexError
      end
  | VInt _ => Raise TypeError
  | VVectors l => if (i <? length l)%nat then Raise TypeError else Raise IndexError
  | VImages l => if (i <? length l)%nat then Raise TypeError else Raise IndexError
  | VMatrix r _ _ => if (i <? r)%nat then Raise TypeError else Raise IndexError
  end.

(** Row [i] of a row-major matrix with [c] columns. *)
Definition matrix_row {A} (c : nat) (d : list A) (i : nat) : list A :=
  take c (drop (i * c) d).

(** The state vectors [enumerate(workload['qpos'])] goes through; only
    vectors of floats are modelled, so another element is a [TypeError] when
    it is assigned to [entry.qpos]. *)
Definition state_vectors (v : pyval) : result (list (list pyfloat)) :=
  match v with
  | VVectors l => Ok l
  | VMatrix r c (Floats d) => Ok (map (matrix_row c d) (seq 0 r))
  | VInts [] => Ok []
  | VImages [] => Ok []
  | VMatrix O _ _ => Ok []
  | _ => Raise TypeError
  end.

(** [len(workload['qpos'])] *)
Definition py_len (v : pyval) : result nat :=
  match v with
  | VInt _ => Raise TypeError
  | VInts l => Ok (length l)
  | VVectors l => Ok (length l)
  | VImages l => Ok (length l)
  | VMatrix r _ _ => Ok r
  end.

(** The loop over the state vectors: one entry each, with [seeds[i]] when
    entry seeds are in use. *)
Fixpoint build_entries (pb : Schema) (use_entry_seeds : bool)
    (seeds : option pyval) (i : nat) (rows : list (list pyfloat))
  : result (list Entry) :=
  match rows with
  | [] => Ok []
  | q :: rest =>
      s ← (if use_entry_seeds then
             match seeds with
             | None => Raise (UnboundLocalError "seeds")
             | Some sv =>
                 z ← seed_at sv i;
                 z' ← set_int (fits_entry_seed pb) z;
                 Ok (Some z')
             end
           else Ok None);
      es ← build_entries pb use_entry_seeds seeds (S i) rest;
      Ok (mkEntry q s :: es)
  end.

Definition _build_render_batch_request (pb : Schema) (workload : Workload)
    (config : RemoteRendererConfig) : result (RenderBatchRequest * nat) :=
  w ← set_int (fits_width pb) (image_width config);
  h ← set_int (fits_height pb) (image_height config);
  (* if 'seed' in workload *)
  '(bseed, use1) ←
    match workload !! "seed" with
    | Some v =>
        z ← mod_int31 v;
        b ← set_int fits_int32 z;
        Ok (Some b, Some false)
    | None => Ok (None, None)
    end;
  (* if 'seeds' in workload *)
  let '(seeds, use2) :=
    match workload !! "seeds" with
    | Some v => (Some v, Some true)
    | None => (None, use1)
    end in
  use ← match use2 with
        | Some b => Ok b
        | None => Raise (UnboundLocalError "use_entry_seeds")
        end;
  qv ← match workload !! "qpos" with
       | Some v => Ok v
       | None => Raise (KeyError "qpos")
       end;
  rows ← state_vectors qv;
  es ← build_entries pb use seeds 0%nat rows;
  n ← py_len qv;
  Ok (mkRenderBatchRequest w h bseed use
        (render_alpha config) (render_depth config)
        (render_normals config) (render_segmentation config)
        es (camera_names config), n).

(** *** Decoding the render-batch response *)

Definition dquote : string := String (ascii_of_nat 34) EmptyString.

(** The warning of [_add_auxiliary_stream]. *)
Definition aux_warning (name : string) (len batch : nat) : string :=
  "Error in " +:+ dquote +:+ name +:+ dquote +:+ " len: " +:+ pretty len
  +:+ " batch: " +:+ pretty batch +:+ ".".

(** [_add_auxiliary_stream(batch_dataset, batch_size, stream, dtype)]: the
    stream is given by its name and its data converted to [dtype].  The
    result is the updated dictionary and the warnings logged. *)
Definition _add_auxiliary_stream (batch_dataset : Workload) (batch_size : nat)
    (name : string) (data : scalars) : result (Workload * list string) :=
  let data_length := scalars_len data in
  match batch_size with
  | O => Raise ZeroDivisionError
  | S _ =>
      if (data_length mod batch_size =? 0)%nat
      then Ok (<[name := VMatrix batch_size (data_length / batch_size) data]>
                 batch_dataset, [])
      else Ok (batch_dataset, [aux_warning name data_length batch_size])
  end.

(** A [for] loop whose body can raise. *)
Fixpoint for_each {A S} (body : S -> A -> result S) (l : list A) (s : S)
  : result S :=
  match l with
  | [] => Ok s
  | x :: rest => s' ← body s x; for_each body rest s'
  end.

(** Truth value of a [bytes] field. *)
Definition nonempty {A} (l : list A) : bool :=
  match l with [] => false | _ :: _ => true end.

(** The four per-stream lists of frames. *)
Record Frames : Type := mkFrames {
  stream_rgb_dataset : list Image;
  stream_depth_dataset : list Image;
  stream_normals_dataset : list Image;
  stream_segmentation_dataset : list Image
}.

(** The body of [for entry in stream.entries]. *)
Definition read_entry (w h : Z) (f : Frames) (entry : StreamEntry)
  : result Frames :=
  rgb ← (if nonempty (image_data entry)
         then image ← read_rgba_image (image_data entry) w h;
              Ok (stream_rgb_dataset f ++ [image])
         else Ok (stream_rgb_dataset f));
  dep ← (if nonempty (depth_data entry)
         then image ← read_depth_image (depth_data entry) w h;
              Ok (stream_depth_dataset f ++ [image])
         else Ok (stream_depth_dataset f));
  nor ← (if nonempty (normals_data entry)
         then image ← read_normals_image (normals_data entry) w h;
              Ok (stream_normals_dataset f ++ [image])
         else Ok (stream_normals_dataset f));
  seg ← (if nonempty (segmentation_data entry)
         then image ← read_segmentation_image (segmentation_data entry) w h;
              Ok (stream_segmentation_dataset f ++ [image])
         else Ok (stream_segmentation_dataset f));
  Ok (mkFrames rgb dep nor seg).

(** [if frames: batch_dataset[key] = np.array(frames)] *)
Definition store_if_any (key : string) (frames : list Image)
    (batch_dataset : Workload) : Workload :=
  if nonempty frames then <[key := VImages frames]> batch_dataset
  else batch_dataset.

(** The body of [for stream in response.streams]. *)
Definition read_stream (w h : Z) (batch_dataset : Workload) (stream : Stream)
  : result Workload :=
  f ← for_each (read_entry w h) (stream_entries stream) (mkFrames [] [] [] []);
  let name := stream_name stream in
  let d1 := <[name := VImages (stream_rgb_dataset f)]> batch_dataset in
  let d2 := store_if_any (name +:+ "_depth") (stream_depth_dataset f) d1 in
  let d3 := store_if_any (name +:+ "_normals") (stream_normals_dataset f) d2 in
  Ok (store_if_any (name +:+ "_segmentation") (stream_segmentation_dataset f) d3).

(** The body of the three loops over auxiliary streams; the state is the
    dictionary and the log. *)
Definition add_aux {A} (wrap : list A -> scalars) (batch_size : nat)
    (st : Workload * list string) (stream : AuxStream A)
  : result (Workload * list string) :=
  '(d, log) ← _add_auxiliary_stream (st.1) batch_size
                (aux_name stream) (wrap (aux_data stream));
  Ok (d, st.2 ++ log).

Definition _convert_render_batch_response (response : RenderBatchResponse)
    (config : RemoteRendererConfig) (batch_size : nat)
  : result (Workload * list string) :=
  let h := image_height config in
  let w := image_width config in
  d ← for_each (read_stream w h) (streams response) (∅ : Workload);
  s1 ← for_each (add_aux Floats batch_size)
         (auxiliary_float_streams response) (d, []);
  s2 ← for_each (add_aux Ints batch_size)
         (auxiliary_int_streams response) s1;
  for_each (add_aux Bools batch_size) (auxiliary_bool_streams response) s2.

Definition _build_update_request (renderer_config : RendererConfig)
  : UpdateRequest :=
  mkUpdateRequest (components renderer_config).

(** *** The world outside the interpreter *)

Record Host : Type := mkHost {
  environ : gmap string string;
  platform_system : string;
  platform_machine : string;
  hostname : string;
  pid : Z;
  path_exists : string -> bool
}.

(** A [subprocess.Popen] handle and a connected [RenderServiceStub] (named
    by the address of its channel). *)
Definition Popen : Type := nat.
Definition Stub : Type := string.

(** Whatever the worker does to the outside, in program order. *)
Inductive effect : Type :=
| Spawn (argv : list string) (cwd : string) (env : gmap string string)
| Prompt (commandline : list string)
| ChannelReady (target : string)
| LogWarning (msg : string)
| Sleep (seconds : Z)
| RpcUpdate (stub : Stub) (request : UpdateRequest)
| RpcRenderBatch (stub : Stub) (request : RenderBatchRequest)
| Terminate (p : Popen)
| Kill (p : Popen)
| Wait (p : Popen).

(** How the outside answers during one step of a worker: the operating
    system, the message classes, and the render server. *)
Record Outside : Type := mkOutside {
  host : Host;
  pb : Schema;
  popen : list string -> result Popen;
  channel_ready : nat -> bool;
  rpc_update : UpdateRequest -> result unit;
  rpc_render_batch : RenderBatchRequest -> result RenderBatchResponse
}.

Definition _get_server_bind_host (hst : Host) : string :=
  if String.eqb (platform_system hst) "Linux" then hostname hst
  else "localhost".

(** *** [_WorkloadWithConfig] and [_RemoteRendererWorker] *)

Record WorkloadWithConfig : Type := mkWorkloadWithConfig {
  wl_renderer_config_stamp : Z;
  wl_renderer_config : RendererConfig;
  wl_workload : Workload
}.

Record Worker : Type := mkWorker {
  should_shutdown : bool;
  device : Z;
  port : Z;
  base_config : RemoteRendererConfig;
  server_process : option Popen;
  client_stub : option Stub;
  wk_renderer_config_stamp : Z
}.

(** [_RemoteRendererWorker.__init__] *)
Definition new_worker (device port : Z) (base_config : RemoteRendererConfig)
  : Worker :=
  mkWorker false device port base_config None None 0.

Definition with_should_shutdown (b : bool) (self : Worker) : Worker :=
  mkWorker b (device self) (port self) (base_config self)
    (server_process self) (client_stub self) (wk_renderer_config_stamp self).

Definition with_server_process (p : option Popen) (self : Worker) : Worker :=
  mkWorker (should_shutdown self) (device self) (port self) (base_config self)
    p (client_stub self) (wk_renderer_config_stamp self).

Definition with_client_stub (c : option Stub) (self : Worker) : Worker :=
  mkWorker (should_shutdown self) (device self) (port self) (base_config self)
    (server_process self) c (wk_renderer_config_stamp self).

Definition with_renderer_config_stamp (z : Z) (self : Worker) : Worker :=
  mkWorker (should_shutdown self) (device self) (port self) (base_config self)
    (server_process self) (client_stub self) z.

(** [QueueWorkerABC.shutdown] *)
Definition shutdown (self : Worker) : Worker := with_should_shutdown true self.

(** *** Methods of the worker

    A method reads and writes [self], acts on the outside, and returns or
    raises: [Act A] gives the new [self], the effects in order, and the
    outcome.  The state and the effects of a method that raises are kept. *)
Definition Act (A : Type) : Type := Worker -> Worker * list effect * result A.

#[export] Instance act_ret : MRet Act := fun _ a self => (self, [], Ok a).
#[export] Instance act_bind : MBind Act := fun _ _ f m self =>
  match m self with
  | (self1, ev1, Ok a) =>
      match f a self1 with
      | (self2, ev2, r) => (self2, ev1 ++ ev2, r)
      end
  | (self1, ev1, Raise e) => (self1, ev1, Raise e)
  end.

Definition get_self : Act Worker := fun self => (self, [], Ok self).
Definition modify_self (f : Worker -> Worker) : Act unit :=
  fun self => (f self, [], Ok tt).
Definition emit_all (l : list effect) : Act unit := fun self => (self, l, Ok tt).
Definition emit (e : effect) : Act unit := emit_all [e].
Definition lift {A} (r : result A) : Act A := fun self => (self, [], r).
Definition raise {A} (e : exn) : Act A := lift (Raise e).

(** Truth value of an optional string attribute. *)
Definition truthy_path (v : option string) : bool := truthy_str v.

Definition str_of (v : option string) : string :=
  match v with Some s => s | None => "None" end.

(** [_server_commandline]: the command, its arguments and the environment
    overrides. *)
Definition _server_commandline (hst : Host) (self : Worker)
  : result (string * list string * gmap string string) :=
  let cfg := base_config self in
  py_assert (truthy_path (renderer_local_binary cfg));;
  py_assert (truthy_path (model_xml_path cfg));;
  py_assert (truthy_path (model_mapping_path cfg));;
  py_assert (truthy_path (renderer_config_path cfg));;
  let commandline_args :=
    [ "-logFile"; "/tmp/StandaloneRenderer." +:+ pretty (port self) +:+ ".log";
      "--render_server.host=" +:+ _get_server_bind_host hst;
      "--render_server.port=" +:+ pretty (port self);
      "--render_server.workers_count=" +:+ pretty (workers_count cfg);
      "--render_server.queues_count=" +:+ pretty (queues_count cfg);
      "--render_server.streams_count=" +:+ pretty (streams_count cfg);
      "--main.mode=Server";
      "--main.model_xml_path=" +:+ str_of (model_xml_path cfg);
      "--main.model_mapping_path=" +:+ str_of (model_mapping_path cfg);
      "--main.renderer_config_path=" +:+ str_of (renderer_config_path cfg);
      "--main.asset_basedir=" +:+ asset_basedir cfg;
      "--main.parent_pid=" +:+ pretty (pid hst) ] in
  let display := default "0" (getenv (environ hst) "ORRB_DISPLAY") in
  let environment : gmap string string :=
    {[ "DISPLAY" := ":" +:+ display +:+ "." +:+ pretty (device self) ]} in
  Ok (str_of (renderer_local_binary cfg), commandline_args, environment).

(** [os.path.dirname] on POSIX paths. *)
Fixpoint drop_to_slash (rev_path : string) : string :=
  match rev_path with
  | EmptyString => EmptyString
  | String c rest =>
      if Ascii.eqb c "/"%char then rev_path else drop_to_slash rest
  end.

Fixpoint lstrip_slashes (s : string) : string :=
  match s with
  | String c rest => if Ascii.eqb c "/"%char then lstrip_slashes rest else s
  | EmptyString => EmptyString
  end.

Definition dirname (path : string) : string :=
  let rev_head := drop_to_slash (String.rev path) in
  match lstrip_slashes rev_head with
  | EmptyString => String.rev rev_head
  | stripped => String.rev stripped
  end.

(** The target of the channel, ['%s:%d' % (host, port)]. *)
Definition channel_target (hst : Host) (port : Z) : string :=
  _get_server_bind_host hst +:+ ":" +:+ pretty port.

Definition retry_warning (port : Z) : string :=
  "... cannot create client stub, retrying. If this persists "
  +:+ "check /tmp/StandaloneRenderer." +:+ pretty port +:+ ".log.".

(** The loop [for i in range(10)] of [on_run], over the attempts left; it
    answers whether [on_run] returned from inside the loop. *)
Fixpoint connect_attempts (o : Outside) (attempts : list nat) : Act bool :=
  match attempts with
  | [] => mret false
  | i :: rest =>
      self ← get_self;
      let target := channel_target (host o) (port self) in
      emit (ChannelReady target);;
      if channel_ready o i
      then modify_self (with_client_stub (Some target));; mret true
      else emit (LogWarning (retry_warning (port self)));;
           emit (Sleep (1 + Z.of_nat i));;
           connect_attempts o rest
  end.

(** The first half of [on_run]: starting the server when the configuration
    asks for it. *)
Definition spawn_server (o : Outside) : Act unit :=
  self ← get_self;
  if spawn_servers (base_config self) then
    '(command, args, environment) ← lift (_server_commandline (host o) self);
    let environment_copy := environment ∪ environ (host o) in
    if truthy_str (getenv (environ (host o)) "ORRB_DETACHED")
    then emit (Prompt (command :: args))
    else
      emit (Spawn (command :: args) (dirname command) environment_copy);;
      p ← lift (popen o (command :: args));
      modify_self (with_server_process (Some p))
  else mret tt.

Definition on_run (o : Outside) : Act unit :=
  spawn_server o;;
  connected ← connect_attempts o (seq 0 10);
  if connected : bool then mret tt
  else raise (RendererError "Could not create remote render server.").

Definition on_shutdown : Act unit :=
  self ← get_self;
  match server_process self with
  | Some p => emit (Terminate p);; emit (Kill p);; emit (Wait p)
  | None => mret tt
  end.

(** [self.client_stub.<method>]: an unset stub has no methods. *)
Definition the_stub : Act Stub :=
  self ← get_self;
  match client_stub self with
  | Some stub => mret stub
  | None => raise AttributeError
  end.

Definition process (o : Outside) (workload_with_config : WorkloadWithConfig)
  : Act Workload :=
  self ← get_self;
  (if bool_decide (wl_renderer_config_stamp workload_with_config
                   ≠ wk_renderer_config_stamp self)
   then
     modify_self (with_renderer_config_stamp
                    (wl_renderer_config_stamp workload_with_config));;
     stub ← the_stub;
     let request :=
       _build_update_request (wl_renderer_config workload_with_config) in
     emit (RpcUpdate stub request);;
     lift (rpc_update o request)
   else mret tt);;
  let actual_workload := wl_workload workload_with_config in
  self ← get_self;
  '(request, batch_size) ←
    lift (_build_render_batch_request (pb o) actual_workload (base_config self));
  stub ← the_stub;
  emit (RpcRenderBatch stub request);;
  response ← lift (rpc_render_batch o request);
  '(batch_dataset, warnings) ←
    lift (_convert_render_batch_response response (base_config self) batch_size);
  (* the warnings were logged while the response was decoded *)
  emit_all (map LogWarning warnings);;
  (* actual_workload.update(...): the decoded keys replace old ones *)
  mret (batch_dataset ∪ actual_workload).

(** *** [RemoteRenderer.create_workers] *)

Definition create_workers (environ : gmap string string)
    (server_configs : list (Z * Z)) (base_config : RemoteRendererConfig)
  : result (list Worker) :=
  py_assert (bool_decide (0 < length server_configs)%nat);;
  server_configs ←
    (if truthy_str (getenv environ "ORRB_MINIMAL") then
       minimal_setup_size ← py_int (default EmptyString (getenv environ "ORRB_MINIMAL"));
       Ok (slice_to server_configs minimal_setup_size)
     else Ok server_configs);
  Ok (map (fun '(device, port) => new_worker device port base_config)
        server_configs).

(** *** [get_renderer_executable] *)

Definition ends_with_slash (s : string) : bool :=
  match String.rev s with
  | String c _ => Ascii.eqb c "/"%char
  | EmptyString => false
  end.

Definition starts_with_slash (s : string) : bool :=
  match s with
  | String c _ => Ascii.eqb c "/"%char
  | EmptyString => false
  end.

(** [os.path.join(a, b)] on POSIX paths. *)
Definition path_join (a b : string) : string :=
  if starts_with_slash b then b
  else if String.eqb a EmptyString || ends_with_slash a then a +:+ b
  else a +:+ "/" +:+ b.

Definition get_renderer_executable (hst : Host) (version : option string)
  : result string :=
  let version :=
    match getenv (environ hst) "ORRB_VERSION_OVERRIDE" with
    | Some version_override => Some version_override
    | None => version
    end in
  match version with
  | None => Raise ValueError
  | Some version =>
      match getenv (environ hst) "ORRB_BINARIES_DIR" with
      | None => Raise ValueError
      | Some orb_binaries_dir =>
          let package :=
            "StandaloneRenderer-" +:+ platform_system hst +:+ "-"
            +:+ platform_machine hst +:+ "-" +:+ version in
          let package_executable :=
            path_join (path_join orb_binaries_dir package) "run.sh" in
          if path_exists hst package_executable then Ok package_executable
          else Raise ValueError
      end
  end.

End Renderer.

(* ================================================================== *)
(** ** The pool at run time: [orrb/queue_executor.py] and the threads *)
(* ================================================================== *)

Module Pool.
Import Py Renderer.

(** A result queue is named by a number; [sync_queue] is the renderer's own. *)
Definition qid : Type := nat.
Definition sync_queue : qid := 0%nat.

(** [QueueTask]; [task_id] stands for the identity of the object that
    [execute] allocates. *)
Record QueueTask : Type := mkQueueTask {
  task_id : nat;
  workload : WorkloadWithConfig;
  destination : qid
}.

(** *** What a calling thread runs

    The methods of the executor and of the renderer, as sequences of the
    operations on shared state that another thread can observe or interleave
    with; [k] is the rest of the method. *)
Inductive prog : Type :=
| Return (r : option Workload)
| Throw (e : exn)
| LoadStamp (k : Z -> prog)
| LoadConfig (k : RendererConfig -> prog)
| StoreStamp (z : Z) (k : prog)
| StoreConfig (c : RendererConfig) (k : prog)
| InputPut (w : WorkloadWithConfig) (d : qid) (k : prog)
| SinkGet (q : qid) (k : Workload -> prog)
| SinkTaskDone (q : qid) (k : prog)
| StoreThreads (l : list nat) (k : prog)
| LoadThreads (k : list nat -> prog)
| StartThread (i : nat) (k : prog)
| SetShutdown (i : nat) (k : prog)
| Join (i : nat) (k : prog).

(** [QueueExecutorABC.execute] *)
Definition execute (workload : WorkloadWithConfig) (destination : qid)
    (k : prog) : prog :=
  InputPut workload destination k.

(** [QueueExecutorABC.start] for [n] workers; [time.sleep(0.5)] only delays
    the caller. *)
Definition start (n : nat) : prog :=
  StoreThreads (seq 0 n)
    (LoadThreads (fun worker_threads =>
       foldr StartThread (Return None) worker_threads)).

(** [QueueExecutorABC.shutdown] for [n] workers. *)
Definition shutdown (n : nat) : prog :=
  foldr SetShutdown
    (LoadThreads (fun worker_threads =>
       foldr Join (Return None) worker_threads))
    (seq 0 n).

(** [RemoteRenderer.render_batch_async] *)
Definition render_batch_async (workload : Workload) (destination : qid)
    (k : prog) : prog :=
  LoadStamp (fun renderer_config_stamp =>
  LoadConfig (fun renderer_config =>
  let workload_with_config :=
    mkWorkloadWithConfig renderer_config_stamp renderer_config workload in
  execute workload_with_config destination k)).

(** [RemoteRenderer.render_batch] *)
Definition render_batch (workload : Workload) : prog :=
  render_batch_async workload sync_queue
    (SinkGet sync_queue (fun result =>
     SinkTaskDone sync_queue
       (Return (Some result)))).

(** [RemoteRenderer.update]; [deepcopy] of a value is the value. *)
Definition update (renderer_config : RendererConfig) : prog :=
  LoadStamp (fun stamp =>
  StoreStamp (stamp + 1)
    (StoreConfig renderer_config
       (Return None))).

(** [RemoteRenderer.execute]: [assert False]. *)
Definition renderer_execute : prog := Throw AssertionError.

(** A caller taking one result from a queue of its own. *)
Definition receive (q : qid) : prog :=
  SinkGet q (fun result => Return (Some result)).

(** What a calling thread can invoke. *)
Inductive api : Type :=
| ApiStart
| ApiShutdown
| ApiUpdate (renderer_config : RendererConfig)
| ApiRenderBatchAsync (workload : Workload) (destination : qid)
| ApiRenderBatch (workload : Workload)
| ApiExecute
| ApiReceive (q : qid).

Definition body (n_workers : nat) (c : api) : prog :=
  match c with
  | ApiStart => start n_workers
  | ApiShutdown => shutdown n_workers
  | ApiUpdate renderer_config => update renderer_config
  | ApiRenderBatchAsync workload destination =>
      render_batch_async workload destination (Return None)
  | ApiRenderBatch workload => render_batch workload
  | ApiExecute => renderer_execute
  | ApiReceive q => receive q
  end.

(** *** Worker threads *)

(** Where a worker thread stands in [QueueWorkerABC.run]. *)
Inductive pc : Type :=
| Unstarted
| Entering
| Polling
| Holding (t : QueueTask)
| Checking
| Returned
| Died (e : exn).

Record WorkerThread : Type := mkWorkerThread {
  self : Worker;
  at_pc : pc
}.

(** *** The shared state *)

(** What happened, in order: the trace that the statements below are about. *)
Inductive event : Type :=
| Published (version : Z) (renderer_config : RendererConfig)
| Submitted (t : QueueTask)
| CallerGot (caller : nat) (q : qid) (result : Workload)
| Entered (worker : nat) (effects : list effect) (outcome : result unit)
| Dequeued (worker : nat) (t : QueueTask)
| Served (worker : nat) (t : QueueTask) (effects : list effect)
    (outcome : result Workload)
| Stopped (worker : nat) (effects : list effect).

Record Sys : Type := mkSys {
  renderer_config_stamp : Z;
  renderer_config : RendererConfig;
  input_queue : Queue QueueTask;
  sinks : gmap qid (Queue Workload);
  workers : list WorkerThread;
  worker_threads : list nat;
  callers : list prog;
  next_task_id : nat;
  history : list event
}.

(** A queue nobody has put anything on is empty. *)
Definition sink (s : Sys) (q : qid) : Queue Workload :=
  default new_queue (sinks s !! q).

Definition with_stamp (z : Z) (s : Sys) : Sys :=
  mkSys z (renderer_config s) (input_queue s) (sinks s) (workers s)
    (worker_threads s) (callers s) (next_task_id s) (history s).

Definition with_config (c : RendererConfig) (s : Sys) : Sys :=
  mkSys (renderer_config_stamp s) c (input_queue s) (sinks s) (workers s)
    (worker_threads s) (callers s) (next_task_id s) (history s).

Definition with_input (q : Queue QueueTask) (s : Sys) : Sys :=
  mkSys (renderer_config_stamp s) (renderer_config s) q (sinks s) (workers s)
    (worker_threads s) (callers s) (next_task_id s) (history s).

Definition with_sink (d : qid) (q : Queue Workload) (s : Sys) : Sys :=
  mkSys (renderer_config_stamp s) (renderer_config s) (input_queue s)
    (<[d := q]> (sinks s)) (workers s)
    (worker_threads s) (callers s) (next_task_id s) (history s).

Definition with_worker (i : nat) (w : WorkerThread) (s : Sys) : Sys :=
  mkSys (renderer_config_stamp s) (renderer_config s) (input_queue s) (sinks s)
    (<[i := w]> (workers s))
    (worker_threads s) (callers s) (next_task_id s) (history s).

Definition with_threads (l : list nat) (s : Sys) : Sys :=
  mkSys (renderer_config_stamp s) (renderer_config s) (input_queue s) (sinks s)
    (workers s) l (callers s) (next_task_id s) (history s).

Definition with_caller (c : nat) (p : prog) (s : Sys) : Sys :=
  mkSys (renderer_config_stamp s) (renderer_config s) (input_queue s) (sinks s)
    (workers s) (worker_threads s) (<[c := p]> (callers s))
    (next_task_id s) (history s).

Definition with_next_task_id (n : nat) (s : Sys) : Sys :=
  mkSys (renderer_config_stamp s) (renderer_config s) (input_queue s) (sinks s)
    (workers s) (worker_threads s) (callers s) n (history s).

Definition record (evs : list event) (s : Sys) : Sys :=
  mkSys (renderer_config_stamp s) (renderer_config s) (input_queue s) (sinks s)
    (workers s) (worker_threads s) (callers s) (next_task_id s)
    (history s ++ evs).

(** [RemoteRenderer.__init__] followed by [QueueExecutorABC.__init__], with
    [n_callers] threads ready to call in; [loaded] is the configuration read
    from [renderer_config_path]. *)
Definition new_renderer (hst : Host) (loaded : RendererConfig)
    (server_configs : list (Z * Z)) (base_config : RemoteRendererConfig)
    (n_callers : nat) : result Sys :=
  let c := base_config in
  binary ←
    match renderer_local_binary c with
    | None => b ← get_renderer_executable hst (renderer_version c); Ok (Some b)
    | Some b => Ok (Some b)
    end;
  let local_config :=
    mkRemoteRendererConfig (camera_names c) (render_alpha c) (render_depth c)
      (render_normals c) (render_segmentation c) (image_width c)
      (image_height c) (spawn_servers c) binary (renderer_version c)
      (renderer_config_path c) (model_xml_path c) (model_mapping_path c)
      (asset_basedir c) (workers_count c) (queues_count c) (streams_count c) in
  ws ← create_workers (environ hst) server_configs local_config;
  Ok (mkSys 0 loaded new_queue ∅
        (map (fun w => mkWorkerThread w Unstarted) ws) []
        (replicate n_callers (Return None)) 0%nat []).

(** *** Steps *)

(** Who moves: a caller enters a method, a caller executes the operation its
    method stands at, or a worker thread executes the part of [run] it stands
    at, with the outside answering as [o] says. *)
Inductive label : Type :=
| Call (caller : nat) (c : api)
| Advance (caller : nat)
| Work (worker : nat) (o : Outside).

Definition finished (at_ : pc) : bool :=
  match at_ with
  | Returned | Died _ => true
  | _ => false
  end.

(** One operation of a caller; [None] when the caller is blocked or has
    nothing to run. *)
Definition advance (c : nat) (p : prog) (s : Sys) : option Sys :=
  match p with
  | Return _ => None
  | Throw _ => None
  | LoadStamp k => Some (with_caller c (k (renderer_config_stamp s)) s)
  | LoadConfig k => Some (with_caller c (k (renderer_config s)) s)
  | StoreStamp z k => Some (with_caller c k (with_stamp z s))
  | StoreConfig cfg k =>
      Some (record [Published (renderer_config_stamp s) cfg]
              (with_caller c k (with_config cfg s)))
  | InputPut w d k =>
      let t := mkQueueTask (next_task_id s) w d in
      Some (record [Submitted t]
              (with_caller c k
                 (with_next_task_id (S (next_task_id s))
                    (with_input (put t (input_queue s)) s))))
  | SinkGet q k =>
      match get (sink s q) with
      | Some (r, q') =>
          Some (record [CallerGot c q r] (with_caller c (k r) (with_sink q q' s)))
      | None => None
      end
  | SinkTaskDone q k =>
      match task_done (sink s q) with
      | Ok q' => Some (with_caller c k (with_sink q q' s))
      | Raise e => Some (with_caller c (Throw e) s)
      end
  | StoreThreads l k => Some (with_caller c k (with_threads l s))
  | LoadThreads k => Some (with_caller c (k (worker_threads s)) s)
  | StartThread i k =>
      match workers s !! i with
      | Some (mkWorkerThread w Unstarted) =>
          Some (with_caller c k (with_worker i (mkWorkerThread w Entering) s))
      | Some _ => Some (with_caller c (Throw RuntimeError) s)
      | None => None
      end
  | SetShutdown i k =>
      match workers s !! i with
      | Some (mkWorkerThread w at_) =>
          Some (with_caller c k
                  (with_worker i (mkWorkerThread (Renderer.shutdown w) at_) s))
      | None => None
      end
  | Join i k =>
      match workers s !! i with
      | Some (mkWorkerThread w Unstarted) =>
          Some (with_caller c (Throw RuntimeError) s)
      | Some (mkWorkerThread w at_) =>
          if finished at_ then Some (with_caller c k s) else None
      | None => None
      end
  end.

(** One part of [QueueWorkerABC.run] for worker [i]. *)
Definition work (i : nat) (o : Outside) (wt : WorkerThread) (s : Sys)
  : option Sys :=
  match at_pc wt with
  | Unstarted | Returned | Died _ => None
  | Entering =>
      (* self.on_run() *)
      let '(w, evs, r) := on_run o (self wt) in
      let at_ := match r with Ok _ => Polling | Raise e => Died e end in
      Some (record [Entered i evs r] (with_worker i (mkWorkerThread w at_) s))
  | Polling =>
      (* workload = self.input_queue.get(block=True, timeout=2.0) *)
      match get (input_queue s) with
      | Some (t, q') =>
          Some (record [Dequeued i t]
                  (with_worker i (mkWorkerThread (self wt) (Holding t))
                     (with_input q' s)))
      | None =>
          Some (with_worker i (mkWorkerThread (self wt) Checking) s)
      end
  | Holding t =>
      (* result = self.process(workload.workload)
         workload.destination.put(result)
         self.input_queue.task_done() *)
      let '(w, evs, r) := process o (workload t) (self wt) in
      match r with
      | Ok result =>
          let s1 := with_sink (destination t)
                      (put result (sink s (destination t))) s in
          match task_done (input_queue s1) with
          | Ok q' =>
              Some (record [Served i t evs r]
                      (with_worker i (mkWorkerThread w Checking)
                         (with_input q' s1)))
          | Raise e =>
              Some (record [Served i t evs r]
                      (with_worker i (mkWorkerThread w (Died e)) s1))
          end
      | Raise e =>
          Some (record [Served i t evs r]
                  (with_worker i (mkWorkerThread w (Died e)) s))
      end
  | Checking =>
      (* if self.should_shutdown: self.on_shutdown(); return *)
      if should_shutdown (self wt) then
        let '(w, evs, _) := on_shutdown (self wt) in
        Some (record [Stopped i evs]
                (with_worker i (mkWorkerThread w Returned) s))
      else Some (with_worker i (mkWorkerThread (self wt) Polling) s)
  end.

Definition idle (p : prog) : bool :=
  match p with
  | Return _ | Throw _ => true
  | _ => false
  end.

Definition step (l : label) (s : Sys) : option Sys :=
  match l with
  | Call c a =>
      match callers s !! c with
      | Some p =>
          if idle p then Some (with_caller c (body (length (workers s)) a) s)
          else None
      | None => None
      end
  | Advance c =>
      match callers s !! c with
      | Some p => advance c p s
      | None => None
      end
  | Work i o =>
      match workers s !! i with
      | Some wt => work i o wt s
      | None => None
      end
  end.

(** A schedule is a list of labels, run from left to right. *)
Fixpoint exec (ls : list label) (s : Sys) : option Sys :=
  match ls with
  | [] => Some s
  | l :: rest =>
      match step l s with
      | Some s' => exec rest s'
      | None => None
      end
  end.

(** A caller running a method on its own: the call and [n] operations. *)
Definition invoke (c : nat) (a : api) (n : nat) : list label :=
  Call c a :: replicate n (Advance c).

End Pool.

(* ================================================================== *)
(** ** Helpers of [orrb/utils.py] *)
(* ================================================================== *)

Module Utils.
Import Py Renderer.

(** [range(n)] *)
Definition py_range (n : Z) : list Z := seqZ 0 n.

(** An index of a slice, as Python adjusts it for a sequence of length
    [len]: a negative index counts from the end, and the outcome is clipped
    to the sequence. *)
Definition clip_index (len i : Z) : Z :=
  let i := if i <? 0 then i + len else i in
  Z.max 0 (Z.min len i).

(** [l[a:b]] *)
Definition py_slice {A} (l : list A) (a b : Z) : list A :=
  let len := Z.of_nat (length l) in
  let start := clip_index len a in
  let stop := clip_index len b in
  take (Z.to_nat (stop - start)) (drop (Z.to_nat start) l).

(** [build_server_configs]: the two loops append [[gpu, base_port]] and
    advance [base_port]; the pairs of a rank are a slice of the list. *)
Definition build_server_configs
    (num_gpus num_workers base_port mpi_rank mpi_size : Z)
  : result (list (Z * Z)) :=
  let '(server_configs, _) :=
    foldl (fun st worker =>
             foldl (fun '(server_configs, base_port) gpu =>
                      (server_configs ++ [(gpu, base_port)], base_port + 1))
               st (py_range num_gpus))
      ([], base_port) (py_range num_workers) in
  let len := Z.of_nat (length server_configs) in
  (if mpi_size =? 0 then Raise ZeroDivisionError else Ok tt);;
  py_assert (len mod mpi_size =? 0);;
  let chunk := len / mpi_size in
  Ok (py_slice server_configs (mpi_rank * chunk) ((mpi_rank + 1) * chunk)).


(** *** [render_segmentation]

    A two-dimensional array of integers is a list of rows, and a colour
    image a list of rows of pixels.  Elements are added as Python integers
    are, so the statements below keep to arrays whose maximum is below the
    top of an 8-bit element. *)

(** [image.max()]; an array without elements has no maximum. *)
Definition array_max (image : list (list Z)) : result Z :=
  match concat image with
  | [] => Raise ValueError
  | x :: rest => Ok (foldl Z.max x rest)
  end.

(** The binary digits of a positive number, most significant first. *)
Fixpoint binary (p : positive) : string :=
  match p with
  | xH => "1"
  | xO q => binary q +:+ "0"
  | xI q => binary q +:+ "1"
  end.

Fixpoint zeros (n : nat) : string :=
  match n with
  | O => EmptyString
  | S m => String "0"%char (zeros m)
  end.

(** ['{0:03b}'.format(i)]: the sign, then the digits padded with zeros to
    three characters in all. *)
Definition format_03b (i : Z) : string :=
  match i with
  | Z0 => "000"
  | Zpos p => zeros (3 - String.length (binary p)) +:+ binary p
  | Zneg p => "-" +:+ zeros (2 - String.length (binary p)) +:+ binary p
  end.

(** [np.array([int(b) for b in s[::-1]]) * 255] *)
Definition color_of (s : string) : result (list Z) :=
  digits ← mapM (fun b => py_int (String b EmptyString))
              (list_ascii_of_string (String.rev s));
  Ok (map (fun d => d * 255) digits).

(** [new_image[image == i, ...] = color]: the pixels whose element is [i]
    take the three values of [color]. *)
Definition paint (image : list (list Z)) (i : Z) (color : list Z)
    (new_image : list (list (list Z))) : result (list (list (list Z))) :=
  if bool_decide (length color = 3%nat)
  then Ok (zip_with (zip_with (fun v pixel => if v =? i then color else pixel))
             image new_image)
  else Raise ValueError.

Definition render_segmentation (image : list (list Z))
  : result (list (list (list Z))) :=
  m ← array_max image;
  let n_categories := m + 1 in
  py_assert (n_categories <? 8);;
  let new_image := map (map (fun _ => [0; 0; 0])) image in
  for_each (fun new_image i =>
              color ← color_of (format_03b i);
              paint image i color new_image)
    (py_range n_categories) new_image.

(** [build_batch] *)
Definition build_batch (states seed : pyval) : Workload :=
  {[ "qpos" := states; "seed" := seed ]}.

End Utils.

(* ================================================================== *)
(** ** Vocabulary of the statements *)
(* ================================================================== *)

Module Props.
Import Py Renderer Pool.

(** What one failed connection attempt leaves in the trace: the attempt, the
    warning, and the back-off of [1 + i] seconds. *)
Definition failed_attempt (target : string) (port : Z) (i : nat)
  : list effect :=
  [ChannelReady target; LogWarning (retry_warning port);
   Sleep (1 + Z.of_nat i)].

(** How a workload is seeded: one seed for the batch, or one per entry. *)
Inductive seeding : Type :=
| BatchSeed (s : Z)
| EntrySeeds (ss : list Z).

(** The workload supplies exactly one of the two, for [n] state vectors;
    entry seeds are values the field [entry.seed] accepts. *)
Definition supplies (pb : Schema) (workload : Workload) (n : nat)
    (sd : seeding) : Prop :=
  match sd with
  | BatchSeed s =>
      workload !! "seed" = Some (VInt s) /\ workload !! "seeds" = None
  | EntrySeeds ss =>
      workload !! "seed" = None /\ workload !! "seeds" = Some (VInts ss)
      /\ length ss = n /\ Forall (fun z => fits_entry_seed pb z = true) ss
  end.

Definition per_entry (sd : seeding) : bool :=
  match sd with BatchSeed _ => false | EntrySeeds _ => true end.

(** Fixtures for the closed examples: a Linux host, a configuration that
    does not spawn servers, and a render server that answers every batch with
    no streams. *)
Definition a_host : Host :=
  mkHost ∅ "Linux" "x86_64" "node" 4242 (fun _ => true).

Definition a_config : RemoteRendererConfig :=
  mkRemoteRendererConfig ["cam"] false false false false 100 100 false
    (Some "/opt/orrb/run.sh") None (Some "renderer_config.json")
    (Some "model.xml") (Some "model.mapping") "." 4 4 4.

Definition no_streams : RenderBatchResponse :=
  mkRenderBatchResponse [] [] [] [].

(** The outside answering: the channel gets ready from attempt [first_ready]
    on, and every RPC succeeds. *)
Definition an_outside (first_ready : nat) : Outside :=
  mkOutside a_host int32_schema (fun _ => Ok 1%nat)
    (fun i => (first_ready <=? i)%nat) (fun _ => Ok tt)
    (fun _ => Ok no_streams).

Definition a_worker : Worker := new_worker 0 7000 a_config.

(** A workload with two state vectors and one seed per entry. *)
Definition a_seeded_workload : Workload :=
  {[ "qpos" := VVectors [[1.5%float; 0.5%float]; [2.5%float; 0.25%float]];
     "seeds" := VInts [7; 8] ]}.







(** An empty batch, and a response to it with one empty auxiliary stream. *)
Definition an_empty_workload : Workload :=
  {[ "qpos" := VVectors []; "seed" := VInt 0 ]}.


(** *** Reading the trace *)

Definition submitted (h : list event) : list QueueTask :=
  omap (fun e => match e with Submitted t => Some t | _ => None end) h.

Definition dequeued (h : list event) : list QueueTask :=
  omap (fun e => match e with Dequeued _ t => Some t | _ => None end) h.

(** The tasks whose processing ended, with how it ended. *)
Definition outcomes (h : list event) : list (QueueTask * result Workload) :=
  omap (fun e => match e with Served _ t _ r => Some (t, r) | _ => None end) h.

Definition served (h : list event) : list QueueTask := map fst (outcomes h).

Definition delivered (h : list event) : list QueueTask :=
  omap (fun '(t, r) => match r with Ok _ => Some t | Raise _ => None end)
    (outcomes h).

Definition failed (h : list event) : list QueueTask :=
  omap (fun '(t, r) => match r with Ok _ => None | Raise _ => Some t end)
    (outcomes h).

(** The results put on queue [q], and those a caller took from it. *)
Definition delivered_to (q : qid) (h : list event) : list Workload :=
  omap (fun e => match e with
                 | Served _ t _ (Ok r) =>
                     if decide (destination t = q) then Some r else None
                 | _ => None
                 end) h.

Definition received_from (q : qid) (h : list event) : list Workload :=
  omap (fun e => match e with
                 | CallerGot _ q' r => if decide (q' = q) then Some r else None
                 | _ => None
                 end) h.

Arguments submitted !h /.
Arguments dequeued !h /.
Arguments outcomes !h /.
Arguments served !h /.
Arguments delivered_to q !h /.
Arguments received_from q !h /.

(** The task a worker thread holds between dequeuing it and delivering its
    result, and the tasks held by all the workers. *)
Definition holding (wt : WorkerThread) : list QueueTask :=
  match at_pc wt with
  | Holding t => [t]
  | _ => []
  end.

Definition held (ws : list WorkerThread) : list QueueTask :=
  flat_map holding ws.

(** Every task is accounted for: identities are fresh, a submitted task is
    queued or was dequeued, a dequeued task is held or was served, and every
    result delivered to a queue is still there or was taken by a caller. *)
Record accounted (s : Sys) : Prop := mkAccounted {
  acc_ids :
    map task_id (submitted (history s)) = seq 0 (next_task_id s);
  acc_queue :
    submitted (history s) ≡ₚ items (input_queue s) ++ dequeued (history s);
  acc_held :
    dequeued (history s) ≡ₚ held (workers s) ++ served (history s);
  acc_sinks :
    forall q, delivered_to q (history s)
              = received_from q (history s) ++ items (sink s q)
}.

(** A pool all of whose worker threads have returned or died. *)
Definition all_finished (s : Sys) : Prop :=
  Forall (fun wt => finished (at_pc wt) = true) (workers s).

(** A render server that fails every batch. *)
Definition a_broken_outside : Outside :=
  mkOutside a_host int32_schema (fun _ => Ok 1%nat) (fun _ => true)
    (fun _ => Ok tt) (fun _ => Raise RpcError).

Definition a_renderer_config : RendererConfig := mkRendererConfig ["scene"].

(** A renderer with one worker and [n_callers] calling threads. *)
Definition a_pool (n_callers : nat) : result Sys :=
  new_renderer a_host a_renderer_config [(0, 7000)] a_config n_callers.

(** One caller starts the pool and submits [a_seeded_workload] for queue 1;
    the worker connects, takes the task, and the render call fails. *)
Definition lost_task_schedule : list label :=
  invoke 0 ApiStart 3 ++ [Work 0 (an_outside 0)]
  ++ invoke 0 (ApiRenderBatchAsync a_seeded_workload 1%nat) 3
  ++ [Work 0 (an_outside 0); Work 0 a_broken_outside].

Definition lost_task_run : option Sys :=
  match a_pool 1 with
  | Ok s0 => exec lost_task_schedule s0
  | Raise _ => None
  end.

(** *** Shutting a worker down *)

(** The effects that act on a server process. *)
Definition is_control (e : effect) : bool :=
  match e with
  | Terminate _ | Kill _ | Wait _ => true
  | _ => false
  end.

Definition is_spawn (e : effect) : bool :=
  match e with
  | Spawn _ _ _ => true
  | _ => false
  end.

(** What [on_shutdown] does to the process the worker owns. *)
Definition shutdown_effects (w : Worker) : list effect :=
  match server_process w with
  | Some p => [Terminate p; Kill p; Wait p]
  | None => []
  end.


Definition by_worker (i : nat) (e : event) : bool :=
  match e with
  | Entered j _ _ | Dequeued j _ | Served j _ _ _ | Stopped j _ =>
      bool_decide (j = i)
  | _ => false
  end.

(** The events of worker [i], and the tasks it served. *)
Definition events_by (i : nat) (h : list event) : list event :=
  filter (fun e => by_worker i e = true) h.

Definition served_by (i : nat) (h : list event) : list QueueTask :=
  served (events_by i h).

Definition dequeued_by (i : nat) (h : list event) : list QueueTask :=
  dequeued (events_by i h).






(** *** The published configuration *)

(** The (version, value) pairs that [update] completed, in order. *)
Definition published (h : list event) : list (Z * RendererConfig) :=
  omap (fun e => match e with Published v c => Some (v, c) | _ => None end) h.

Arguments published !h /.



(** The synchronous call as the specification words it: the asynchronous
    submission to the private queue followed by one blocking receive. *)
Definition submit_sync (workload : Workload) : prog :=
  render_batch_async workload sync_queue (receive sync_queue).

(** A method without the bookkeeping calls to [task_done]. *)
Fixpoint without_task_done (p : prog) : prog :=
  match p with
  | Return r => Return r
  | Throw e => Throw e
  | LoadStamp k => LoadStamp (fun z => without_task_done (k z))
  | LoadConfig k => LoadConfig (fun c => without_task_done (k c))
  | StoreStamp z k => StoreStamp z (without_task_done k)
  | StoreConfig c k => StoreConfig c (without_task_done k)
  | InputPut w d k => InputPut w d (without_task_done k)
  | SinkGet q k => SinkGet q (fun r => without_task_done (k r))
  | SinkTaskDone q k => without_task_done k
  | StoreThreads l k => StoreThreads l (without_task_done k)
  | LoadThreads k => LoadThreads (fun l => without_task_done (k l))
  | StartThread i k => StartThread i (without_task_done k)
  | SetShutdown i k => SetShutdown i (without_task_done k)
  | Join i k => Join i (without_task_done k)
  end.

(** The part of [render_batch] after the submission. *)
Definition await_result : prog :=
  SinkGet sync_queue (fun result =>
  SinkTaskDone sync_queue
    (Return (Some result))).

Definition another_renderer_config : RendererConfig :=
  mkRendererConfig ["scene"; "lights"].

(** *** Versions and values in flight *)

Definition stamp_of (t : QueueTask) : Z :=
  wl_renderer_config_stamp (workload t).

Definition config_of (t : QueueTask) : RendererConfig :=
  wl_renderer_config (workload t).

(** The (version, value) pairs there are to see: the one the renderer was
    constructed with, and those [update] published. *)
Definition pairs (loaded : RendererConfig) (h : list event)
  : list (Z * RendererConfig) :=
  (0, loaded) :: published h.

(** Every stamped workload carries a version with the value of that
    version. *)
Definition consistent (loaded : RendererConfig) (h : list event) : Prop :=
  forall t, In t (submitted h) -> In (stamp_of t, config_of t) (pairs loaded h).

(** What remains of a method is safe to run for the only thread that calls
    the renderer, when the renderer holds version [st] and value [cf] and
    [P] tells the pairs there are to see: the version only grows, a
    submission carries the version held and one of the pairs, and the
    method ends with the renderer holding one of the pairs. *)
Fixpoint safe (P : Z -> RendererConfig -> Prop) (st : Z) (cf : RendererConfig)
    (p : prog) : Prop :=
  match p with
  | Return _ | Throw _ => P st cf
  | LoadStamp k => safe P st cf (k st)
  | LoadConfig k => safe P st cf (k cf)
  | StoreStamp z k => st <= z /\ safe P z cf k
  | StoreConfig c k => safe (fun v x => P v x \/ (v = st /\ x = c)) st c k
  | InputPut w d k =>
      P (wl_renderer_config_stamp w) (wl_renderer_config w)
      /\ wl_renderer_config_stamp w = st
      /\ safe P st cf k
  | SinkGet q k => forall r, safe P st cf (k r)
  | SinkTaskDone q k => P st cf /\ safe P st cf k
  | StoreThreads l k => safe P st cf k
  | LoadThreads k => forall l, safe P st cf (k l)
  | StartThread i k => P st cf /\ safe P st cf k
  | SetShutdown i k => safe P st cf k
  | Join i k => P st cf /\ safe P st cf k
  end.

(** The renderer as its only calling thread leaves it, whatever the workers
    do in between. *)
Record coherent (loaded : RendererConfig) (s : Sys) : Prop := mkCoherent {
  coh_caller :
    exists p,
      callers s = [p]
      /\ safe (fun v x => In (v, x) (pairs loaded (history s)))
           (renderer_config_stamp s) (renderer_config s) p;
  coh_consistent : consistent loaded (history s)
}.

(** *** Versions as a worker applies them *)

(** The version a worker has applied, and the version it is bound to have
    applied when it is done with the task it holds. *)
Definition applied (wt : WorkerThread) : Z :=
  wk_renderer_config_stamp (self wt).

Definition reach (wt : WorkerThread) : Z :=
  match at_pc wt with
  | Holding t => stamp_of t
  | _ => applied wt
  end.

Definition is_update (e : effect) : bool :=
  match e with
  | RpcUpdate _ _ => true
  | _ => false
  end.

(** The versions of the tasks worker [i] served, in order: the versions it
    applied, one after the other. *)
Definition served_stamps (i : nat) (h : list event) : list Z :=
  map stamp_of (served_by i h).

(** The versions for which worker [i] issued the update RPC, in order. *)
Definition update_versions (i : nat) (h : list event) : list Z :=
  omap (fun e => match e with
                 | Served j t effs _ =>
                     if bool_decide (j = i) && existsb is_update effs
                     then Some (stamp_of t) else None
                 | _ => None
                 end) h.

Arguments update_versions i !h /.

(** Versions are in order everywhere: along the input queue, from each
    worker to the queue, and along what each worker served and updated. *)
Record ordered (s : Sys) : Prop := mkOrdered {
  ord_queue :
    StronglySorted Z.le (map stamp_of (items (input_queue s)));
  ord_bound :
    Forall (fun t => stamp_of t <= renderer_config_stamp s)
      (items (input_queue s));
  ord_workers :
    forall i wt,
      workers s !! i = Some wt ->
      applied wt <= reach wt
      /\ reach wt <= renderer_config_stamp s
      /\ Forall (fun t => reach wt <= stamp_of t) (items (input_queue s))
      /\ StronglySorted Z.le (0 :: served_stamps i (history s))
      /\ Forall (fun v => v <= applied wt) (0 :: served_stamps i (history s))
      /\ StronglySorted Z.lt (update_versions i (history s))
      /\ Forall (fun v => v <= applied wt) (update_versions i (history s))
}.



(** Two callers: caller 0 is between the two writes of [update] when
    caller 1 reads the version and the value for a submission. *)
Definition torn_schedule : list label :=
  [Call 0 (ApiUpdate another_renderer_config);
   Call 1 (ApiRenderBatchAsync a_seeded_workload 1%nat);
   Advance 0; Advance 0;
   Advance 1; Advance 1; Advance 1;
   Advance 0].

Definition torn_run : option Sys :=
  match a_pool 2 with
  | Ok s0 => exec torn_schedule s0
  | Raise _ => None
  end.

(** A worker thread is past [on_run] and inside the loop of [run]. *)
Definition serving (at_ : pc) : bool :=
  match at_ with
  | Polling | Holding _ | Checking => true
  | _ => false
  end.

(** Every worker inside its loop has a client stub. *)
Definition connected (s : Sys) : Prop :=
  forall i wt,
    workers s !! i = Some wt -> serving (at_pc wt) = true ->
    is_Some (client_stub (self wt)).


(** *** Server configurations by rank *)

(** The pairs for every GPU of every worker: GPU indices go round, ports
    count up from [base_port]. *)
Definition all_server_configs (num_gpus num_workers base_port : Z)
  : list (Z * Z) :=
  map (fun k => (k mod num_gpus, base_port + k))
    (seqZ 0 (num_gpus * num_workers)).

(** *** Colours of a segmentation *)

(** The colour of category [v]: bit 0 is red, bit 1 green, bit 2 blue. *)
Definition category_color (v : Z) : list Z :=
  [255 * (v mod 2); 255 * (v / 2 mod 2); 255 * (v / 4 mod 2)].

(** *** Batches and frames *)

(** The size of one element, and the number of elements of a shape. *)
Definition itemsize (d : dtype) : Z :=
  match d with
  | UInt8 => 1
  | Float32 => 4
  end.

Definition elements (shape : list Z) : Z := foldr Z.mul 1 shape.

(** A frame of the configured height and width whose buffer holds exactly
    the elements of its shape. *)
Definition frame_fits (w h : Z) (image : Image) : Prop :=
  take 2 (img_shape image) = [h; w]
  /\ buffer_len (img_buffer image)
     = itemsize (img_dtype image) * elements (img_shape image).

(** Every array of frames in a dictionary holds fitting frames. *)
Definition frames_fit (w h : Z) (d : Workload) : Prop :=
  forall key images,
    d !! key = Some (VImages images) -> Forall (frame_fits w h) images.

(** The buffers of one kind that the entries of a stream carry. *)
Definition carried (kind : StreamEntry -> list Byte.byte)
    (entries : list StreamEntry) : list (list Byte.byte) :=
  filter (fun data => nonempty data = true) (map kind entries).

(** What a stream leaves under [key] for the frames of one kind: the frames
    when there are any, and what was there before otherwise. *)
Definition stored (key : string) (frames : list Image) (before after : Workload)
  : Prop :=
  match frames with
  | [] => after !! key = before !! key
  | _ :: _ => after !! key = Some (VImages frames)
  end.

(** A stream of one entry with a colour frame of one pixel and its depth,
    and a second entry without data. *)
Definition a_pixel_stream : Stream :=
  mkStream "cam"
    [mkStreamEntry [Byte.x10; Byte.x20; Byte.x30]
       [Byte.x00; Byte.x00; Byte.x80; Byte.x3f] [] [];
     mkStreamEntry [] [] [] []].

Definition a_pixel_config : RemoteRendererConfig :=
  mkRemoteRendererConfig ["cam"] false true false false 1 1 false
    (Some "/opt/orrb/run.sh") None (Some "renderer_config.json")
    (Some "model.xml") (Some "model.mapping") "." 4 4 4.

(** The frames read so far fit, and their buffers are those carried by
    the entries read so far. *)
Record frames_read (w h : Z) (entries : list StreamEntry) (f : Frames)
  : Prop := mkFramesRead {
  fr_rgb : Forall (frame_fits w h) (stream_rgb_dataset f)
           /\ map img_buffer (stream_rgb_dataset f)
              = carried image_data entries;
  fr_depth : Forall (frame_fits w h) (stream_depth_dataset f)
             /\ map img_buffer (stream_depth_dataset f)
                = carried depth_data entries;
  fr_normals : Forall (frame_fits w h) (stream_normals_dataset f)
               /\ map img_buffer (stream_normals_dataset f)
                  = carried normals_data entries;
  fr_segmentation : Forall (frame_fits w h) (stream_segmentation_dataset f)
                    /\ map img_buffer (stream_segmentation_dataset f)
                       = carried segmentation_data entries
}.

(** *** The renderer binary and the server process *)

(** The name of the package directory of a renderer version on a host. *)
Definition package_of (hst : Host) (version : string) : string :=
  "StandaloneRenderer-" +:+ platform_system hst +:+ "-"
  +:+ platform_machine hst +:+ "-" +:+ version.

(** The version [get_renderer_executable] goes by. *)
Definition effective_version (hst : Host) (version : option string)
  : option string :=
  match getenv (environ hst) "ORRB_VERSION_OVERRIDE" with
  | Some version_override => Some version_override
  | None => version
  end.

(** A host where version 20190514 is installed under [/opt/orrb]. *)
Definition an_installed_host : Host :=
  mkHost {[ "ORRB_BINARIES_DIR" := "/opt/orrb" ]} "Linux" "x86_64" "node" 4242
    (fun path =>
       String.eqb path
         "/opt/orrb/StandaloneRenderer-Linux-x86_64-20190514/run.sh").

(** An effect of a connection attempt to [target]. *)
Definition dials (target : string) (e : effect) : bool :=
  match e with
  | ChannelReady t => String.eqb t target
  | LogWarning _ | Sleep _ => true
  | _ => false
  end.

(** A configuration that spawns servers, and a worker on device 1 with it. *)
Definition a_spawning_config : RemoteRendererConfig :=
  mkRemoteRendererConfig ["cam"] false false false false 100 100 true
    (Some "/opt/orrb/run.sh") None (Some "renderer_config.json")
    (Some "model.xml") (Some "model.mapping") "." 4 4 4.

Definition a_spawning_worker : Worker := new_worker 1 7001 a_spawning_config.

(** The four settings [_server_commandline] asserts. *)
Definition complete (cfg : RemoteRendererConfig) : bool :=
  truthy_path (renderer_local_binary cfg) && truthy_path (model_xml_path cfg)
  && truthy_path (model_mapping_path cfg)
  && truthy_path (renderer_config_path cfg).

(** A render server whose start fails. *)
Definition an_outside_without_binary : Outside :=
  mkOutside a_host int32_schema (fun _ => Raise OSError) (fun _ => true)
    (fun _ => Ok tt) (fun _ => Ok no_streams).

(** The outcomes of the server-starting half of [on_run]. *)
Inductive spawn_outcome (o : Outside) (self : Worker)
  : Worker -> list effect -> result unit -> Prop :=
| NotAsked :
    spawn_servers (base_config self) = false ->
    spawn_outcome o self self [] (Ok tt)
| Incomplete e :
    spawn_servers (base_config self) = true ->
    _server_commandline (host o) self = Raise e ->
    spawn_outcome o self self [] (Raise e)
| Detached command args environment :
    spawn_servers (base_config self) = true ->
    _server_commandline (host o) self = Ok (command, args, environment) ->
    truthy_str (getenv (environ (host o)) "ORRB_DETACHED") = true ->
    spawn_outcome o self self [Prompt (command :: args)] (Ok tt)
| Spawned command args environment p :
    spawn_servers (base_config self) = true ->
    _server_commandline (host o) self = Ok (command, args, environment) ->
    truthy_str (getenv (environ (host o)) "ORRB_DETACHED") = false ->
    popen o (command :: args) = Ok p ->
    spawn_outcome o self (with_server_process (Some p) self)
      [Spawn (command :: args) (dirname command)
         (environment ∪ environ (host o))]
      (Ok tt)
| SpawnFailed command args environment e :
    spawn_servers (base_config self) = true ->
    _server_commandline (host o) self = Ok (command, args, environment) ->
    truthy_str (getenv (environ (host o)) "ORRB_DETACHED") = false ->
    popen o (command :: args) = Raise e ->
    spawn_outcome o self self
      [Spawn (command :: args) (dirname command)
         (environment ∪ environ (host o))]
      (Raise e).

(** *** Constructing the renderer *)

(** A configuration without a local binary, for version 20190514. *)
Definition a_versioned_config : RemoteRendererConfig :=
  mkRemoteRendererConfig ["cam"] false false false false 100 100 true
    None (Some "20190514") (Some "renderer_config.json")
    (Some "model.xml") (Some "model.mapping") "." 4 4 4.

(** A configuration with its local binary set to [binary]. *)
Definition with_local_binary (binary : string) (c : RemoteRendererConfig)
  : RemoteRendererConfig :=
  mkRemoteRendererConfig (camera_names c) (render_alpha c) (render_depth c)
    (render_normals c) (render_segmentation c) (image_width c)
    (image_height c) (spawn_servers c) (Some binary) (renderer_version c)
    (renderer_config_path c) (model_xml_path c) (model_mapping_path c)
    (asset_basedir c) (workers_count c) (queues_count c) (streams_count c).

(** *** Starting the pool *)

(** A worker thread that was started and has not run yet. *)
Definition entering (wt : WorkerThread) : WorkerThread :=
  mkWorkerThread (self wt) Entering.

(** Two states that differ at most in the callers and the worker threads. *)
Definition same_data (s s' : Sys) : Prop :=
  renderer_config_stamp s' = renderer_config_stamp s
  /\ renderer_config s' = renderer_config s
  /\ input_queue s' = input_queue s
  /\ sinks s' = sinks s
  /\ next_task_id s' = next_task_id s
  /\ history s' = history s.

(** *** First in, first out *)

(** The task worker [i] holds, if there is such a worker and it holds one. *)
Definition held_by (i : nat) (s : Sys) : list QueueTask :=
  match workers s !! i with
  | Some wt => holding wt
  | None => []
  end.

(** First in, first out: the tasks were taken from the input queue in the
    order of their submission, and every worker finished the tasks it took
    in the order it took them. *)
Record first_in_first_out (s : Sys) : Prop := mkFifo {
  fifo_queue :
    submitted (history s) = dequeued (history s) ++ items (input_queue s);
  fifo_worker :
    forall i,
      dequeued_by i (history s) = served_by i (history s) ++ held_by i s
}.

(** Two submissions and a worker that serves them. *)
Definition two_tasks_schedule : list label :=
  invoke 0 ApiStart 3 ++ [Work 0 (an_outside 0)]
  ++ invoke 0 (ApiRenderBatchAsync a_seeded_workload 1%nat) 3
  ++ invoke 0 (ApiRenderBatchAsync an_empty_workload 1%nat) 3
  ++ replicate 6 (Work 0 (an_outside 0)).

(** Every event of a worker is by a worker of the pool. *)
Definition known_workers (s : Sys) : Prop :=
  Forall (fun e => forall i, by_worker i e = true ->
                             (i < length (workers s))%nat)
    (history s).

(** *** From caller to worker and back *)

(** A synchronous call served at once: the caller submits, worker [i] takes
    the task and serves it, and the caller takes the result. *)
Definition served_at_once (c i : nat) (o : Outside) (workload : Workload)
  : list label :=
  invoke c (ApiRenderBatch workload) 3
  ++ [Work i o; Work i o]
  ++ [Advance c; Advance c].

(** *** Workers that stopped *)

(** A worker thread that is not running: it was never started, or it
    returned or died. *)
Definition stopped (at_ : pc) : bool :=
  match at_ with
  | Unstarted | Returned | Died _ => true
  | _ => false
  end.

(** A caller that waits for a result on a queue that holds none. *)
Definition waits_in_vain (s : Sys) (p : prog) : Prop :=
  exists q k, p = SinkGet q k /\ items (sink s q) = [].

(** One caller starts the pool and calls [render_batch]; the worker connects
    and takes the task, and the render call fails. *)
Definition stuck_schedule : list label :=
  invoke 0 ApiStart 3 ++ [Work 0 (an_outside 0)]
  ++ invoke 0 (ApiRenderBatch a_seeded_workload) 3
  ++ [Work 0 (an_outside 0); Work 0 a_broken_outside].

(** The calls of [start] in a schedule. *)
Definition is_start (l : label) : bool :=
  match l with
  | Call _ ApiStart => true
  | _ => false
  end.

(** A schedule in which [start] is called at most once.  A second call
    would run a second thread for every worker, which the worker threads of
    [Sys] do not stand for; the statements about whole runs keep to
    schedules with one call. *)
Definition starts_once (ls : list label) : Prop :=
  (length (filter (fun l => is_start l = true) ls) <= 1)%nat.

Definition is_entered (e : event) : bool :=
  match e with
  | Entered _ _ _ => true
  | _ => false
  end.

(** The events of a worker that came through [on_run]: its entry first,
    and no second entry. *)
Definition entered_once (i : nat) (h : list event) : Prop :=
  exists effs u rest,
    events_by i h = Entered i effs (Ok u) :: rest
    /\ Forall (fun e => is_entered e = false) rest.

(** What the trace holds of worker [i], by where its thread stands. *)
Definition start_up_seen (i : nat) (s : Sys) : Prop :=
  match workers s !! i with
  | None => events_by i (history s) = []
  | Some wt =>
      match at_pc wt with
      | Unstarted | Entering => events_by i (history s) = []
      | Died e =>
          (exists effs, events_by i (history s) = [Entered i effs (Raise e)])
          \/ entered_once i (history s)
      | _ => entered_once i (history s)
      end
  end.

(** One caller starts the pool, and the worker cannot connect. *)
Definition no_server_schedule : list label :=
  invoke 0 ApiStart 3 ++ [Work 0 (an_outside 10)]
  ++ invoke 0 (ApiRenderBatchAsync a_seeded_workload 1%nat) 3.

(** *** Shutting the pool down *)

Definition is_call (l : label) : bool :=
  match l with
  | Call _ _ => true
  | _ => false
  end.

(** The workers below [k] have their shutdown flag set. *)
Definition flagged_below (k : nat) (s : Sys) : Prop :=
  forall i wt,
    (i < k)%nat -> workers s !! i = Some wt ->
    should_shutdown (self wt) = true.

(** The thread of worker [i] has returned or died. *)
Definition finished_thread (s : Sys) (i : nat) : Prop :=
  exists wt, workers s !! i = Some wt /\ finished (at_pc wt) = true.

(** Where a caller stands in [QueueExecutorABC.shutdown] for [n] workers and
    the threads [threads]: setting the flag of worker [k], joining the
    threads that are left, or failed. *)
Inductive shutting_down (n : nat) (threads : list nat) (s : Sys)
  : prog -> Prop :=
| Signalling (k : nat) :
    (k <= n)%nat ->
    flagged_below k s ->
    shutting_down n threads s
      (foldr SetShutdown
         (LoadThreads (fun worker_threads =>
            foldr Join (Return None) worker_threads))
         (seq k (n - k)))
| Joining (joined rest : list nat) :
    threads = joined ++ rest ->
    flagged_below n s ->
    Forall (finished_thread s) joined ->
    shutting_down n threads s (foldr Join (Return None) rest)
| Failed (e : exn) :
    shutting_down n threads s (Throw e).

(** The pool while its only caller runs [shutdown]. *)
Record in_shutdown (n : nat) (threads : list nat) (s : Sys) : Prop :=
  mkInShutdown {
  ish_workers : length (workers s) = n;
  ish_threads : worker_threads s = threads;
  ish_caller : exists p, callers s = [p] /\ shutting_down n threads s p
}.

(** The one caller shuts the pool down while the worker polls an empty
    queue. *)
Definition a_shutdown_schedule : list label :=
  [Call 0 ApiShutdown; Advance 0; Advance 0;
   Work 0 (an_outside 0); Work 0 (an_outside 0); Advance 0].

(** *** Workloads seeded in no way, or in two *)

(** A workload without any seed, one with both kinds, and one with fewer
    seeds than state vectors. *)
Definition an_unseeded_workload : Workload :=
  {[ "qpos" := VVectors [[1.5%float]] ]}.

Definition a_twice_seeded_workload : Workload :=
  {[ "qpos" := VVectors [[1.5%float]]; "seed" := VInt 3; "seeds" := VInts [9] ]}.

Definition a_short_seeded_workload : Workload :=
  {[ "qpos" := VVectors [[1.5%float]; [2.5%float]]; "seeds" := VInts [9] ]}.

(** *** Two callers waiting for results *)

(** The task [render_batch] submits for [workload] in state [s]. *)
Definition sync_task (s : Sys) (workload : Workload) : QueueTask :=
  mkQueueTask (next_task_id s)
    (mkWorkloadWithConfig (renderer_config_stamp s) (renderer_config s)
       workload)
    sync_queue.

(** The state after a caller submitted task [t] and went on with [k]. *)
Definition submitted_by (c : nat) (t : QueueTask) (k : prog) (s : Sys) : Sys :=
  record [Submitted t]
    (with_caller c k
       (with_next_task_id (S (next_task_id s))
          (with_input (put t (input_queue s)) s))).

(** The state after worker [i] took task [t] and served it with result
    [r], ending in state [w] after the effects [effs]. *)
Definition served_by_worker (i : nat) (t : QueueTask) (w : Worker)
    (effs : list effect) (r : Workload) (rest : list QueueTask)
    (s : Sys) : Sys :=
  record [Dequeued i t; Served i t effs (Ok r)]
    (with_worker i (mkWorkerThread w Checking)
       (with_input (mkQueue rest (Nat.pred (unfinished_tasks (input_queue s))))
          (with_sink (destination t) (put r (sink s (destination t))) s))).

(** Two callers in [render_batch] at a time: both submit, the worker serves
    both tasks, and the second caller is the first to take a result. *)
Definition overtaken (c0 c1 i : nat) (o : Outside) (wl0 wl1 : Workload)
  : list label :=
  invoke c0 (ApiRenderBatch wl0) 3
  ++ invoke c1 (ApiRenderBatch wl1) 3
  ++ [Work i o; Work i o; Work i o; Work i o; Work i o]
  ++ [Advance c1; Advance c1; Advance c0; Advance c0].

(** The state after caller [c] took the result [r] from the renderer's own
    queue, which still holds [rest], and returned it. *)
Definition taken_by (c : nat) (r : Workload) (rest : list Workload) (s : Sys)
  : Sys :=
  with_caller c (Return (Some r))
    (with_sink sync_queue
       (mkQueue rest (Nat.pred (unfinished_tasks (sink s sync_queue))))
       (record [CallerGot c sync_queue r] s)).

(** A second workload, told from [a_seeded_workload] by its seeds. *)
Definition another_seeded_workload : Workload :=
  {[ "qpos" := VVectors [[3.5%float; 0.75%float]];
     "seeds" := VInts [9] ]}.

End Props.

Import Py Renderer Pool Props.

(** Unfolding the plumbing of [Act]. *)
Ltac act_unfold :=
  cbv [mbind act_bind mret act_ret get_self emit emit_all modify_self lift
       raise the_stub].

(* ================================================================== *)
(** ** Worker start-up: [_RemoteRendererWorker.on_run] *)
(* ================================================================== *)

Lemma connect_attempts_all_fail (o : Outside) (n a : nat) (self : Worker) :
  (forall j, (a <= j < a + n)%nat -> channel_ready o j = false) ->
  connect_attempts o (seq a n) self
  = (self,
     flat_map (failed_attempt (channel_target (host o) (port self)) (port self))
       (seq a n),
     Ok false).
Proof.
  revert a. induction n as [|n IH]; intros a Hfail.
  - reflexivity.
  - cbn [seq connect_attempts flat_map]. act_unfold.
    rewrite (Hfail a) by lia. act_unfold.
    rewrite IH by (intros j Hj; apply Hfail; lia).
    reflexivity.
Qed.

Lemma connect_attempts_first_ready (o : Outside) (n a k : nat) (self : Worker) :
  (a <= k < a + n)%nat ->
  channel_ready o k = true ->
  (forall j, (a <= j < k)%nat -> channel_ready o j = false) ->
  connect_attempts o (seq a n) self
  = (with_client_stub (Some (channel_target (host o) (port self))) self,
     flat_map (failed_attempt (channel_target (host o) (port self)) (port self))
       (seq a (k - a))
     ++ [ChannelReady (channel_target (host o) (port self))],
     Ok true).
Proof.
  revert a. induction n as [|n IH]; intros a Hk Hready Hfail; [lia|].
  cbn [seq connect_attempts]. act_unfold.
  destruct (decide (k = a)) as [->|Hne].
  - rewrite Hready. act_unfold. rewrite Nat.sub_diag. reflexivity.
  - rewrite (Hfail a) by lia. act_unfold.
    rewrite (IH (S a)) by (try lia; try assumption; intros j Hj; apply Hfail; lia).
    replace (k - a)%nat with (S (k - S a)) by lia.
    reflexivity.
Qed.

(** C3. Once the server-starting half of [on_run] is through, the worker
    tries to connect at most ten times (attempts [0..9]).  If attempt [k] is
    the first that succeeds, the trace is the [k] failed attempts, each
    followed by its warning and a sleep of [1 + i] seconds, then the
    successful attempt, and [on_run] returns with [client_stub] set.  If all
    ten attempts fail, the trace is the ten failed attempts with sleeps of
    1 to 10 seconds and [on_run] raises [RendererError]. *)
Theorem on_run_retries_connection (o : Outside) (self s1 : Worker)
    (e1 : list effect) :
  spawn_server o self = (s1, e1, Ok tt) ->
  let target := channel_target (host o) (port s1) in
  (forall k, (k < 10)%nat ->
     channel_ready o k = true ->
     (forall j, (j < k)%nat -> channel_ready o j = false) ->
     on_run o self
     = (with_client_stub (Some target) s1,
        e1 ++ flat_map (failed_attempt target (port s1)) (seq 0 k)
           ++ [ChannelReady target],
        Ok tt))
  /\ ((forall j, (j < 10)%nat -> channel_ready o j = false) ->
      on_run o self
      = (s1,
         e1 ++ flat_map (failed_attempt target (port s1)) (seq 0 10),
         Raise (RendererError "Could not create remote render server."))).
Proof.
  intros Hspawn target. split.
  - intros k Hk Hready Hfail.
    unfold on_run. cbv [mbind act_bind]. rewrite Hspawn.
    rewrite (connect_attempts_first_ready o 10 0 k s1)
      by (try lia; try assumption; intros j Hj; apply Hfail; lia).
    rewrite Nat.sub_0_r. cbv [mret act_ret]. rewrite app_nil_r. reflexivity.
  - intros Hfail.
    unfold on_run. cbv [mbind act_bind]. rewrite Hspawn.
    rewrite (connect_attempts_all_fail o 10 0 s1)
      by (intros j Hj; apply Hfail; lia).
    cbv [raise lift]. rewrite app_nil_r. reflexivity.
Qed.

Lemma on_run_retries_connection_witness :
  spawn_server (an_outside 2) a_worker = (a_worker, [], Ok tt)
  /\ on_run (an_outside 2) a_worker
     = (with_client_stub (Some "node:7000") a_worker,
        [ChannelReady "node:7000"; LogWarning (retry_warning 7000); Sleep 1;
         ChannelReady "node:7000"; LogWarning (retry_warning 7000); Sleep 2;
         ChannelReady "node:7000"],
        Ok tt).
Proof.
  split; [reflexivity|].
  apply (proj1 (on_run_retries_connection (an_outside 2) a_worker a_worker []
                  eq_refl) 2%nat).
  - lia.
  - reflexivity.
  - intros j Hj.
    destruct j as [|[|j]]; [reflexivity|reflexivity|lia].
Defined.

(* ================================================================== *)
(** ** Framing a batch: [_build_render_batch_request] *)
(* ================================================================== *)

Lemma state_vectors_len (v : pyval) (rows : list (list pyfloat)) :
  state_vectors v = Ok rows -> py_len v = Ok (length rows).
Proof.
  destruct v as [z|l|l|l|r c d]; cbn.
  - discriminate.
  - destruct l; [intros [= <-]; reflexivity | discriminate].
  - intros [= <-]; reflexivity.
  - destruct l; [intros [= <-]; reflexivity | discriminate].
  - destruct d as [d|d|d], r as [|r]; cbn; try discriminate;
      intros [= <-]; cbn; rewrite ?length_map, ?length_seq; reflexivity.
Qed.

Lemma build_entries_batch_seed (pb : Schema) (seeds : option pyval)
    (rows : list (list pyfloat)) (i : nat) :
  build_entries pb false seeds i rows
  = Ok (map (fun q => mkEntry q None) rows).
Proof.
  revert i. induction rows as [|q rows IH]; intros i; cbn; [reflexivity|].
  rewrite IH. reflexivity.
Qed.

Lemma build_entries_entry_seeds (pb : Schema) (all : list Z)
    (rows : list (list pyfloat)) (ss : list Z) (i : nat) :
  drop i all = ss ->
  length ss = length rows ->
  Forall (fun z => fits_entry_seed pb z = true) ss ->
  build_entries pb true (Some (VInts all)) i rows
  = Ok (zip_with (fun q z => mkEntry q (Some z)) rows ss).
Proof.
  revert ss i. induction rows as [|q rows IH]; intros ss i Hdrop Hlen Hfits.
  - destruct ss; [reflexivity | discriminate].
  - destruct ss as [|z ss]; [discriminate|].
    cbn [build_entries seed_at].
    assert (all !! i = Some z) as ->.
    { rewrite <- (Nat.add_0_r i), <- lookup_drop, Hdrop. reflexivity. }
    inversion Hfits as [|? ? Hz Hrest]; subst.
    cbn. unfold set_int. rewrite Hz. cbn.
    rewrite (IH ss (S i)); [reflexivity| |by inversion Hlen|assumption].
    replace (S i) with (i + 1)%nat by lia.
    rewrite <- drop_drop, Hdrop. reflexivity.
Qed.

(** C8. A workload with state vectors [rows] and exactly one kind of seed
    yields a request with one entry per state vector, in order; entry seeds
    are in use exactly when they were supplied, and then entry [i] carries
    seed [i]; a batch seed is stored reduced modulo [2^31]; and the batch
    size returned is the number of state vectors. *)
Theorem build_render_batch_request_frames_workload (pb : Schema)
    (workload : Workload) (config : RemoteRendererConfig) (qv : pyval)
    (rows : list (list pyfloat)) (sd : seeding) :
  fits_width pb (image_width config) = true ->
  fits_height pb (image_height config) = true ->
  workload !! "qpos" = Some qv ->
  state_vectors qv = Ok rows ->
  supplies pb workload (length rows) sd ->
  exists request,
    _build_render_batch_request pb workload config
    = Ok (request, length rows)
    /\ map qpos (entries request) = rows
    /\ length (entries request) = length rows
    /\ use_entry_seeds request = per_entry sd
    /\ match sd with
       | BatchSeed s =>
           batch_seed request = Some (s mod 2 ^ 31)
           /\ Forall (fun e => seed e = None) (entries request)
       | EntrySeeds ss =>
           map seed (entries request) = map Some ss
       end.
Proof.
  intros Hw Hh Hq Hrows Hsd.
  unfold _build_render_batch_request, set_int.
  rewrite Hw, Hh, Hq. cbn.
  destruct sd as [s|ss]; cbn in Hsd.
  - destruct Hsd as [Hseed Hseeds]. rewrite Hseed, Hseeds. cbn.
    assert (fits_int32 (s mod 2 ^ 31) = true) as ->.
    { unfold fits_int32. pose proof (Z.mod_pos_bound s (2 ^ 31)). lia. }
    cbn. rewrite Hrows. cbn.
    rewrite build_entries_batch_seed. cbn.
    rewrite (state_vectors_len _ _ Hrows). cbn.
    eexists. split; [reflexivity|]. cbn.
    rewrite map_map, length_map. cbn. rewrite map_id.
    repeat split; try reflexivity.
    apply Forall_map. cbn. apply Forall_true. done.
  - destruct Hsd as (Hseed & Hseeds & Hlen & Hfits). rewrite Hseed, Hseeds. cbn.
    rewrite Hrows. cbn.
    rewrite (build_entries_entry_seeds pb ss rows ss 0) by done. cbn.
    rewrite (state_vectors_len _ _ Hrows). cbn.
    eexists. split; [reflexivity|]. cbn.
    assert (forall (r : list (list pyfloat)) (l : list Z),
              length l = length r ->
              map qpos (zip_with (fun q z => mkEntry q (Some z)) r l) = r
              /\ map seed (zip_with (fun q z => mkEntry q (Some z)) r l)
                 = map Some l) as Hzip.
    { induction r as [|q r IH]; intros [|z l] Hl; try discriminate;
        [done|]. cbn. destruct (IH l) as [-> ->]; [by inversion Hl|done]. }
    destruct (Hzip rows ss Hlen) as [H1 H2].
    repeat split; try assumption.
    rewrite length_zip_with, Hlen. lia.
Qed.

Lemma build_render_batch_request_frames_workload_witness :
  exists request,
    _build_render_batch_request int32_schema a_seeded_workload a_config
    = Ok (request, 2%nat)
    /\ use_entry_seeds request = true
    /\ map seed (entries request) = [Some 7; Some 8].
Proof.
  destruct (build_render_batch_request_frames_workload int32_schema
              a_seeded_workload a_config
              (VVectors [[1.5%float; 0.5%float]; [2.5%float; 0.25%float]])
              [[1.5%float; 0.5%float]; [2.5%float; 0.25%float]]
              (EntrySeeds [7; 8]))
    as (request & Hreq & _ & _ & Huse & Hseeds).
  - reflexivity.
  - reflexivity.
  - reflexivity.
  - reflexivity.
  - cbn. repeat split; try reflexivity. repeat constructor.
  - exists request. repeat split; assumption.
Defined.

(* ================================================================== *)
(** ** Decoding a response: [_convert_render_batch_response] *)
(* ================================================================== *)




Lemma lookup_map {A B} (f : A -> B) (l : list A) (i : nat) :
  map f l !! i = option_map f (l !! i).
Proof.
  revert i. induction l as [|x l IH]; intros [|i]; cbn; try reflexivity.
  apply IH.
Qed.






(* ================================================================== *)
(** ** Constructing the workers: [RemoteRenderer.create_workers] *)
(* ================================================================== *)

(** C7 (the code departs from it).  With [ORRB_MINIMAL] set to ["0"] the
    non-empty list of server configurations passes the assertion and is then
    cut to nothing: no worker is created.  A negative value cuts from the
    end, with the same outcome for a single pair. *)
Theorem create_workers_minimal_zero_gives_no_worker :
  create_workers {[ "ORRB_MINIMAL" := "0" ]} [(0, 7000)] a_config = Ok []
  /\ create_workers {[ "ORRB_MINIMAL" := "-1" ]} [(0, 7000)] a_config = Ok [].
Proof. split; reflexivity. Qed.

(** Without the override, or with a positive size, there is one worker per
    retained pair and at least one worker. *)
Lemma create_workers_unset (server_configs : list (Z * Z))
    (base_config : RemoteRendererConfig) (environ : gmap string string) :
  server_configs <> [] ->
  getenv environ "ORRB_MINIMAL" = None ->
  create_workers environ server_configs base_config
  = Ok (map (fun '(device, port) => new_worker device port base_config)
          server_configs).
Proof.
  intros Hne Henv. unfold create_workers. rewrite Henv.
  destruct server_configs; [congruence|]. reflexivity.
Qed.

(* ================================================================== *)
(** ** The pool: every task is accounted for *)
(* ================================================================== *)

(** An invariant of every step holds after every schedule. *)
Lemma exec_invariant (P : Sys -> Prop) :
  (forall l s s', P s -> step l s = Some s' -> P s') ->
  forall ls s s', P s -> exec ls s = Some s' -> P s'.
Proof.
  intros Hstep ls. induction ls as [|l ls IH]; intros s s' HP Hexec; cbn in *.
  - injection Hexec as <-. exact HP.
  - destruct (step l s) as [s1|] eqn:Hs; [|discriminate].
    eapply IH; [|exact Hexec]. eapply Hstep; eassumption.
Qed.

Lemma exec_app (ls1 ls2 : list label) (s : Sys) :
  exec (ls1 ++ ls2) s
  = match exec ls1 s with Some s1 => exec ls2 s1 | None => None end.
Proof.
  revert s. induction ls1 as [|l ls1 IH]; intros s; cbn; [reflexivity|].
  destruct (step l s); [apply IH|reflexivity].
Qed.

(** Replacing worker [i] changes the held tasks only at [i]. *)
Lemma held_insert (ws : list WorkerThread) (i : nat) (wt wt' : WorkerThread) :
  ws !! i = Some wt ->
  exists A B,
    held ws = A ++ holding wt ++ B
    /\ held (<[i := wt']> ws) = A ++ holding wt' ++ B.
Proof.
  intros Hi.
  exists (held (take i ws)), (held (drop (S i) ws)).
  pose proof (lookup_lt_Some _ _ _ Hi) as Hlt.
  split.
  - rewrite <- (take_drop_middle ws i wt Hi) at 1.
    unfold held. rewrite flat_map_app. reflexivity.
  - rewrite insert_take_drop by assumption.
    unfold held. rewrite flat_map_app. reflexivity.
Qed.

Lemma held_insert_same (ws : list WorkerThread) (i : nat)
    (wt wt' : WorkerThread) :
  ws !! i = Some wt -> holding wt' = holding wt ->
  held (<[i := wt']> ws) = held ws.
Proof.
  intros Hi Hh. destruct (held_insert ws i wt wt' Hi) as (A & B & -> & ->).
  rewrite Hh. reflexivity.
Qed.

Lemma sink_with_sink (s : Sys) (d q : qid) (x : Queue Workload) :
  sink (with_sink d x s) q = if decide (q = d) then x else sink s q.
Proof.
  unfold sink, with_sink; cbn.
  destruct (decide (q = d)) as [->|Hne].
  - rewrite lookup_insert_eq. reflexivity.
  - rewrite lookup_insert_ne by congruence. reflexivity.
Qed.

Lemma submitted_app (h1 h2 : list event) :
  submitted (h1 ++ h2) = submitted h1 ++ submitted h2.
Proof. apply omap_app. Qed.

Lemma dequeued_app (h1 h2 : list event) :
  dequeued (h1 ++ h2) = dequeued h1 ++ dequeued h2.
Proof. apply omap_app. Qed.

Lemma outcomes_app (h1 h2 : list event) :
  outcomes (h1 ++ h2) = outcomes h1 ++ outcomes h2.
Proof. apply omap_app. Qed.

Lemma served_app (h1 h2 : list event) :
  served (h1 ++ h2) = served h1 ++ served h2.
Proof. unfold served. rewrite outcomes_app. apply map_app. Qed.

Lemma delivered_to_app (q : qid) (h1 h2 : list event) :
  delivered_to q (h1 ++ h2) = delivered_to q h1 ++ delivered_to q h2.
Proof. apply omap_app. Qed.

Lemma received_from_app (q : qid) (h1 h2 : list event) :
  received_from q (h1 ++ h2) = received_from q h1 ++ received_from q h2.
Proof. apply omap_app. Qed.

Ltac step_cases H :=
  unfold step, advance, work in H;
  repeat (case_match; simplify_eq);
  try discriminate.

Ltac trace_simpl :=
  cbn [history record with_caller with_worker with_input with_sink with_stamp
       with_config with_threads with_next_task_id input_queue workers sinks
       next_task_id callers worker_threads renderer_config_stamp
       renderer_config];
  rewrite ?submitted_app, ?dequeued_app, ?served_app, ?delivered_to_app,
    ?received_from_app;
  simpl; rewrite ?app_nil_r.

Lemma get_items {A} (q q' : Queue A) (x : A) :
  get q = Some (x, q') ->
  items q = x :: items q' /\ unfinished_tasks q' = unfinished_tasks q.
Proof.
  unfold get. destruct (items q) as [|y rest] eqn:Hq; [discriminate|].
  intros [= -> <-]. split; reflexivity.
Qed.

Lemma task_done_items {A} (q q' : Queue A) :
  task_done q = Ok q' -> items q' = items q.
Proof.
  unfold task_done. destruct (unfinished_tasks q); [discriminate|].
  intros [= <-]. reflexivity.
Qed.

(** The held tasks after worker [i] moved, in terms of those before. *)
Ltac held_moved Hh :=
  match goal with
  | Hw : workers ?s !! ?i = Some ?wt
    |- context [held (<[?i := ?wt']> (workers ?s))] =>
      let A := fresh "A" in
      let B := fresh "B" in
      let HA := fresh "HA" in
      let HB := fresh "HB" in
      destruct (held_insert (workers s) i wt wt' Hw) as (A & B & HA & HB);
      rewrite HB; rewrite HA in Hh; unfold holding in *; cbn [at_pc] in *
  end.

Lemma step_accounted (l : label) (s s' : Sys) :
  accounted s -> step l s = Some s' -> accounted s'.
Proof.
  intros [Hids Hq Hh Hs] Hstep.
  step_cases Hstep.
  all: split; [| | |intros q'; unfold sink in *; specialize (Hs q')];
    trace_simpl; try assumption.
  all: repeat match goal with
         | H : get _ = Some _ |- _ => apply get_items in H; destruct H as [H ?]
         | H : task_done _ = Ok _ |- _ => apply task_done_items in H; cbn in H
         end.
  all: try (held_moved Hh;
            repeat match goal with
              | H : at_pc ?w = _ |- _ => rewrite H in *
              end;
            rewrite Hh; solve_Permutation).
  all: try (rewrite map_app, Hids; symmetry; apply seq_S).
  all: try (repeat match goal with
              | H : items _ = _ |- _ => rewrite H in *
              end;
            rewrite Hq; solve_Permutation).
  all: match goal with
       | |- context [decide (?a = ?b)] =>
           destruct (decide (a = b)) as [->|Hne];
           rewrite ?lookup_insert_eq, ?lookup_insert_ne by congruence
       | |- context [<[?a := _]> _ !! ?b] =>
           destruct (decide (a = b)) as [->|Hne];
           rewrite ?lookup_insert_eq, ?lookup_insert_ne by congruence
       end.
  all: cbn [default put items app id]; rewrite ?app_nil_r; try assumption.
  all: repeat match goal with
         | H : items _ = _ |- _ => rewrite H in *
         end.
  all: rewrite Hs, <- ?app_assoc; reflexivity.
Qed.

Lemma held_unstarted (ws : list Worker) :
  held (map (fun w => mkWorkerThread w Unstarted) ws) = [].
Proof. induction ws as [|w ws IH]; [reflexivity|exact IH]. Qed.

Lemma new_renderer_fresh (hst : Host) (loaded : RendererConfig)
    (server_configs : list (Z * Z)) (base_config : RemoteRendererConfig)
    (n_callers : nat) (s0 : Sys) :
  new_renderer hst loaded server_configs base_config n_callers = Ok s0 ->
  exists ws,
    s0 = mkSys 0 loaded new_queue ∅
           (map (fun w => mkWorkerThread w Unstarted) ws) []
           (replicate n_callers (Return None)) 0%nat [].
Proof.
  unfold new_renderer. intros H.
  destruct (match renderer_local_binary base_config with
            | Some b => Ok (Some b)
            | None => _
            end) as [binary|e]; [|discriminate].
  cbn in H. destruct (create_workers _ _ _) as [ws|e]; [|discriminate].
  cbn in H. injection H as <-. exists ws. reflexivity.
Qed.

Lemma new_renderer_accounted (hst : Host) (loaded : RendererConfig)
    (server_configs : list (Z * Z)) (base_config : RemoteRendererConfig)
    (n_callers : nat) (s0 : Sys) :
  new_renderer hst loaded server_configs base_config n_callers = Ok s0 ->
  accounted s0.
Proof.
  intros H. destruct (new_renderer_fresh _ _ _ _ _ _ H) as (ws & ->).
  split; cbn.
  - reflexivity.
  - reflexivity.
  - rewrite held_unstarted. reflexivity.
  - intros q. unfold sink. cbn. rewrite lookup_empty. reflexivity.
Qed.

Lemma reachable_accounted (hst : Host) (loaded : RendererConfig)
    (server_configs : list (Z * Z)) (base_config : RemoteRendererConfig)
    (n_callers : nat) (s0 s : Sys) (ls : list label) :
  new_renderer hst loaded server_configs base_config n_callers = Ok s0 ->
  exec ls s0 = Some s ->
  accounted s.
Proof.
  intros Hnew Hexec.
  eapply (exec_invariant accounted); [|eapply new_renderer_accounted|];
    eauto using step_accounted.
Qed.

Lemma no_failure_all_delivered (h : list event) :
  failed h = [] -> delivered h = served h.
Proof.
  unfold failed, delivered, served.
  induction (outcomes h) as [|[t [r|e]] l IH]; cbn; intros Hf.
  - reflexivity.
  - rewrite IH by assumption. reflexivity.
  - discriminate.
Qed.

(** Once every worker thread has returned or died, it stays so, and no task
    is served any more. *)
Lemma step_all_finished (l : label) (s s' : Sys) :
  all_finished s -> step l s = Some s' ->
  all_finished s' /\ outcomes (history s') = outcomes (history s).
Proof.
  unfold all_finished. intros Hfin Hstep.
  step_cases Hstep.
  all: repeat match goal with
         | Hw : workers _ !! _ = Some _ |- _ =>
             pose proof (Forall_lookup_1 _ _ _ _ Hfin Hw) as Hf;
             cbn in Hf; clear Hw
         | H : at_pc _ = _ |- _ => rewrite H in *
         end; try discriminate.
  all: trace_simpl; rewrite ?outcomes_app; cbn; rewrite ?app_nil_r.
  all: split; try reflexivity; try assumption.
  all: apply Forall_insert; assumption.
Qed.

Lemma exec_all_finished (ls : list label) (s s' : Sys) :
  all_finished s -> exec ls s = Some s' ->
  all_finished s' /\ outcomes (history s') = outcomes (history s).
Proof.
  revert s. induction ls as [|l ls IH]; intros s Hfin Hexec; cbn in Hexec.
  - injection Hexec as <-. split; [assumption|reflexivity].
  - destruct (step l s) as [s1|] eqn:Hs; [|discriminate].
    destruct (step_all_finished l s s1 Hfin Hs) as [Hfin1 Hout1].
    destruct (IH s1 Hfin1 Hexec) as [Hfin' Hout'].
    split; [assumption|congruence].
Qed.

Lemma no_delivery_to (q : qid) (h : list event) :
  delivered h = [] -> delivered_to q h = [].
Proof.
  unfold delivered.
  induction h as [|ev h IH]; [reflexivity|].
  destruct ev as [| | | | |i t effs [r|e]|]; cbn; try exact IH.
  discriminate.
Qed.

(** C1 (amended).  In every state a renderer can reach, whatever the
    schedule of callers and workers: tasks have distinct identities; every
    submitted task is in exactly one place, the input queue, the hands of one
    worker, or served; no task is dequeued twice and none is served twice;
    the results delivered to a queue are exactly those still on it and those
    a caller took from it; and once nothing is queued or held and no
    processing has raised, the delivered tasks are the submitted ones. *)
Theorem tasks_are_served_at_most_once (hst : Host) (loaded : RendererConfig)
    (server_configs : list (Z * Z)) (base_config : RemoteRendererConfig)
    (n_callers : nat) (s0 s : Sys) (ls : list label) :
  new_renderer hst loaded server_configs base_config n_callers = Ok s0 ->
  exec ls s0 = Some s ->
  let h := history s in
  NoDup (map task_id (submitted h))
  /\ submitted h ≡ₚ items (input_queue s) ++ held (workers s) ++ served h
  /\ NoDup (map task_id (dequeued h))
  /\ NoDup (map task_id (served h))
  /\ (forall q,
        delivered_to q h = received_from q h ++ items (sink s q))
  /\ (items (input_queue s) = [] -> held (workers s) = [] ->
      failed h = [] -> delivered h ≡ₚ submitted h).
Proof.
  intros Hnew Hexec h.
  destruct (reachable_accounted _ _ _ _ _ _ _ _ Hnew Hexec)
    as [Hids Hq Hh Hs]. fold h in Hids, Hq, Hh, Hs.
  assert (Hnd : NoDup (map task_id (submitted h))).
  { rewrite Hids. apply NoDup_ListNoDup, List.seq_NoDup. }
  assert (Hall : submitted h
                 ≡ₚ items (input_queue s) ++ held (workers s) ++ served h).
  { rewrite Hq, Hh. reflexivity. }
  assert (Hndd : NoDup (map task_id (dequeued h))).
  { assert (Hp : map task_id (submitted h)
                 ≡ₚ map task_id (items (input_queue s))
                    ++ map task_id (dequeued h)).
    { rewrite <- map_app. apply Permutation_map. exact Hq. }
    rewrite Hp in Hnd. apply NoDup_app in Hnd. tauto. }
  assert (Hnds : NoDup (map task_id (served h))).
  { assert (Hp : map task_id (dequeued h)
                 ≡ₚ map task_id (held (workers s)) ++ map task_id (served h)).
    { rewrite <- map_app. apply Permutation_map. exact Hh. }
    rewrite Hp in Hndd. apply NoDup_app in Hndd. tauto. }
  repeat split; try assumption.
  intros Hempty Hheld Hfailed.
  rewrite (no_failure_all_delivered h Hfailed), Hall, Hempty, Hheld.
  reflexivity.
Qed.

Lemma tasks_are_served_at_most_once_witness :
  exists s0 s,
    a_pool 1 = Ok s0 /\ exec lost_task_schedule s0 = Some s
    /\ NoDup (map task_id (served (history s))).
Proof.
  destruct (a_pool 1) as [s0|e] eqn:Hs0; [|discriminate].
  destruct (exec lost_task_schedule s0) as [s|] eqn:Hs;
    [|vm_compute in Hs0; injection Hs0 as <-; vm_compute in Hs; discriminate].
  exists s0, s. split; [reflexivity|]. split; [exact Hs|].
  exact (proj1 (proj2 (proj2 (proj2
           (tasks_are_served_at_most_once a_host a_renderer_config [(0, 7000)]
              a_config 1 s0 s lost_task_schedule Hs0 Hs))))).
Defined.

(** C1 as stated fails when processing raises.  A caller starts a pool of
    one worker and submits a well-formed workload for queue 1; the worker
    takes the task and the render call fails.  The exception leaves
    [QueueWorkerABC.run]: the task is neither queued nor held, queue 1 is
    empty, and nothing is ever delivered, whatever happens next. *)
Lemma a_failed_task_is_lost :
  exists s t e,
    lost_task_run = Some s
    /\ submitted (history s) = [t]
    /\ dequeued (history s) = [t]
    /\ outcomes (history s) = [(t, Raise e)]
    /\ destination t = 1%nat
    /\ items (input_queue s) = []
    /\ held (workers s) = []
    /\ (forall ls s', exec ls s = Some s' ->
          delivered (history s') = []
          /\ delivered_to 1%nat (history s') = []
          /\ items (sink s' 1%nat) = []).
Proof.
  destruct lost_task_run as [s|] eqn:Hrun; [|vm_compute in Hrun; discriminate].
  vm_compute in Hrun. injection Hrun as <-.
  eexists _, _, _. split; [reflexivity|].
  repeat (split; [vm_compute; reflexivity|]).
  intros ls s' Hexec.
  match type of Hexec with exec ls ?s = _ => set (s1 := s) in * end.
  assert (Hfin : all_finished s1).
  { repeat constructor. }
  destruct (exec_all_finished ls s1 s' Hfin Hexec) as [_ Hout].
  assert (Hd : delivered (history s') = []).
  { unfold delivered. rewrite Hout. vm_compute. reflexivity. }
  pose proof (no_delivery_to 1%nat _ Hd) as Hto.
  split; [exact Hd|]. split; [exact Hto|].
  assert (Hacc : accounted s').
  { destruct (a_pool 1) as [s0|] eqn:Hs0; [|vm_compute in Hs0; discriminate].
    eapply (reachable_accounted _ _ _ _ _ s0 s' (lost_task_schedule ++ ls));
      [exact Hs0|].
    rewrite exec_app.
    vm_compute in Hs0. injection Hs0 as <-.
    replace (exec lost_task_schedule _) with (Some s1)
      by (vm_compute; reflexivity).
    exact Hexec. }
  pose proof (acc_sinks _ Hacc 1%nat) as Hs. rewrite Hto in Hs.
  symmetry in Hs. apply app_eq_nil in Hs. tauto.
Qed.

(* ================================================================== *)
(** ** Shutting down: [run] after [shutdown], and [on_shutdown] *)
(* ================================================================== *)

Lemma on_shutdown_effects (w : Worker) :
  on_shutdown w = (w, shutdown_effects w, Ok tt).
Proof.
  unfold on_shutdown, shutdown_effects. act_unfold.
  destruct (server_process w); reflexivity.
Qed.

Lemma log_warnings_quiet (l : list string) :
  Forall (fun e => is_control e = false) (map LogWarning l).
Proof. induction l; constructor; [reflexivity|assumption]. Qed.

Ltac quiet_effects :=
  repeat first
    [ assumption
    | apply List.Forall_nil
    | apply List.Forall_cons; [reflexivity|]
    | apply log_warnings_quiet ].

(** [process] leaves the shutdown flag and the process handle alone and does
    nothing to any process. *)
Lemma process_quiet (o : Outside) (wwc : WorkloadWithConfig)
    (w w' : Worker) (effs : list effect) (r : result Workload) :
  process o wwc w = (w', effs, r) ->
  should_shutdown w' = should_shutdown w
  /\ server_process w' = server_process w
  /\ Forall (fun e => is_control e = false) effs.
Proof.
  unfold process. act_unfold. intros H.
  repeat (case_match; simplify_eq); cbn.
  all: repeat split; rewrite ?app_nil_r; quiet_effects.
Qed.

Lemma connect_attempts_quiet (o : Outside) (attempts : list nat)
    (w w' : Worker) (effs : list effect) (r : result bool) :
  connect_attempts o attempts w = (w', effs, r) ->
  should_shutdown w' = should_shutdown w
  /\ server_process w' = server_process w
  /\ Forall (fun e => is_control e = false) effs.
Proof.
  revert w w' effs r.
  induction attempts as [|i rest IH]; intros w w' effs r; cbn.
  - act_unfold. intros [= <- <- <-]. repeat split. quiet_effects.
  - act_unfold. destruct (channel_ready o i).
    + intros [= <- <- <-]. repeat split. quiet_effects.
    + destruct (connect_attempts o rest w) as [[w1 e1] r1] eqn:Hrest.
      cbn. intros [= <- <- <-].
      destruct (IH _ _ _ _ Hrest) as (H1 & H2 & H3).
      repeat split; try assumption. quiet_effects.
Qed.

(** [on_run] leaves the shutdown flag alone and does nothing to any process
    but spawn one; the process handle changes only when it spawned. *)
Lemma on_run_quiet (o : Outside) (w w' : Worker) (effs : list effect)
    (r : result unit) :
  on_run o w = (w', effs, r) ->
  should_shutdown w' = should_shutdown w
  /\ Forall (fun e => is_control e = false) effs
  /\ (server_process w' = server_process w
      \/ Exists (fun e => is_spawn e = true) effs).
Proof.
  unfold on_run. cbv [mbind act_bind].
  destruct (spawn_server o w) as [[w1 e1] r1] eqn:Hspawn.
  assert (Hs : should_shutdown w1 = should_shutdown w
               /\ Forall (fun e => is_control e = false) e1
               /\ (server_process w1 = server_process w
                   \/ Exists (fun e => is_spawn e = true) e1)).
  { revert Hspawn. unfold spawn_server. act_unfold. intros H.
    repeat (case_match; simplify_eq); cbn.
    all: split; [reflexivity|]; split; [rewrite ?app_nil_r; quiet_effects|].
    all: first [left; reflexivity | right; apply Exists_cons_hd; reflexivity]. }
  destruct Hs as (Hs1 & Hs2 & Hs3).
  destruct r1 as [[]|e].
  - destruct (connect_attempts o (seq 0 10) w1) as [[w2 e2] r2] eqn:Hconn.
    destruct (connect_attempts_quiet _ _ _ _ _ _ Hconn) as (Hc1 & Hc2 & Hc3).
    destruct r2 as [[|]|e]; cbv [mret act_ret raise lift];
      intros [= <- <- <-]; rewrite ?app_nil_r.
    all: split; [congruence|]; split; [apply Forall_app; tauto|].
    all: destruct Hs3 as [Hs3|Hs3];
      [left; congruence|right; apply Exists_app; tauto].
  - intros [= <- <- <-]. tauto.
Qed.

Lemma events_by_app (i : nat) (h1 h2 : list event) :
  events_by i (h1 ++ h2) = events_by i h1 ++ events_by i h2.
Proof. apply filter_app. Qed.

Lemma served_by_app (i : nat) (h1 h2 : list event) :
  served_by i (h1 ++ h2) = served_by i h1 ++ served_by i h2.
Proof. unfold served_by. rewrite events_by_app. apply served_app. Qed.

Lemma dequeued_by_app (i : nat) (h1 h2 : list event) :
  dequeued_by i (h1 ++ h2) = dequeued_by i h1 ++ dequeued_by i h2.
Proof. unfold dequeued_by. rewrite events_by_app. apply dequeued_app. Qed.

Lemma events_by_one (i : nat) (ev : event) :
  events_by i [ev] = if by_worker i ev then [ev] else [].
Proof.
  unfold events_by. rewrite filter_cons, filter_nil.
  destruct (by_worker i ev); reflexivity.
Qed.

(** What the three hooks do to [self], from the equations of a step. *)
Ltac hooks_quiet :=
  repeat match goal with
    | H : on_run _ _ = (_, _, _) |- _ =>
        apply on_run_quiet in H; destruct H as (? & ? & ?)
    | H : process _ _ _ = (_, _, _) |- _ =>
        apply process_quiet in H; destruct H as (? & ? & ?)
    | H : on_shutdown _ = (_, _, _) |- _ =>
        rewrite on_shutdown_effects in H; simplify_eq
    end.











(* ================================================================== *)
(** ** The dispatcher: [update], [render_batch_async], [render_batch] *)
(* ================================================================== *)

Lemma published_app (h1 h2 : list event) :
  published (h1 ++ h2) = published h1 ++ published h2.
Proof. apply omap_app. Qed.

(** Running a schedule whose next label is a caller's. *)
Lemma exec_call (s : Sys) (c : nat) (p : prog) (a : api) (ls : list label) :
  callers s !! c = Some p -> idle p = true ->
  exec (Call c a :: ls) s
  = exec ls (with_caller c (body (length (workers s)) a) s).
Proof. intros H Hidle. cbn. rewrite H, Hidle. reflexivity. Qed.

Lemma exec_advance (s : Sys) (c : nat) (p : prog) (ls : list label) :
  callers s !! c = Some p ->
  exec (Advance c :: ls) s
  = match advance c p s with Some s1 => exec ls s1 | None => None end.
Proof. intros H. cbn. rewrite H. reflexivity. Qed.

Lemma step_advance (s : Sys) (c : nat) (p : prog) :
  callers s !! c = Some p -> step (Advance c) s = advance c p s.
Proof. intros H. unfold step. rewrite H. reflexivity. Qed.

(** The method caller [c] stands in, after it moved. *)
Ltac caller_at Hlt :=
  cbn [callers record with_caller with_stamp with_config with_input with_sink
       with_next_task_id with_threads with_worker];
  rewrite list_lookup_insert_eq by (rewrite ?length_insert; exact Hlt);
  reflexivity.





(** The next operation of a caller, run. *)
Ltac caller_runs Hlt :=
  erewrite exec_advance by caller_at Hlt;
  cbn [advance body update render_batch_async render_batch execute receive
       await_result].

(** C10. [render_batch] is [render_batch_async] with the renderer's own
    queue as destination, followed by one receive from that queue: it is the
    program of the specification once the [task_done] bookkeeping is left
    out.  Run by an idle caller, its first three operations do what those of
    [render_batch_async] do, submitting the same task for [sync_queue]; then
    the caller is blocked while that queue is empty, and otherwise takes its
    first result, acknowledges it, and returns that same result. *)
Theorem render_batch_is_async_then_one_receive (s : Sys) (c : nat) (p : prog)
    (workload : Workload) :
  callers s !! c = Some p ->
  idle p = true ->
  without_task_done (render_batch workload) = submit_sync workload
  /\ render_batch workload
     = render_batch_async workload sync_queue await_result
  /\ (exists s1 s2 t,
        t = mkQueueTask (next_task_id s)
              (mkWorkloadWithConfig (renderer_config_stamp s)
                 (renderer_config s) workload) sync_queue
        /\ exec (invoke c (ApiRenderBatchAsync workload sync_queue) 3) s
           = Some s1
        /\ exec (invoke c (ApiRenderBatch workload) 3) s = Some s2
        /\ history s1 = history s ++ [Submitted t]
        /\ history s2 = history s1
        /\ input_queue s1 = put t (input_queue s)
        /\ input_queue s2 = input_queue s1
        /\ sinks s2 = sinks s1
        /\ workers s2 = workers s1
        /\ callers s1 = <[c := Return None]> (callers s)
        /\ callers s2 = <[c := await_result]> (callers s))
  /\ (forall s3,
        callers s3 !! c = Some await_result ->
        (items (sink s3 sync_queue) = [] -> step (Advance c) s3 = None)
        /\ (forall r rest,
              items (sink s3 sync_queue) = r :: rest ->
              (0 < unfinished_tasks (sink s3 sync_queue))%nat ->
              exists s4,
                exec [Advance c; Advance c] s3 = Some s4
                /\ callers s4 = <[c := Return (Some r)]> (callers s3)
                /\ items (sink s4 sync_queue) = rest
                /\ history s4 = history s3 ++ [CallerGot c sync_queue r])).
Proof.
  intros Hc Hidle.
  pose proof (lookup_lt_Some _ _ _ Hc) as Hlt.
  split; [reflexivity|]. split; [reflexivity|]. split.
  - eexists _, _, _. split; [reflexivity|]. split; [|split].
    + unfold invoke. cbn [replicate].
      rewrite (exec_call s c p _ _ Hc Hidle).
      cbn [body render_batch_async execute].
      caller_runs Hlt.
      caller_runs Hlt.
      caller_runs Hlt.
      reflexivity.
    + unfold invoke. cbn [replicate].
      rewrite (exec_call s c p _ _ Hc Hidle).
      cbn [body render_batch render_batch_async execute].
      caller_runs Hlt.
      caller_runs Hlt.
      caller_runs Hlt.
      reflexivity.
    + cbn. rewrite !list_insert_insert_eq. repeat split; reflexivity.
  - intros s3 Hat.
    pose proof (lookup_lt_Some _ _ _ Hat) as Hlt3.
    split.
    + intros Hempty. rewrite (step_advance _ _ _ Hat).
      unfold await_result. cbn [advance]. unfold get. rewrite Hempty.
      reflexivity.
    + intros r rest Hitems Hunfinished.
      eexists. split.
      * erewrite exec_advance by exact Hat.
        unfold await_result. cbn [advance]. unfold get. rewrite Hitems.
        caller_runs Hlt3.
        match goal with
        | |- context [task_done ?q] =>
            replace q
              with (mkQueue rest (unfinished_tasks (sink s3 sync_queue)))
              by (symmetry; unfold sink at 1; cbn [sinks record with_caller
                    with_sink]; rewrite lookup_insert_eq; reflexivity)
        end.
        unfold task_done. cbn [unfinished_tasks].
        replace (unfinished_tasks (sink s3 sync_queue))
          with (S (Nat.pred (unfinished_tasks (sink s3 sync_queue))))
          by lia.
        reflexivity.
      * cbn. rewrite !list_insert_insert_eq.
        split; [reflexivity|]. split; [|reflexivity].
        unfold sink. cbn. rewrite lookup_insert_eq. reflexivity.
Qed.

Lemma render_batch_is_async_then_one_receive_witness :
  exists s0 s2,
    a_pool 1 = Ok s0
    /\ callers s0 !! 0%nat = Some (Return None)
    /\ exec (invoke 0 (ApiRenderBatch a_seeded_workload) 3) s0 = Some s2
    /\ submitted (history s2)
       = [mkQueueTask 0
            (mkWorkloadWithConfig 0 a_renderer_config a_seeded_workload)
            sync_queue]
    /\ callers s2 = [await_result].
Proof.
  destruct (a_pool 1) as [s0|e] eqn:Hs0; [|vm_compute in Hs0; discriminate].
  vm_compute in Hs0. injection Hs0 as <-.
  match goal with
  | |- exists s0 s2, Ok ?s = Ok s0 /\ _ =>
      destruct (proj1 (proj2 (proj2
                  (render_batch_is_async_then_one_receive s 0%nat
                     (Return None) a_seeded_workload eq_refl eq_refl))))
        as (s1 & s2 & t & Ht & _ & Hexec & Hh1 & Hh2 & _ & _ & _ & _ & _ & Hc2);
      exists s, s2
  end.
  split; [reflexivity|]. split; [reflexivity|]. split; [exact Hexec|].
  split.
  - rewrite Hh2, Hh1, Ht. reflexivity.
  - rewrite Hc2. reflexivity.
Defined.

(* ================================================================== *)
(** ** Versions: [update], [render_batch_async] and [process] *)
(* ================================================================== *)

Lemma safe_mono (P Q : Z -> RendererConfig -> Prop) (p : prog) :
  forall st cf,
    (forall v x, P v x -> Q v x) -> safe P st cf p -> safe Q st cf p.
Proof.
  revert P Q. induction p; intros P Q st cf HPQ; cbn; try solve [auto].
  all: try solve [intros; eauto].
  all: try solve [intros (? & ?); eauto].
  all: try solve [intros (? & ? & ?); eauto].
  - apply IHp. intros v x [Hv|Hv]; auto.
Qed.

Lemma safe_body (P : Z -> RendererConfig -> Prop) (st : Z)
    (cf : RendererConfig) (n : nat) (a : api) :
  P st cf -> safe P st cf (body n a).
Proof.
  intros HP. destruct a.
  - cbn. intros l. induction l; cbn; auto.
  - unfold body, shutdown. induction (seq 0 n); cbn; auto.
    intros l. induction l; cbn; auto.
  - cbn. split; [lia|]. right. split; reflexivity.
  - cbn. auto.
  - cbn. auto.
  - cbn. auto.
  - cbn. auto.
Qed.

Lemma pairs_app(loaded : RendererConfig) (h1 h2 : list event) :
  pairs loaded (h1 ++ h2) = pairs loaded h1 ++ published h2.
Proof. unfold pairs. rewrite published_app. reflexivity. Qed.

(** The only caller is caller 0. *)
Ltac only_caller Hc :=
  repeat match goal with
    | H : callers _ !! ?c = Some _ |- _ =>
        rewrite Hc in H; destruct c as [|?]; [|discriminate];
        cbn in H; simplify_eq
    end.

Ltac state_simpl :=
  cbn [history record with_caller with_worker with_input with_sink with_stamp
       with_config with_threads with_next_task_id input_queue workers sinks
       next_task_id callers worker_threads renderer_config_stamp
       renderer_config].

(** Every step keeps the renderer coherent: the caller's method stays safe
    and every submission carries a pair there is to see. *)
Lemma step_coherent (loaded : RendererConfig) (l : label) (s s' : Sys) :
  coherent loaded s -> step l s = Some s' -> coherent loaded s'.
Proof.
  intros [(p & Hc & Hsafe) Hcons] Hstep.
  step_cases Hstep.
  all: only_caller Hc.
  all: try match goal with
         | H : idle ?p = true |- _ => destruct p; try discriminate
         end.
  all: cbn [safe] in Hsafe.
  all: split;
    [eexists; split; [state_simpl; try rewrite Hc; reflexivity|]
    |unfold consistent in *].
  all: state_simpl; rewrite ?submitted_app; cbn [submitted omap list_omap];
    rewrite ?app_nil_r.
  (* the caller's method stays safe *)
  all: try match goal with
         | |- safe _ _ _ (body _ _) =>
             apply safe_body; rewrite ?pairs_app; try apply in_or_app; auto
         | |- safe _ _ _ (Throw _) => cbn [safe]; apply (proj1 Hsafe)
         | |- safe _ _ _ _ =>
             eapply safe_mono;
             [|first [exact Hsafe | apply Hsafe | apply (proj2 Hsafe)
                     | apply (proj2 (proj2 Hsafe))
                     | cbn [safe]; apply (proj1 Hsafe)]];
             cbn beta; intros v x HP; rewrite ?pairs_app;
             cbn [published omap list_omap]; rewrite ?app_nil_r;
             first [assumption
                   | apply in_or_app; destruct HP as [HP|[-> ->]];
                     [left; assumption|right; left; reflexivity]
                   | apply in_or_app; left; assumption]
         end.
  (* the submissions stay consistent *)
  all: intros task Htask; rewrite ?pairs_app; cbn [published omap list_omap];
    rewrite ?app_nil_r; try (apply in_or_app; left); auto.
  apply in_app_or in Htask. destruct Htask as [Htask|[<-|[]]]; auto.
  apply (proj1 Hsafe).
Qed.

Lemma log_warnings_no_update(l : list string) :
  existsb is_update (map LogWarning l) = false.
Proof. induction l; [reflexivity|assumption]. Qed.

(** [process] leaves the worker at the version of the workload, and issues
    the update RPC only for a version that differs from the one applied. *)
Lemma process_stamp (o : Outside) (wwc : WorkloadWithConfig)
    (w w' : Worker) (effs : list effect) (r : result Workload) :
  process o wwc w = (w', effs, r) ->
  wk_renderer_config_stamp w' = wl_renderer_config_stamp wwc
  /\ (existsb is_update effs = true ->
      wl_renderer_config_stamp wwc <> wk_renderer_config_stamp w).
Proof.
  unfold process. act_unfold. intros H.
  repeat (case_match; simplify_eq); cbn.
  all: repeat match goal with
         | H : bool_decide _ = true |- _ => apply bool_decide_eq_true_1 in H
         | H : bool_decide _ = false |- _ =>
             apply bool_decide_eq_false_1 in H; apply dec_stable in H
         end.
  all: split; [congruence|]; rewrite ?app_nil_r; try (intros _; assumption).
  all: rewrite ?existsb_app, ?log_warnings_no_update; cbn; discriminate.
Qed.

Lemma connect_attempts_stamp (o : Outside) (attempts : list nat)
    (w w' : Worker) (effs : list effect) (r : result bool) :
  connect_attempts o attempts w = (w', effs, r) ->
  wk_renderer_config_stamp w' = wk_renderer_config_stamp w.
Proof.
  revert w w' effs r.
  induction attempts as [|i rest IH]; intros w w' effs r; cbn.
  - act_unfold. intros [= <- <- <-]. reflexivity.
  - act_unfold. destruct (channel_ready o i).
    + intros [= <- <- <-]. reflexivity.
    + destruct (connect_attempts o rest w) as [[w1 e1] r1] eqn:Hrest.
      cbn. intros [= <- <- <-]. eapply IH. eassumption.
Qed.

Lemma on_run_stamp (o : Outside) (w w' : Worker) (effs : list effect)
    (r : result unit) :
  on_run o w = (w', effs, r) ->
  wk_renderer_config_stamp w' = wk_renderer_config_stamp w.
Proof.
  unfold on_run. cbv [mbind act_bind].
  destruct (spawn_server o w) as [[w1 e1] r1] eqn:Hspawn.
  assert (Hs : wk_renderer_config_stamp w1 = wk_renderer_config_stamp w).
  { revert Hspawn. unfold spawn_server. act_unfold. intros H.
    repeat (case_match; simplify_eq); reflexivity. }
  destruct r1 as [[]|e].
  - destruct (connect_attempts o (seq 0 10) w1) as [[w2 e2] r2] eqn:Hconn.
    apply connect_attempts_stamp in Hconn.
    destruct r2 as [[|]|e]; cbv [mret act_ret raise lift];
      intros [= <- <- <-]; congruence.
  - intros [= <- <- <-]. assumption.
Qed.

Lemma sorted_snoc (R : Z -> Z -> Prop) (l : list Z) (x : Z) :
  StronglySorted R l -> Forall (fun v => R v x) l ->
  StronglySorted R (l ++ [x]).
Proof.
  induction 1 as [|y l Hl IH Hy]; intros Hx; cbn.
  - repeat constructor.
  - inversion Hx; subst. constructor; [auto|].
    apply Forall_app. split; [assumption|]. repeat constructor. assumption.
Qed.

Lemma Forall_le_trans (l : list Z) (a b : Z) :
  Forall (fun v => v <= a) l -> a <= b -> Forall (fun v => v <= b) l.
Proof. intros H Hab. eapply Forall_impl; [exact H|]. cbn. intros. lia. Qed.

Lemma served_stamps_app (i : nat) (h1 h2 : list event) :
  served_stamps i (h1 ++ h2) = served_stamps i h1 ++ served_stamps i h2.
Proof. unfold served_stamps. rewrite served_by_app. apply map_app. Qed.

Lemma update_versions_app (i : nat) (h1 h2 : list event) :
  update_versions i (h1 ++ h2) = update_versions i h1 ++ update_versions i h2.
Proof. apply omap_app. Qed.

Lemma served_stamps_one (i : nat) (ev : event) :
  served_stamps i [ev]
  = match ev with
    | Served j t _ _ => if bool_decide (j = i) then [stamp_of t] else []
    | _ => []
    end.
Proof.
  unfold served_stamps, served_by. rewrite events_by_one.
  destruct ev; cbn; try reflexivity; try (case_bool_decide; reflexivity).
Qed.

(** Taking apart what is known about the versions in the queue. *)
Ltac order_facts :=
  repeat match goal with
    | H : _ /\ _ |- _ => destruct H
    | H : items _ = _ :: _ |- _ => rewrite H in *; clear H
    | H : items _ = items _ |- _ => rewrite H in *; clear H
    | H : StronglySorted _ (map _ (_ :: _)) |- _ =>
        cbn [map] in H; apply StronglySorted_inv in H
    | H : Forall _ (map _ _) |- _ => rewrite List.Forall_map in H
    | H : Forall _ (_ :: _) |- _ => apply List.Forall_cons_iff in H
    end.

(** One conjunct of [ordered] after a step. *)
Ltac order_goal :=
  repeat match goal with
    | |- _ /\ _ => split
    | |- _ <= _ => lia
    | |- Forall _ [] => apply List.Forall_nil
    | |- Forall _ (_ ++ _) => apply Forall_app; split
    | |- Forall _ (_ :: _) => apply List.Forall_cons
    | |- Forall _ (map _ _) => apply List.Forall_map
    | H : Forall _ ?l |- Forall _ ?l =>
        solve [eapply Forall_impl; [exact H|cbn; intros; lia]]
    | |- StronglySorted _ (map _ (_ ++ _)) => rewrite map_app; cbn [map]
    | |- StronglySorted _ (0 :: ?l ++ [?x]) =>
        apply (sorted_snoc _ (0 :: l) x)
    | |- StronglySorted _ (_ ++ [_]) => apply sorted_snoc
    | |- StronglySorted _ (_ ++ []) => rewrite app_nil_r
    | |- StronglySorted _ _ => assumption
    end.

(** Every step keeps the versions in order. *)
Lemma step_ordered (loaded : RendererConfig) (l : label) (s s' : Sys) :
  coherent loaded s -> ordered s -> step l s = Some s' -> ordered s'.
Proof.
  intros [(p & Hc & Hsafe) _] [Hq Hb Hw] Hstep.
  step_cases Hstep.
  all: only_caller Hc.
  all: cbn [safe] in Hsafe.
  all: repeat match goal with
         | H : get _ = Some _ |- _ => apply get_items in H; destruct H as [H ?]
         | H : task_done _ = Ok _ |- _ => apply task_done_items in H; cbn in H
         end.
  all: split; state_simpl;
    [try assumption|try assumption
    |intros j wtj Hj;
     cbn [workers record with_caller with_worker with_input with_sink
          with_stamp with_config with_threads with_next_task_id] in Hj].
  (* what the hooks do to the version *)
  all: repeat match goal with
         | H : on_run _ _ = (_, _, _) |- _ => apply on_run_stamp in H
         | H : process _ _ _ = (_, _, _) |- _ =>
             apply process_stamp in H; destruct H as [? ?]
         | H : on_shutdown _ = (_, _, _) |- _ =>
             rewrite on_shutdown_effects in H; simplify_eq
         end.
  (* the worker that moved, or another one *)
  all: try match type of Hj with
         | <[?i := _]> _ !! _ = _ =>
             destruct (decide (i = j)) as [->|Hne];
             [rewrite list_lookup_insert_eq in Hj
                by (eapply lookup_lt_Some; eassumption)
             |rewrite list_lookup_insert_ne in Hj by assumption]
         end; simplify_eq.
  all: repeat match goal with
         | H : workers _ !! _ = Some _ |- _ =>
             let W := fresh "W" in
             pose proof (Hw _ _ H) as W; unfold applied, reach in W;
             cbn [self at_pc] in W; revert H
         end; intros.
  all: repeat match goal with
         | H : at_pc ?w = _ |- _ => rewrite H in *
         end.
  all: try rewrite !served_stamps_app, !update_versions_app,
         !served_stamps_one.
  all: cbn [update_versions omap list_omap app]; rewrite ?app_nil_r.
  all: rewrite ?bool_decide_eq_true_2 by reflexivity;
    rewrite ?bool_decide_eq_false_2 by assumption;
    cbn [andb app]; rewrite ?app_nil_r.
  all: unfold applied, reach; cbn [self at_pc Renderer.shutdown
         with_should_shutdown wk_renderer_config_stamp].
  all: try assumption.
  all: order_facts.
  all: try match goal with
         | |- context [at_pc ?wt] => destruct (at_pc wt)
         end.
  all: try match goal with
         | |- context [existsb is_update ?l] =>
             destruct (existsb is_update l) eqn:?
         end.
  all: repeat match goal with
         | H : ?b = true -> _, E : ?b = true |- _ => specialize (H E)
         end.
  all: unfold applied, stamp_of in *;
    cbn [self at_pc put items workload] in *.
  all: order_goal.
  all: cbn [workload]; lia.
Qed.

(** A renderer with one calling thread starts coherent and in order. *)
Lemma new_renderer_coherent(hst : Host) (loaded : RendererConfig)
    (server_configs : list (Z * Z)) (base_config : RemoteRendererConfig)
    (s0 : Sys) :
  new_renderer hst loaded server_configs base_config 1 = Ok s0 ->
  coherent loaded s0 /\ ordered s0.
Proof.
  intros H. destruct (new_renderer_fresh _ _ _ _ _ _ H) as (ws & ->).
  split; split; cbn.
  - eexists. split; [reflexivity|]. cbn. left. reflexivity.
  - intros t [].
  - constructor.
  - constructor.
  - intros i wt Hi. rewrite lookup_map in Hi.
    destruct (ws !! i) as [w|] eqn:Hw; [|discriminate].
    injection Hi as <-.
    assert (Hin : In w ws).
    { apply list_elem_of_In. eapply list_elem_of_lookup_2. eassumption. }
    assert (Hz : wk_renderer_config_stamp w = 0).
    { clear -H Hin. unfold new_renderer in H.
      destruct (match renderer_local_binary base_config with
                | Some b => Ok (Some b)
                | None => _
                end) as [binary|e]; [|discriminate].
      cbn in H. destruct (create_workers _ _ _) as [ws'|e] eqn:Hcw;
        [|discriminate].
      cbn in H. injection H as Hws.
      assert (ws' = ws) as ->.
      { clear -Hws. revert ws Hws.
        induction ws' as [|a l IH]; intros [|b m] Hm; try discriminate;
          [reflexivity|].
        cbn in Hm. injection Hm as -> Hm. f_equal. auto. }
      unfold create_workers in Hcw.
      destruct (py_assert _); [|discriminate]. cbn in Hcw.
      destruct (if truthy_str _ then _ else _) as [cfgs|e]; [|discriminate].
      cbn in Hcw. injection Hcw as <-.
      apply in_map_iff in Hin. destruct Hin as ([dv pt] & <- & _).
      reflexivity. }
    unfold applied, reach. cbn. rewrite Hz.
    repeat split; try lia; repeat constructor; unfold applied; cbn; lia.
Qed.

Lemma reachable_ordered (hst : Host) (loaded : RendererConfig)
    (server_configs : list (Z * Z)) (base_config : RemoteRendererConfig)
    (s0 s : Sys) (ls : list label) :
  new_renderer hst loaded server_configs base_config 1 = Ok s0 ->
  exec ls s0 = Some s ->
  coherent loaded s /\ ordered s.
Proof.
  intros Hnew Hexec.
  eapply (exec_invariant (fun s => coherent loaded s /\ ordered s));
    [|eapply new_renderer_coherent; eassumption|eassumption].
  intros l s1 s2 [Hcoh Hord] Hstep. split.
  - eapply step_coherent; eassumption.
  - eapply step_ordered; eassumption.
Qed.



Lemma step_workers_length(l : label) (s s' : Sys) :
  step l s = Some s' -> length (workers s') = length (workers s).
Proof.
  intros Hstep. step_cases Hstep.
  all: cbn [workers record with_caller with_worker with_input with_sink
            with_stamp with_config with_threads with_next_task_id].
  all: rewrite ?length_insert; reflexivity.
Qed.

Lemma exec_workers_length (ls : list label) (s s' : Sys) :
  exec ls s = Some s' -> length (workers s') = length (workers s).
Proof.
  revert s. induction ls as [|l ls IH]; intros s H; cbn in H.
  - congruence.
  - destruct (step l s) as [s1|] eqn:Hs; [|discriminate].
    rewrite (IH _ H). eapply step_workers_length. eassumption.
Qed.



(** C5. With one calling thread, every task ever submitted carries a version
    together with the configuration published under that version (version 0
    standing for the configuration loaded at construction), in every
    interleaving of that caller with the workers. *)
Theorem one_caller_pairs_version_with_its_value (hst : Host)
    (loaded : RendererConfig) (server_configs : list (Z * Z))
    (base_config : RemoteRendererConfig) (s0 s : Sys) (ls : list label) :
  new_renderer hst loaded server_configs base_config 1 = Ok s0 ->
  exec ls s0 = Some s ->
  forall t, In t (submitted (history s)) ->
    In (stamp_of t, config_of t) ((0, loaded) :: published (history s)).
Proof.
  intros Hnew Hexec.
  destruct (reachable_ordered _ _ _ _ _ _ _ Hnew Hexec) as [[_ Hcons] _].
  exact Hcons.
Qed.

Lemma one_caller_pairs_version_with_its_value_witness :
  exists s0 s t,
    a_pool 1 = Ok s0
    /\ exec (invoke 0 (ApiUpdate another_renderer_config) 3
             ++ invoke 0 (ApiRenderBatchAsync a_seeded_workload 1%nat) 3) s0
       = Some s
    /\ In t (submitted (history s))
    /\ In (stamp_of t, config_of t)
         ((0, a_renderer_config) :: published (history s)).
Proof.
  destruct (a_pool 1) as [s0|e] eqn:Hs0; [|discriminate].
  destruct (exec (invoke 0 (ApiUpdate another_renderer_config) 3
                  ++ invoke 0 (ApiRenderBatchAsync a_seeded_workload 1%nat) 3)
              s0) as [s|] eqn:Hs;
    [|vm_compute in Hs0; injection Hs0 as <-; vm_compute in Hs; discriminate].
  destruct (submitted (history s)) as [|t l] eqn:Ht;
    [vm_compute in Hs0; injection Hs0 as <-; vm_compute in Hs;
     injection Hs as <-; vm_compute in Ht; discriminate|].
  exists s0, s, t. split; [reflexivity|]. split; [exact Hs|].
  assert (Hin : In t (submitted (history s))) by (rewrite Ht; left; reflexivity).
  split; [exact Hin|].
  exact (one_caller_pairs_version_with_its_value a_host a_renderer_config
           [(0, 7000)] a_config s0 s _ Hs0 Hs t Hin).
Defined.

(** C5, as stated, fails with two calling threads: a submission that reads
    the pair between the two writes of [update] carries version 1 with the
    configuration of version 0. *)
Lemma a_submission_reads_a_torn_pair :
  exists s t,
    torn_run = Some s
    /\ submitted (history s) = [t]
    /\ published (history s) = [(1, another_renderer_config)]
    /\ stamp_of t = 1
    /\ config_of t = a_renderer_config
    /\ ~ In (stamp_of t, config_of t)
           ((0, a_renderer_config) :: published (history s)).
Proof.
  destruct torn_run as [s|] eqn:Hs; [|vm_compute in Hs; discriminate].
  vm_compute in Hs. injection Hs as <-.
  eexists _, _. split; [reflexivity|]. cbn.
  repeat split. intros [H|[H|[]]]; discriminate.
Qed.









Import Utils.

(* ================================================================== *)
(** ** More of the code: [utils.build_server_configs] *)
(* ================================================================== *)

Lemma gpu_loop (num_gpus : Z) (cfgs : list (Z * Z)) (p : Z) :
  0 <= num_gpus ->
  foldl (fun '(server_configs, base_port) gpu =>
           (server_configs ++ [(gpu, base_port)], base_port + 1))
    (cfgs, p) (py_range num_gpus)
  = (cfgs ++ map (fun g => (g, p + g)) (seqZ 0 num_gpus), p + num_gpus).
Proof.
  intros Hg. unfold py_range.
  rewrite <- (Z2Nat.id num_gpus) by assumption.
  generalize (Z.to_nat num_gpus) as n. clear. intros n.
  induction n as [|n IH].
  - cbn. rewrite app_nil_r, Z.add_0_r. reflexivity.
  - rewrite !seqZ_S. rewrite foldl_app, IH. cbn.
    rewrite map_app, app_assoc. cbn. rewrite Z.add_0_l. f_equal. lia.
Qed.

Lemma worker_loop (num_gpus num_workers : Z) (base_port : Z) :
  0 <= num_gpus -> 0 <= num_workers ->
  foldl (fun st (worker : Z) =>
           foldl (fun '(server_configs, base_port) gpu =>
                    (server_configs ++ [(gpu, base_port)], base_port + 1))
             st (py_range num_gpus))
    ([], base_port) (py_range num_workers)
  = (all_server_configs num_gpus num_workers base_port,
     base_port + num_gpus * num_workers).
Proof.
  intros Hg Hw. unfold py_range at 2, all_server_configs.
  rewrite <- (Z2Nat.id num_workers) by assumption.
  generalize (Z.to_nat num_workers) as n. clear Hw. intros n.
  induction n as [|n IH].
  - cbn. rewrite Z.mul_0_r, Z.add_0_r. reflexivity.
  - rewrite seqZ_S. rewrite foldl_app, IH. cbn.
    rewrite gpu_loop by assumption. f_equal; [|lia].
    replace (num_gpus * Z.of_nat (S n))
      with (num_gpus * Z.of_nat n + num_gpus) by lia.
    rewrite seqZ_app by lia. rewrite map_app. f_equal.
    rewrite Z.add_0_l.
    apply list_eq. intros i. rewrite !list_lookup_fmap.
    destruct (decide (Z.of_nat i < num_gpus)) as [Hi|Hi].
    + rewrite !lookup_seqZ_lt by assumption. cbn. f_equal. f_equal; [|lia].
      rewrite (Z.add_comm (num_gpus * _)), (Z.mul_comm num_gpus).
      rewrite Z.mod_add, Z.mod_small by lia. lia.
    + rewrite !lookup_seqZ_ge by lia. reflexivity.
Qed.

Lemma py_slice_block {A} (l : list A) (r c : Z) :
  0 <= r -> 0 <= c -> (r + 1) * c <= Z.of_nat (length l) ->
  py_slice l (r * c) ((r + 1) * c)
  = take (Z.to_nat c) (drop (Z.to_nat (r * c)) l).
Proof.
  intros Hr Hc Hlen. unfold py_slice, clip_index.
  assert (0 <= r * c) by nia.
  destruct (r * c <? 0) eqn:E1; [lia|].
  destruct ((r + 1) * c <? 0) eqn:E2; [nia|].
  repeat f_equal; nia.
Qed.

Lemma no_gpus_no_configs (num_gpus num_workers base_port : Z) :
  num_gpus <= 0 \/ num_workers <= 0 ->
  foldl (fun st (worker : Z) =>
           foldl (fun '(server_configs, base_port) gpu =>
                    (server_configs ++ [(gpu, base_port)], base_port + 1))
             st (py_range num_gpus))
    ([], base_port) (py_range num_workers)
  = ([], base_port).
Proof.
  intros [Hg|Hw]; unfold py_range.
  - rewrite (seqZ_nil 0 num_gpus) by assumption.
    induction (seqZ 0 num_workers) as [|w l IH]; [reflexivity|exact IH].
  - rewrite (seqZ_nil 0 num_workers) by assumption. reflexivity.
Qed.

(** X1. For [mpi_size] ranks that divide the [num_gpus * num_workers] pairs
    evenly, rank [mpi_rank] gets the block of [chunk] consecutive pairs that
    starts at pair [mpi_rank * chunk]: pair [k] is GPU [k mod num_gpus] on
    port [base_port + k]. *)
Theorem build_server_configs_block
    (num_gpus num_workers base_port mpi_rank mpi_size : Z) :
  0 <= num_gpus -> 0 <= num_workers ->
  0 <= mpi_rank < mpi_size ->
  (num_gpus * num_workers) mod mpi_size = 0 ->
  let chunk := num_gpus * num_workers / mpi_size in
  build_server_configs num_gpus num_workers base_port mpi_rank mpi_size
  = Ok (map (fun k => (k mod num_gpus, base_port + k))
          (seqZ (mpi_rank * chunk) chunk)).
Proof.
  intros Hg Hw Hr Hdiv chunk. unfold build_server_configs.
  rewrite worker_loop by assumption.
  assert (Hlen : Z.of_nat (length (all_server_configs num_gpus num_workers
                                     base_port))
                 = num_gpus * num_workers).
  { unfold all_server_configs. rewrite length_map, length_seqZ. nia. }
  rewrite Hlen.
  destruct (mpi_size =? 0) eqn:E; [lia|]. cbn.
  rewrite Hdiv. cbn. fold chunk.
  assert (Hsplit : num_gpus * num_workers = mpi_size * chunk).
  { unfold chunk. apply Z.div_exact in Hdiv; lia. }
  assert (0 <= chunk) by (unfold chunk; apply Z.div_pos; nia).
  f_equal. rewrite py_slice_block by nia.
  unfold all_server_configs.
  rewrite <- !fmap_drop, <- !fmap_take. f_equal.
  apply list_eq. intros i.
  destruct (decide (i < Z.to_nat chunk)%nat) as [Hi|Hi].
  - rewrite lookup_take_lt, lookup_drop by assumption.
    rewrite !lookup_seqZ_lt by nia. f_equal. lia.
  - rewrite lookup_take_ge, lookup_seqZ_ge by lia. reflexivity.
Qed.

Lemma build_server_configs_block_witness :
  build_server_configs 2 2 7000 1 2 = Ok [(0, 7002); (1, 7003)].
Proof.
  apply (build_server_configs_block 2 2 7000 1 2); try lia. reflexivity.
Defined.

Lemma concat_blocks {A} (f : Z -> A) (c : Z) (n : nat) :
  0 <= c ->
  concat (map (fun r => map f (seqZ (r * c) c)) (seqZ 0 (Z.of_nat n)))
  = map f (seqZ 0 (Z.of_nat n * c)).
Proof.
  intros Hc. induction n as [|n IH]; [reflexivity|].
  rewrite seqZ_S, map_app, concat_app, IH. cbn. rewrite app_nil_r.
  replace (Z.of_nat (S n) * c) with (Z.of_nat n * c + c) by lia.
  rewrite seqZ_app by nia. rewrite map_app. reflexivity.
Qed.

(** X2. The blocks of ranks [0 .. mpi_size - 1], one after the other, are
    the pairs of a single rank that takes everything: no pair is given to
    two ranks or to none, and no port is used twice. *)
Theorem build_server_configs_partition
    (num_gpus num_workers base_port mpi_size : Z) :
  0 <= num_gpus -> 0 <= num_workers -> 0 < mpi_size ->
  (num_gpus * num_workers) mod mpi_size = 0 ->
  exists everything blocks,
    build_server_configs num_gpus num_workers base_port 0 1 = Ok everything
    /\ Forall2 (fun rank block =>
                  build_server_configs num_gpus num_workers base_port
                    rank mpi_size = Ok block)
         (py_range mpi_size) blocks
    /\ concat blocks = everything
    /\ map snd everything = seqZ base_port (num_gpus * num_workers)
    /\ NoDup (map snd everything).
Proof.
  intros Hg Hw Hs Hdiv.
  set (chunk := num_gpus * num_workers / mpi_size).
  assert (Hsplit : num_gpus * num_workers = mpi_size * chunk).
  { unfold chunk. apply Z.div_exact in Hdiv; lia. }
  assert (0 <= chunk) by (unfold chunk; apply Z.div_pos; nia).
  set (f := fun k => (k mod num_gpus, base_port + k)).
  exists (map f (seqZ 0 (num_gpus * num_workers))),
    (map (fun r => map f (seqZ (r * chunk) chunk)) (seqZ 0 mpi_size)).
  assert (Hports : map snd (map f (seqZ 0 (num_gpus * num_workers)))
                   = seqZ base_port (num_gpus * num_workers)).
  { rewrite map_map. cbn.
    transitivity (Z.add base_port <$> seqZ 0 (num_gpus * num_workers));
      [reflexivity|].
    rewrite fmap_add_seqZ, Z.add_0_r. reflexivity. }
  split; [|split; [|split; [|split]]].
  - rewrite (build_server_configs_block num_gpus num_workers base_port 0 1)
      by (try assumption; try lia; apply Z.mod_1_r).
    rewrite Z.div_1_r. reflexivity.
  - apply Forall2_fmap_r, Forall_Forall2_diag, Forall_seqZ.
    intros r Hr.
    apply (build_server_configs_block num_gpus num_workers base_port r
             mpi_size); try assumption; lia.
  - rewrite <- (Z2Nat.id mpi_size) at 1 by lia.
    rewrite concat_blocks by assumption. rewrite Z2Nat.id by lia.
    rewrite Hsplit. reflexivity.
  - exact Hports.
  - rewrite Hports. apply NoDup_seqZ.
Qed.

Lemma build_server_configs_partition_witness :
  exists blocks,
    Forall2 (fun rank block => build_server_configs 2 3 7000 rank 3 = Ok block)
      [0; 1; 2] blocks
    /\ concat blocks
       = [(0, 7000); (1, 7001); (0, 7002); (1, 7003); (0, 7004); (1, 7005)].
Proof.
  destruct (build_server_configs_partition 2 3 7000 3)
    as (everything & blocks & Hall & Hblocks & Hcat & _); try lia.
  - reflexivity.
  - exists blocks. split; [exact Hblocks|].
    rewrite Hcat. vm_compute in Hall. injection Hall as <-. reflexivity.
Defined.

(** X3. What [build_server_configs] does with arguments that do not fit:
    no rank at all is a division by zero, pairs that the ranks do not divide
    evenly fail the assertion, and without GPUs or workers the list is
    empty, which [create_workers] then refuses. *)
Theorem build_server_configs_misfit
    (num_gpus num_workers base_port mpi_rank mpi_size : Z) :
  build_server_configs num_gpus num_workers base_port mpi_rank 0
  = Raise ZeroDivisionError
  /\ (0 <= num_gpus -> 0 <= num_workers -> mpi_size <> 0 ->
      (num_gpus * num_workers) mod mpi_size <> 0 ->
      build_server_configs num_gpus num_workers base_port mpi_rank mpi_size
      = Raise AssertionError)
  /\ (num_gpus <= 0 \/ num_workers <= 0 -> mpi_size <> 0 ->
      build_server_configs num_gpus num_workers base_port mpi_rank mpi_size
      = Ok []
      /\ forall environ base_config,
           create_workers environ [] base_config = Raise AssertionError).
Proof.
  split; [|split].
  - unfold build_server_configs.
    destruct (foldl _ _ _) as [cfgs p]. reflexivity.
  - intros Hg Hw Hs Hdiv. unfold build_server_configs.
    rewrite worker_loop by assumption.
    unfold all_server_configs. rewrite length_map, length_seqZ.
    rewrite Z2Nat.id by nia.
    destruct (mpi_size =? 0) eqn:E; [lia|]. cbn.
    destruct ((num_gpus * num_workers) mod mpi_size =? 0) eqn:E2; [lia|].
    reflexivity.
  - intros Hnone Hs. split; [|reflexivity].
    unfold build_server_configs. rewrite no_gpus_no_configs by assumption.
    destruct (mpi_size =? 0) eqn:E; [lia|]. cbn.
    rewrite Z.mod_0_l by assumption. cbn.
    unfold py_slice. rewrite drop_nil, take_nil. reflexivity.
Qed.

Lemma build_server_configs_misfit_witness :
  build_server_configs 1 3 7000 0 2 = Raise AssertionError
  /\ build_server_configs 0 3 7000 0 2 = Ok [].
Proof.
  destruct (build_server_configs_misfit 1 3 7000 0 2) as (_ & Hodd & _).
  destruct (build_server_configs_misfit 0 3 7000 0 2) as (_ & _ & Hnone).
  split.
  - apply Hodd; try lia. vm_compute. discriminate.
  - apply Hnone; lia.
Defined.

(* ================================================================== *)
(** ** More of the code: [utils.render_segmentation] *)
(* ================================================================== *)

Lemma paint_pixels (image : list (list Z)) (i : Z) (color : list Z)
    (px : Z -> list Z) :
  length color = 3%nat ->
  paint image i color (map (map px) image)
  = Ok (map (map (fun v => if v =? i then color else px v)) image).
Proof.
  intros Hlen. unfold paint. rewrite bool_decide_eq_true_2 by assumption.
  f_equal. induction image as [|row image IH]; [reflexivity|].
  cbn. f_equal; [|exact IH].
  clear. induction row as [|v row IH]; [reflexivity|].
  cbn. f_equal. exact IH.
Qed.

Lemma array_max_bounds (image : list (list Z)) (m : Z) :
  array_max image = Ok m ->
  In m (concat image) /\ Forall (fun v => v <= m) (concat image).
Proof.
  unfold array_max. destruct (concat image) as [|x rest]; [discriminate|].
  intros [= <-]. revert x. induction rest as [|y rest IH]; intros x; cbn.
  - split; [left; reflexivity|]. repeat constructor. lia.
  - destruct (IH (Z.max x y)) as [Hin Hle]. split.
    + destruct Hin as [Hin|Hin]; [|right; right; exact Hin].
      destruct (Z.max_spec x y) as [[_ E]|[_ E]]; rewrite E in *.
      * right. left. exact Hin.
      * left. exact Hin.
    + inversion Hle as [|? ? H1 H2]; subst.
      constructor; [lia|]. constructor; [lia|]. exact H2.
Qed.

Lemma array_max_some (image : list (list Z)) :
  concat image <> [] -> exists m, array_max image = Ok m.
Proof.
  unfold array_max. destruct (concat image); [congruence|]. eauto.
Qed.

(** X4. An array with elements from 0 to 6 is rendered pixel by pixel: the
    element [v] becomes the colour whose red, green and blue are 255 times
    bits 0, 1 and 2 of [v], the rows keep their lengths, and two elements
    get the same colour only when they are equal. *)
Theorem render_segmentation_colors (image : list (list Z)) :
  concat image <> [] ->
  Forall (fun v => 0 <= v <= 6) (concat image) ->
  render_segmentation image = Ok (map (map category_color) image)
  /\ forall v v',
       In v (concat image) -> In v' (concat image) ->
       category_color v = category_color v' -> v = v'.
Proof.
  intros Hne Hrange. split; cycle 1.
  { rewrite List.Forall_forall in Hrange. intros v v' Hv Hv' Hc.
    apply Hrange in Hv, Hv'.
    assert (v = 0 \/ v = 1 \/ v = 2 \/ v = 3 \/ v = 4 \/ v = 5 \/ v = 6)
      as Hcv by lia.
    assert (v' = 0 \/ v' = 1 \/ v' = 2 \/ v' = 3 \/ v' = 4 \/ v' = 5
            \/ v' = 6) as Hcv' by lia.
    destruct Hcv as [->|[->|[->|[->|[->|[->| ->]]]]]];
      destruct Hcv' as [->|[->|[->|[->|[->|[->| ->]]]]]];
      try reflexivity; vm_compute in Hc; discriminate. }
  destruct (array_max_some image Hne) as [m Hm].
  destruct (array_max_bounds image m Hm) as [Hin Hle].
  unfold render_segmentation. rewrite Hm. cbn.
  assert (Hm06 : 0 <= m <= 6).
  { rewrite List.Forall_forall in Hrange. apply Hrange. exact Hin. }
  assert (Hall : Forall (fun v => 0 <= v <= m) (concat image)).
  { rewrite List.Forall_forall in *. intros v Hv.
    specialize (Hrange v Hv). specialize (Hle v Hv). lia. }
  assert (Hext : forall f g : Z -> list Z,
            (forall v, 0 <= v <= m -> f v = g v) ->
            map (map f) image = map (map g) image).
  { intros f g Hfg. clear -Hall Hfg.
    induction image as [|row image IH]; [reflexivity|].
    cbn in Hall. apply Forall_app in Hall. destruct Hall as [Hrow Himg].
    cbn. f_equal; [|auto].
    apply map_ext_in. intros v Hv.
    rewrite List.Forall_forall in Hrow. auto. }
  assert (m = 0 \/ m = 1 \/ m = 2 \/ m = 3 \/ m = 4 \/ m = 5 \/ m = 6)
    as Hcases by lia.
  destruct Hcases as [->|[->|[->|[->|[->|[->| ->]]]]]].
  all: match goal with
       | |- context [py_assert ?b] =>
           let b' := eval vm_compute in b in change b with b'
       end.
  all: match goal with
       | |- context [py_range ?n] =>
           let l := eval vm_compute in (py_range n) in
           change (py_range n) with l
       end.
  all: cbn [py_assert mbind result_bind for_each].
  all: repeat match goal with
         | |- context [color_of ?s] =>
             let c := eval vm_compute in (color_of s) in
             change (color_of s) with c
         end.
  all: cbn [mbind result_bind].
  all: repeat (rewrite paint_pixels by reflexivity; cbn [mbind result_bind]).
  all: f_equal; apply Hext; intros v Hv.
  all: assert (v = 0 \/ v = 1 \/ v = 2 \/ v = 3 \/ v = 4 \/ v = 5 \/ v = 6)
         as Hv' by lia.
  all: destruct Hv' as [->|[->|[->|[->|[->|[->| ->]]]]]]; try lia.
  all: reflexivity.
Qed.

Lemma render_segmentation_colors_witness :
  render_segmentation [[0; 1; 2]; [5; 6; 3]]
  = Ok [[[0; 0; 0]; [255; 0; 0]; [0; 255; 0]];
        [[255; 0; 255]; [0; 255; 255]; [255; 255; 0]]].
Proof.
  apply (render_segmentation_colors [[0; 1; 2]; [5; 6; 3]]).
  - discriminate.
  - cbn. repeat constructor; lia.
Defined.

Lemma array_max_is (image : list (list Z)) (m : Z) :
  In m (concat image) -> Forall (fun v => v <= m) (concat image) ->
  array_max image = Ok m.
Proof.
  intros Hin Hle.
  destruct (array_max_some image) as [m' Hm'].
  { intros E. rewrite E in Hin. destruct Hin. }
  destruct (array_max_bounds image m' Hm') as [Hin' Hle'].
  rewrite List.Forall_forall in Hle, Hle'.
  specialize (Hle m' Hin'). specialize (Hle' m Hin).
  rewrite Hm'. f_equal. lia.
Qed.

(** X5. What [render_segmentation] refuses: an array without elements has no
    maximum ([ValueError]), and an array whose largest element is 7 or more
    fails the assertion, so that only the seven categories 0 to 6 are
    rendered and the colour of category 7 is never produced. *)
Theorem render_segmentation_refuses (image : list (list Z)) :
  (concat image = [] -> render_segmentation image = Raise ValueError)
  /\ (forall m,
        In m (concat image) -> Forall (fun v => v <= m) (concat image) ->
        7 <= m < 255 ->
        render_segmentation image = Raise AssertionError).
Proof.
  split.
  - intros Hnil. unfold render_segmentation, array_max. rewrite Hnil.
    reflexivity.
  - intros m Hin Hle Hm. unfold render_segmentation.
    rewrite (array_max_is image m Hin Hle). cbn.
    destruct (m + 1 <? 8) eqn:E; [lia|]. reflexivity.
Qed.

Lemma render_segmentation_refuses_witness :
  render_segmentation [[0; 7]] = Raise AssertionError
  /\ render_segmentation [[]; []] = Raise ValueError.
Proof.
  destruct (render_segmentation_refuses [[0; 7]]) as [_ Hbig].
  destruct (render_segmentation_refuses [[]; []]) as [Hempty _].
  split.
  - apply (Hbig 7); [right; left; reflexivity|repeat constructor; lia|lia].
  - apply Hempty. reflexivity.
Defined.

(* ================================================================== *)
(** ** More of the code: [utils.build_batch] and the frames of a response *)
(* ================================================================== *)

(** X6. A batch made by [build_batch] from state vectors and an integer seed
    is framed with one seed for the batch, whatever the size of the seed:
    the request carries the seed reduced into [0, 2^31), no entry has a seed
    of its own, and there is one entry per state vector. *)
Theorem build_batch_is_batch_seeded (pb : Schema)
    (config : RemoteRendererConfig) (states : pyval)
    (rows : list (list pyfloat)) (seed : Z) :
  fits_width pb (image_width config) = true ->
  fits_height pb (image_height config) = true ->
  state_vectors states = Ok rows ->
  exists request,
    _build_render_batch_request pb (build_batch states (VInt seed)) config
    = Ok (request, length rows)
    /\ use_entry_seeds request = false
    /\ batch_seed request = Some (seed mod 2 ^ 31)
    /\ 0 <= seed mod 2 ^ 31 < 2 ^ 31
    /\ entries request = map (fun q => mkEntry q None) rows.
Proof.
  intros Hw Hh Hrows.
  assert (L1 : build_batch states (VInt seed) !! "seed" = Some (VInt seed)).
  { unfold build_batch. rewrite lookup_insert_ne by discriminate.
    apply lookup_singleton_eq. }
  assert (L2 : build_batch states (VInt seed) !! "seeds" = None).
  { unfold build_batch. rewrite lookup_insert_ne by discriminate.
    apply lookup_singleton_ne. discriminate. }
  assert (L3 : build_batch states (VInt seed) !! "qpos" = Some states).
  { unfold build_batch. apply lookup_insert_eq. }
  unfold _build_render_batch_request, set_int.
  rewrite Hw, Hh, L1, L2, L3. cbn.
  pose proof (Z.mod_pos_bound seed (2 ^ 31)) as Hb.
  assert (fits_int32 (seed mod 2 ^ 31) = true) as ->.
  { unfold fits_int32. lia. }
  cbn. rewrite Hrows. cbn.
  rewrite build_entries_batch_seed. cbn.
  rewrite (state_vectors_len _ _ Hrows). cbn.
  eexists. split; [reflexivity|]. cbn.
  repeat split; try reflexivity; lia.
Qed.

Lemma build_batch_is_batch_seeded_witness :
  exists request,
    _build_render_batch_request int32_schema
      (build_batch (VVectors [[1.5%float]; [2.5%float]]) (VInt (2 ^ 31 + 5)))
      a_config
    = Ok (request, 2%nat)
    /\ use_entry_seeds request = false
    /\ batch_seed request = Some 5.
Proof.
  destruct (build_batch_is_batch_seeded int32_schema a_config
              (VVectors [[1.5%float]; [2.5%float]])
              [[1.5%float]; [2.5%float]] (2 ^ 31 + 5))
    as (request & Hreq & Huse & Hseed & _ & _).
  - reflexivity.
  - reflexivity.
  - reflexivity.
  - exists request. repeat split; assumption.
Defined.

Lemma for_each_inv {A S} (P : S -> Prop) (body : S -> A -> result S)
    (l : list A) (s s' : S) :
  (forall s1 x s2, P s1 -> body s1 x = Ok s2 -> P s2) ->
  P s -> for_each body l s = Ok s' -> P s'.
Proof.
  intros Hstep. revert s. induction l as [|x l IH]; intros s Hs; cbn.
  - intros [= <-]. exact Hs.
  - destruct (body s x) as [s1|e] eqn:Hb; [|discriminate]. cbn.
    apply IH. eapply Hstep; eassumption.
Qed.

Lemma read_rgba_image_fits (data : list Byte.byte) (w h : Z) (image : Image) :
  read_rgba_image data w h = Ok image ->
  frame_fits w h image /\ img_buffer image = data.
Proof.
  unfold read_rgba_image. case_match; [|discriminate]. intros [= <-].
  repeat match goal with
         | H : _ && _ = true |- _ => apply andb_prop in H; destruct H
         end.
  split; [|reflexivity]. split; [reflexivity|]. cbn.
  assert (buffer_len data mod (h * w) = 0) as Hmod by lia.
  apply Z.div_exact in Hmod; [|lia]. lia.
Qed.

Lemma read_depth_image_fits (data : list Byte.byte) (w h : Z) (image : Image) :
  read_depth_image data w h = Ok image ->
  frame_fits w h image /\ img_buffer image = data.
Proof.
  unfold read_depth_image. case_match; [|discriminate]. intros [= <-].
  repeat match goal with
         | H : _ && _ = true |- _ => apply andb_prop in H; destruct H
         end.
  split; [|reflexivity]. split; [reflexivity|]. cbn.
  assert (buffer_len data mod 4 = 0) as Hmod by lia.
  apply Z.div_exact in Hmod; lia.
Qed.

Lemma read_normals_image_fits (data : list Byte.byte) (w h : Z)
    (image : Image) :
  read_normals_image data w h = Ok image ->
  frame_fits w h image /\ img_buffer image = data.
Proof.
  unfold read_normals_image. case_match; [|discriminate]. intros [= <-].
  repeat match goal with
         | H : _ && _ = true |- _ => apply andb_prop in H; destruct H
         end.
  split; [|reflexivity]. split; [reflexivity|]. cbn.
  assert (buffer_len data mod 4 = 0) as Hmod by lia.
  apply Z.div_exact in Hmod; lia.
Qed.

Lemma read_segmentation_image_fits (data : list Byte.byte) (w h : Z)
    (image : Image) :
  read_segmentation_image data w h = Ok image ->
  frame_fits w h image /\ img_buffer image = data.
Proof.
  unfold read_segmentation_image. case_match; [|discriminate]. intros [= <-].
  repeat match goal with
         | H : _ && _ = true |- _ => apply andb_prop in H; destruct H
         end.
  split; [|reflexivity]. split; [reflexivity|]. cbn. lia.
Qed.


Lemma carried_snoc (kind : StreamEntry -> list Byte.byte)
    (entries : list StreamEntry) (entry : StreamEntry) :
  carried kind (entries ++ [entry])
  = carried kind entries
    ++ (if nonempty (kind entry) then [kind entry] else []).
Proof.
  unfold carried. rewrite map_app, filter_app. f_equal. cbn [map].
  rewrite filter_cons, filter_nil. destruct (nonempty (kind entry)) eqn:E.
  - rewrite decide_True by reflexivity. reflexivity.
  - rewrite decide_False by discriminate. reflexivity.
Qed.

Lemma read_entry_frames (w h : Z) (entries : list StreamEntry) (f f' : Frames)
    (entry : StreamEntry) :
  frames_read w h entries f ->
  read_entry w h f entry = Ok f' ->
  frames_read w h (entries ++ [entry]) f'.
Proof.
  intros [[R1 R2] [D1 D2] [N1 N2] [S1 S2]]. unfold read_entry.
  cbv [mbind result_bind].
  intros H. repeat (case_match; simplify_eq); cbn in *.
  all: repeat match goal with
         | H : read_rgba_image _ _ _ = Ok _ |- _ =>
             apply read_rgba_image_fits in H; destruct H
         | H : read_depth_image _ _ _ = Ok _ |- _ =>
             apply read_depth_image_fits in H; destruct H
         | H : read_normals_image _ _ _ = Ok _ |- _ =>
             apply read_normals_image_fits in H; destruct H
         | H : read_segmentation_image _ _ _ = Ok _ |- _ =>
             apply read_segmentation_image_fits in H; destruct H
         end.
  all: split; cbn; rewrite carried_snoc;
    repeat match goal with
      | H : nonempty _ = _ |- _ => rewrite H
      end;
    rewrite ?app_nil_r, ?map_app; cbn; (split; [|congruence]);
    try assumption; apply Forall_app; split; try assumption;
    (apply List.Forall_cons; [assumption|apply List.Forall_nil]).
Qed.

Lemma read_entries_frames (w h : Z) (entries : list StreamEntry) (f : Frames) :
  for_each (read_entry w h) entries (mkFrames [] [] [] []) = Ok f ->
  frames_read w h entries f.
Proof.
  assert (Hgen : forall done rest f0,
            frames_read w h done f0 ->
            for_each (read_entry w h) rest f0 = Ok f ->
            frames_read w h (done ++ rest) f).
  { intros done rest. revert done.
    induction rest as [|entry rest IH]; intros done f0 Hf0; cbn.
    - intros [= <-]. rewrite app_nil_r. exact Hf0.
    - destruct (read_entry w h f0 entry) as [f1|e] eqn:He; [|discriminate].
      cbn. intros Hrest.
      replace (done ++ entry :: rest) with ((done ++ [entry]) ++ rest)
        by (rewrite <- app_assoc; reflexivity).
      eapply IH; [|exact Hrest].
      eapply read_entry_frames; eassumption. }
  apply (Hgen [] entries). split; cbn; split; constructor.
Qed.

Lemma append_empty_r (s : string) : s +:+ EmptyString = s.
Proof.
  induction s as [|c s IH]; [reflexivity|].
  change (String c (s +:+ EmptyString) = String c s). f_equal. exact IH.
Qed.

Lemma append_inj_r (s a b : string) : s +:+ a = s +:+ b -> a = b.
Proof.
  induction s as [|c s IH]; [auto|].
  change (String c (s +:+ a) = String c (s +:+ b) -> a = b).
  intros [= H]. auto.
Qed.

Lemma append_suffix_ne (s a b : string) : a <> b -> s +:+ a <> s +:+ b.
Proof. intros Hne H. apply Hne. eapply append_inj_r. eassumption. Qed.

Lemma append_nonempty_ne (s a : string) : a <> EmptyString -> s <> s +:+ a.
Proof.
  intros Hne H. apply Hne. apply (append_inj_r s).
  transitivity s; [symmetry; exact H|symmetry; apply append_empty_r].
Qed.

Lemma store_if_any_stored (key : string) (frames : list Image) (d : Workload) :
  stored key frames d (store_if_any key frames d)
  /\ forall k, k <> key -> store_if_any key frames d !! k = d !! k.
Proof.
  unfold store_if_any, stored. destruct frames as [|x l]; cbn.
  - split; [reflexivity|]. intros k Hk. reflexivity.
  - split; [apply lookup_insert_eq|].
    intros k Hk. apply lookup_insert_ne. congruence.
Qed.

(** X7. One stream of a response, decoded without error, leaves under its
    name the colour frames of its entries, one per entry that carries colour
    data, in entry order and with the bytes as they came; likewise under
    the name followed by [_depth], [_normals] and [_segmentation], except
    that a kind no entry carries leaves that key as it was; every frame
    fits the configured size, and no other key is touched. *)
Theorem read_stream_stores_frames (w h : Z) (d d' : Workload)
    (stream : Stream) :
  read_stream w h d stream = Ok d' ->
  let name := stream_name stream in
  exists f,
    frames_read w h (stream_entries stream) f
    /\ d' !! name = Some (VImages (stream_rgb_dataset f))
    /\ stored (name +:+ "_depth") (stream_depth_dataset f) d d'
    /\ stored (name +:+ "_normals") (stream_normals_dataset f) d d'
    /\ stored (name +:+ "_segmentation") (stream_segmentation_dataset f) d d'
    /\ forall key,
         key <> name -> key <> name +:+ "_depth" ->
         key <> name +:+ "_normals" -> key <> name +:+ "_segmentation" ->
         d' !! key = d !! key.
Proof.
  intros H name. unfold read_stream in H. fold name in H.
  destruct (for_each (read_entry w h) (stream_entries stream) _)
    as [f|e] eqn:Hf; [|discriminate].
  cbn in H. injection H as <-.
  exists f. split; [apply read_entries_frames; exact Hf|].
  set (d1 := <[name := VImages (stream_rgb_dataset f)]> d).
  set (d2 := store_if_any (name +:+ "_depth") (stream_depth_dataset f) d1).
  set (d3 := store_if_any (name +:+ "_normals") (stream_normals_dataset f) d2).
  destruct (store_if_any_stored (name +:+ "_depth")
              (stream_depth_dataset f) d1) as [Hd Hd'].
  destruct (store_if_any_stored (name +:+ "_normals")
              (stream_normals_dataset f) d2) as [Hn Hn'].
  destruct (store_if_any_stored (name +:+ "_segmentation")
              (stream_segmentation_dataset f) d3) as [Hs Hs'].
  fold d2 in Hd, Hd', Hn, Hn'. fold d3 in Hn, Hn', Hs, Hs'.
  assert (N1 : name <> name +:+ "_depth")
    by (apply append_nonempty_ne; discriminate).
  assert (N2 : name <> name +:+ "_normals")
    by (apply append_nonempty_ne; discriminate).
  assert (N3 : name <> name +:+ "_segmentation")
    by (apply append_nonempty_ne; discriminate).
  assert (N4 : name +:+ "_depth" <> name +:+ "_normals")
    by (apply append_suffix_ne; discriminate).
  assert (N5 : name +:+ "_depth" <> name +:+ "_segmentation")
    by (apply append_suffix_ne; discriminate).
  assert (N6 : name +:+ "_normals" <> name +:+ "_segmentation")
    by (apply append_suffix_ne; discriminate).
  assert (L1 : forall k, k <> name -> d1 !! k = d !! k).
  { intros k Hk. apply lookup_insert_ne. congruence. }
  split; [|split; [|split; [|split]]].
  - rewrite Hs', Hn', Hd' by assumption. apply lookup_insert_eq.
  - unfold stored in *. rewrite Hs', Hn' by assumption.
    destruct (stream_depth_dataset f); [|exact Hd].
    rewrite Hd. apply L1. congruence.
  - unfold stored in *. rewrite Hs' by assumption.
    destruct (stream_normals_dataset f); [|exact Hn].
    rewrite Hn, Hd' by congruence. apply L1. congruence.
  - unfold stored in *.
    destruct (stream_segmentation_dataset f); [|exact Hs].
    rewrite Hs, Hn', Hd' by congruence. apply L1. congruence.
  - intros key K0 K1 K2 K3.
    rewrite Hs', Hn', Hd' by assumption. apply L1. assumption.
Qed.

Lemma store_if_any_keeps (key : string) (frames : list Image) (d : Workload)
    (k : string) :
  is_Some (d !! k) -> is_Some (store_if_any key frames d !! k).
Proof.
  unfold store_if_any. destruct (nonempty frames); [|auto].
  intros Hk. destruct (decide (k = key)) as [->|Hne].
  - rewrite lookup_insert_eq. eauto.
  - rewrite lookup_insert_ne by congruence. exact Hk.
Qed.

Lemma read_stream_fits (w h : Z) (d d' : Workload) (stream : Stream) :
  frames_fit w h d -> read_stream w h d stream = Ok d' -> frames_fit w h d'.
Proof.
  intros Hd H. unfold read_stream in H.
  destruct (for_each (read_entry w h) (stream_entries stream) _)
    as [f|e] eqn:Hf; [|discriminate].
  cbn in H. injection H as <-.
  destruct (read_entries_frames w h _ f Hf) as [[R _] [D _] [N _] [S _]].
  assert (Hins : forall key frames d0,
            Forall (frame_fits w h) frames -> frames_fit w h d0 ->
            frames_fit w h (<[key := VImages frames]> d0)).
  { intros key frames d0 Hfr Hd0 k images.
    destruct (decide (k = key)) as [->|Hne].
    - rewrite lookup_insert_eq. intros [= <-]. exact Hfr.
    - rewrite lookup_insert_ne by congruence. apply Hd0. }
  assert (Hany : forall key frames d0,
            Forall (frame_fits w h) frames -> frames_fit w h d0 ->
            frames_fit w h (store_if_any key frames d0)).
  { intros key frames d0 Hfr Hd0. unfold store_if_any.
    destruct (nonempty frames); [apply Hins; assumption|assumption]. }
  auto.
Qed.

Lemma read_stream_keys (w h : Z) (d d' : Workload) (stream : Stream) :
  read_stream w h d stream = Ok d' ->
  is_Some (d' !! stream_name stream)
  /\ forall key, is_Some (d !! key) -> is_Some (d' !! key).
Proof.
  intros H. unfold read_stream in H.
  destruct (for_each (read_entry w h) (stream_entries stream) _)
    as [f|e] eqn:Hf; [|discriminate].
  cbn in H. injection H as <-.
  split.
  - do 3 apply store_if_any_keeps. rewrite lookup_insert_eq. eauto.
  - intros key Hk. do 3 apply store_if_any_keeps.
    destruct (decide (key = stream_name stream)) as [->|Hne].
    + rewrite lookup_insert_eq. eauto.
    + rewrite lookup_insert_ne by congruence. exact Hk.
Qed.

Lemma add_aux_keeps {A} (wrap : list A -> scalars) (batch_size : nat)
    (w h : Z) (st st' : Workload * list string) (x : AuxStream A) :
  add_aux wrap batch_size st x = Ok st' ->
  (frames_fit w h st.1 -> frames_fit w h st'.1)
  /\ forall key, is_Some (st.1 !! key) -> is_Some (st'.1 !! key).
Proof.
  unfold add_aux, _add_auxiliary_stream. destruct st as [d log]. cbn.
  destruct batch_size as [|n]; [discriminate|].
  case_match; cbn; intros [= <-]; cbn.
  - split.
    + intros Hd k images.
      destruct (decide (k = aux_name x)) as [->|Hne].
      * rewrite lookup_insert_eq. discriminate.
      * rewrite lookup_insert_ne by congruence. apply Hd.
    + intros key Hk. destruct (decide (key = aux_name x)) as [->|Hne].
      * rewrite lookup_insert_eq. eauto.
      * rewrite lookup_insert_ne by congruence. exact Hk.
  - split; auto.
Qed.

(** Frames fit and keys stay, along each of the loops of the decoder. *)
Lemma read_streams_keep (w h : Z) (l : list Stream) (d d' : Workload) :
  for_each (read_stream w h) l d = Ok d' ->
  (frames_fit w h d -> frames_fit w h d')
  /\ (forall key, is_Some (d !! key) -> is_Some (d' !! key))
  /\ forall stream, In stream l -> is_Some (d' !! stream_name stream).
Proof.
  revert d. induction l as [|x l IH]; intros d; cbn.
  - intros [= <-]. split; [auto|]. split; [auto|]. intros stream [].
  - destruct (read_stream w h d x) as [d1|e] eqn:Hx; [|discriminate]. cbn.
    intros Hl. destruct (IH d1 Hl) as (Hfit & Hkeep & Hin).
    destruct (read_stream_keys w h d d1 x Hx) as [Hname Hkeep1].
    split; [|split].
    + intros Hd. apply Hfit. eapply read_stream_fits; eassumption.
    + auto.
    + intros stream [<-|Hs]; auto.
Qed.

Lemma add_auxes_keep {A} (wrap : list A -> scalars) (batch_size : nat)
    (w h : Z) (l : list (AuxStream A)) (st st' : Workload * list string) :
  for_each (add_aux wrap batch_size) l st = Ok st' ->
  (frames_fit w h st.1 -> frames_fit w h st'.1)
  /\ forall key, is_Some (st.1 !! key) -> is_Some (st'.1 !! key).
Proof.
  revert st. induction l as [|x l IH]; intros st; cbn.
  - intros [= <-]. auto.
  - destruct (add_aux wrap batch_size st x) as [st1|e] eqn:Hx;
      [|discriminate]. cbn.
    intros Hl. destruct (IH st1 Hl) as (Hfit & Hkeep).
    destruct (add_aux_keeps wrap batch_size w h st st1 x Hx) as [Hfit1 Hkeep1].
    split; auto.
Qed.

(** X8. In a batch decoded without error, every stream of the response has
    left its name as a key (also a stream without entries), and every frame
    under any key has the configured height and width and a buffer of
    exactly the bytes of its shape. *)
Theorem convert_keeps_every_stream (response : RenderBatchResponse)
    (config : RemoteRendererConfig) (batch_size : nat)
    (batch_dataset : Workload) (log : list string) :
  _convert_render_batch_response response config batch_size
  = Ok (batch_dataset, log) ->
  (forall stream,
     In stream (streams response) ->
     is_Some (batch_dataset !! stream_name stream))
  /\ forall key images,
       batch_dataset !! key = Some (VImages images) ->
       Forall (frame_fits (image_width config) (image_height config)) images.
Proof.
  unfold _convert_render_batch_response. cbv [mbind result_bind].
  intros H. repeat (case_match; simplify_eq).
  match goal with
  | H : for_each (read_stream _ _) _ _ = Ok _ |- _ =>
      apply read_streams_keep in H; destruct H as (F0 & _ & K0)
  end.
  repeat match goal with
         | H : for_each (add_aux _ _) _ _ = Ok _ |- _ =>
             apply (add_auxes_keep _ _ (image_width config)
                      (image_height config)) in H;
             cbn [fst] in H; destruct H as [? ?]
         end.
  split.
  - intros stream Hin. auto.
  - assert (frames_fit (image_width config) (image_height config)
              batch_dataset) as Hfit.
    { assert (frames_fit (image_width config) (image_height config)
                (∅ : Workload)) as Hempty.
      { intros k images. rewrite lookup_empty. discriminate. }
      auto. }
    exact Hfit.
Qed.


Lemma convert_keeps_every_stream_witness :
  exists batch_dataset log,
    _convert_render_batch_response
      (mkRenderBatchResponse [a_pixel_stream] [] [] []) a_pixel_config 2
    = Ok (batch_dataset, log)
    /\ is_Some (batch_dataset !! "cam")
    /\ forall key images,
         batch_dataset !! key = Some (VImages images) ->
         Forall (frame_fits 1 1) images.
Proof.
  destruct (_convert_render_batch_response
              (mkRenderBatchResponse [a_pixel_stream] [] [] [])
              a_pixel_config 2) as [[batch_dataset log]|e] eqn:H;
    [|vm_compute in H; discriminate].
  exists batch_dataset, log. split; [reflexivity|].
  destruct (convert_keeps_every_stream _ _ _ _ _ H) as [Hkeys Hfit].
  split; [|exact Hfit].
  apply (Hkeys a_pixel_stream). left. reflexivity.
Defined.

Lemma read_stream_stores_frames_witness :
  exists d' f,
    read_stream 1 1 ∅ a_pixel_stream = Ok d'
    /\ d' !! "cam" = Some (VImages (stream_rgb_dataset f))
    /\ map img_buffer (stream_rgb_dataset f)
       = [[Byte.x10; Byte.x20; Byte.x30]]
    /\ d' !! "cam_normals" = None.
Proof.
  destruct (read_stream 1 1 ∅ a_pixel_stream) as [d'|e] eqn:H;
    [|vm_compute in H; discriminate].
  destruct (read_stream_stores_frames 1 1 ∅ d' a_pixel_stream H)
    as (f & [[_ Hrgb] _ [_ Hnor] _] & Hname & _ & Hn & _).
  exists d', f. split; [reflexivity|]. split; [exact Hname|].
  split; [exact Hrgb|].
  destruct (stream_normals_dataset f); [exact Hn|discriminate].
Defined.

(* ================================================================== *)
(** ** More of the code: [get_renderer_executable] and the server of a worker *)
(* ================================================================== *)

Lemma append_assoc (a b c : string) : (a +:+ b) +:+ c = a +:+ (b +:+ c).
Proof.
  induction a as [|x a IH]; [reflexivity|].
  change (String x ((a +:+ b) +:+ c) = String x (a +:+ (b +:+ c))).
  f_equal. exact IH.
Qed.

Lemma prefix_append (a b : string) : String.prefix a (a +:+ b) = true.
Proof.
  induction a as [|x a IH]; [destruct b; reflexivity|].
  change (String.prefix (String x a) (String x (a +:+ b)) = true).
  cbn. destruct (ascii_dec x x); [exact IH|congruence].
Qed.

(** Joining a relative name to a directory keeps the directory in front and
    the name at the end. *)
Lemma path_join_relative (a b : string) :
  starts_with_slash b = false ->
  exists sep, path_join a b = a +:+ sep +:+ b.
Proof.
  intros Hb. unfold path_join. rewrite Hb.
  destruct (String.eqb a EmptyString || ends_with_slash a).
  - exists EmptyString. reflexivity.
  - exists "/". reflexivity.
Qed.

(** X9. When [get_renderer_executable] returns a path, the path exists, it
    lies under [ORRB_BINARIES_DIR] in the package directory of the version
    and ends in [run.sh]; the version is the override whenever
    [ORRB_VERSION_OVERRIDE] is set, also to the empty string, whatever
    version was asked for; and every failure is a [ValueError]. *)
Theorem get_renderer_executable_resolves (hst : Host)
    (version : option string) :
  (forall path,
     get_renderer_executable hst version = Ok path ->
     path_exists hst path = true
     /\ exists dir v sep1 sep2,
          getenv (environ hst) "ORRB_BINARIES_DIR" = Some dir
          /\ effective_version hst version = Some v
          /\ path = dir +:+ sep1 +:+ package_of hst v +:+ sep2 +:+ "run.sh"
          /\ String.prefix dir path = true)
  /\ (forall version_override other,
        getenv (environ hst) "ORRB_VERSION_OVERRIDE" = Some version_override ->
        get_renderer_executable hst version
        = get_renderer_executable hst other)
  /\ (forall e, get_renderer_executable hst version = Raise e -> e = ValueError).
Proof.
  split; [|split].
  - intros path. unfold get_renderer_executable.
    fold (effective_version hst version).
    destruct (effective_version hst version) as [v|]; [|discriminate].
    destruct (getenv (environ hst) "ORRB_BINARIES_DIR") as [dir|];
      [|discriminate].
    fold (package_of hst v).
    destruct (path_exists hst _) eqn:Hex; [|discriminate].
    intros [= <-]. split; [exact Hex|].
    destruct (path_join_relative dir (package_of hst v) eq_refl)
      as [sep1 H1].
    destruct (path_join_relative (path_join dir (package_of hst v)) "run.sh"
                eq_refl) as [sep2 H2].
    exists dir, v, sep1, sep2. split; [reflexivity|]. split; [reflexivity|].
    assert (Hpath : path_join (path_join dir (package_of hst v)) "run.sh"
                    = dir +:+ sep1 +:+ package_of hst v +:+ sep2 +:+ "run.sh").
    { rewrite H2, H1, !append_assoc. reflexivity. }
    split; [exact Hpath|]. rewrite Hpath. apply prefix_append.
  - intros version_override other Hov. unfold get_renderer_executable.
    rewrite Hov. reflexivity.
  - intros e. unfold get_renderer_executable.
    repeat case_match; congruence.
Qed.

Lemma get_renderer_executable_resolves_witness :
  get_renderer_executable an_installed_host (Some "20190514")
  = Ok "/opt/orrb/StandaloneRenderer-Linux-x86_64-20190514/run.sh"
  /\ path_exists an_installed_host
       "/opt/orrb/StandaloneRenderer-Linux-x86_64-20190514/run.sh" = true.
Proof.
  split; [reflexivity|].
  apply (proj1 (get_renderer_executable_resolves an_installed_host
                  (Some "20190514"))).
  reflexivity.
Defined.

Lemma connect_attempts_dials (o : Outside) (attempts : list nat)
    (w w' : Worker) (effs : list effect) (r : result bool) :
  connect_attempts o attempts w = (w', effs, r) ->
  Forall (fun e => dials (channel_target (host o) (port w)) e = true) effs.
Proof.
  revert w w' effs r.
  induction attempts as [|i rest IH]; intros w w' effs r; cbn.
  - act_unfold. intros [= <- <- <-]. constructor.
  - act_unfold. destruct (channel_ready o i).
    + intros [= <- <- <-]. cbn.
      apply List.Forall_cons; [apply String.eqb_refl|apply List.Forall_nil].
    + destruct (connect_attempts o rest w) as [[w1 e1] r1] eqn:Hrest.
      cbn. intros [= <- <- <-].
      apply List.Forall_cons; [apply String.eqb_refl|].
      apply List.Forall_cons; [reflexivity|].
      apply List.Forall_cons; [reflexivity|].
      eapply IH. eassumption.
Qed.


Lemma spawn_server_outcome (o : Outside) (self s1 : Worker)
    (e1 : list effect) (r1 : result unit) :
  spawn_server o self = (s1, e1, r1) -> spawn_outcome o self s1 e1 r1.
Proof.
  unfold spawn_server. act_unfold. intros H.
  repeat (case_match; simplify_eq); cbn.
  - eapply Detached; eassumption.
  - eapply Spawned; eassumption.
  - eapply SpawnFailed; eassumption.
  - eapply Incomplete; eassumption.
  - apply NotAsked. assumption.
Qed.

Lemma server_commandline_args (hst : Host) (self : Worker) (command : string)
    (args : list string) (environment : gmap string string) :
  _server_commandline hst self = Ok (command, args, environment) ->
  renderer_local_binary (base_config self) = Some command
  /\ In ("--render_server.host=" +:+ _get_server_bind_host hst) args
  /\ In ("--render_server.port=" +:+ pretty (port self)) args
  /\ In ("--main.parent_pid=" +:+ pretty (pid hst)) args
  /\ environment
     = {[ "DISPLAY" := ":" +:+ default "0" (getenv (environ hst) "ORRB_DISPLAY")
                       +:+ "." +:+ pretty (device self) ]}.
Proof.
  unfold _server_commandline. cbv [mbind result_bind py_assert].
  destruct (renderer_local_binary (base_config self)) as [binary|] eqn:Hb;
    [|discriminate].
  repeat case_match; try discriminate. intros [= <- <- <-].
  split; [reflexivity|].
  split; [do 2 right; left; reflexivity|].
  split; [do 3 right; left; reflexivity|].
  split; [do 12 right; left; reflexivity|reflexivity].
Qed.

(** X10. When [on_run] spawns a server, it does so once and before anything
    else: the command is the configured binary, run in the directory of the
    binary; the server is told to listen on the host and port that every
    connection attempt of this [on_run] then dials, and is given the pid of
    this process as its parent; its environment is that of this process
    with [DISPLAY] replaced by [:<ORRB_DISPLAY or 0>.<device>]. *)
Theorem on_run_spawns_what_it_dials (o : Outside) (self self' : Worker)
    (effs : list effect) (r : result unit) (argv : list string)
    (cwd : string) (env : gmap string string) :
  on_run o self = (self', effs, r) ->
  In (Spawn argv cwd env) effs ->
  exists binary args rest,
    effs = Spawn argv cwd env :: rest
    /\ Forall (fun e => is_spawn e = false) rest
    /\ renderer_local_binary (base_config self) = Some binary
    /\ argv = binary :: args
    /\ cwd = dirname binary
    /\ In ("--render_server.host=" +:+ _get_server_bind_host (host o)) args
    /\ In ("--render_server.port=" +:+ pretty (port self)) args
    /\ In ("--main.parent_pid=" +:+ pretty (pid (host o))) args
    /\ (forall target,
          In (ChannelReady target) rest ->
          target = _get_server_bind_host (host o) +:+ ":"
                   +:+ pretty (port self))
    /\ env !! "DISPLAY"
       = Some (":" +:+ default "0" (getenv (environ (host o)) "ORRB_DISPLAY")
               +:+ "." +:+ pretty (device self))
    /\ forall name, name <> "DISPLAY" -> env !! name = environ (host o) !! name.
Proof.
  unfold on_run. cbv [mbind act_bind].
  destruct (spawn_server o self) as [[s1 e1] r1] eqn:Hspawn.
  apply spawn_server_outcome in Hspawn.
  assert (Hrest : forall rest,
            (exists s2 r2, connect_attempts o (seq 0 10) s1 = (s2, rest, r2))
            \/ rest = [] ->
            port s1 = port self ->
            Forall (fun e => is_spawn e = false) rest
            /\ forall target,
                 In (ChannelReady target) rest ->
                 target = _get_server_bind_host (host o) +:+ ":"
                          +:+ pretty (port self)).
  { intros rest [(s2 & r2 & Hc)| ->] Hport.
    - apply connect_attempts_dials in Hc. rewrite Hport in Hc.
      rewrite List.Forall_forall in Hc. split.
      + apply List.Forall_forall. intros e He. specialize (Hc e He).
        destruct e; try reflexivity; discriminate.
      + intros target Hin. specialize (Hc _ Hin). cbn in Hc.
        apply String.eqb_eq in Hc. exact Hc.
    - split; [constructor|]. intros target []. }
  destruct Hspawn as [Hno|e Hyes Hcmd|command args environment Hyes Hcmd Hdet
                     |command args environment p Hyes Hcmd Hdet Hp
                     |command args environment e Hyes Hcmd Hdet Hp].
  - (* no server asked for: nothing is spawned *)
    destruct (connect_attempts o (seq 0 10) self) as [[s2 e2] r2] eqn:Hc.
    intros Heq Hin.
    assert (effs = e2) as ->.
    { destruct r2 as [[|]|]; cbv [mret act_ret raise lift] in Heq;
        injection Heq as <- <- <-; rewrite ?app_nil_r; reflexivity. }
    destruct (Hrest e2) as [Hns _]; [eauto|reflexivity|].
    rewrite List.Forall_forall in Hns. specialize (Hns _ Hin). discriminate.
  - intros [= <- <- <-] [].
  - destruct (connect_attempts o (seq 0 10) self) as [[s2 e2] r2] eqn:Hc.
    intros Heq Hin.
    assert (effs = Prompt (command :: args) :: e2) as ->.
    { destruct r2 as [[|]|]; cbv [mret act_ret raise lift] in Heq;
        injection Heq as <- <- <-; rewrite ?app_nil_r; reflexivity. }
    destruct (Hrest e2) as [Hns _]; [eauto|reflexivity|].
    destruct Hin as [Hin|Hin]; [discriminate|].
    rewrite List.Forall_forall in Hns. specialize (Hns _ Hin). discriminate.
  - destruct (connect_attempts o (seq 0 10) _) as [[s2 e2] r2] eqn:Hc.
    intros Heq Hin.
    assert (effs = Spawn (command :: args) (dirname command)
                     (environment ∪ environ (host o)) :: e2) as ->.
    { destruct r2 as [[|]|]; cbv [mret act_ret raise lift] in Heq;
        injection Heq as <- <- <-; rewrite ?app_nil_r; reflexivity. }
    destruct (Hrest e2) as [Hns Htarget]; [eauto|reflexivity|].
    destruct Hin as [Hin|Hin];
      [|rewrite List.Forall_forall in Hns; specialize (Hns _ Hin);
        discriminate].
    injection Hin as <- <- <-.
    destruct (server_commandline_args _ _ _ _ _ Hcmd)
      as (Hb & Hh & Hpo & Hpid & ->).
    exists command, args, e2. repeat split; try assumption; try reflexivity.
    + apply lookup_union_Some_l. apply lookup_singleton_eq.
    + intros name Hname. rewrite lookup_union_r; [reflexivity|].
      apply lookup_singleton_ne. congruence.
  - intros [= <- <- <-] Hin.
    destruct Hin as [Hin|[]]. injection Hin as <- <- <-.
    destruct (server_commandline_args _ _ _ _ _ Hcmd)
      as (Hb & Hh & Hpo & Hpid & ->).
    exists command, args, []. repeat split; try assumption; try reflexivity.
    + constructor.
    + intros target [].
    + apply lookup_union_Some_l. apply lookup_singleton_eq.
    + intros name Hname. rewrite lookup_union_r; [reflexivity|].
      apply lookup_singleton_ne. congruence.
Qed.

Lemma server_commandline_complete (hst : Host) (self : Worker) :
  if complete (base_config self)
  then is_ok (_server_commandline hst self) = true
  else _server_commandline hst self = Raise AssertionError.
Proof.
  unfold complete, _server_commandline. cbv [mbind result_bind py_assert].
  destruct (truthy_path (renderer_local_binary (base_config self)));
    [|reflexivity].
  destruct (truthy_path (model_xml_path (base_config self))); [|reflexivity].
  destruct (truthy_path (model_mapping_path (base_config self)));
    [|reflexivity].
  destruct (truthy_path (renderer_config_path (base_config self)));
    reflexivity.
Qed.

(** X11. What [on_run] does about a server process.  Asked not to spawn, or
    with [ORRB_DETACHED] set, it spawns nothing and leaves the process
    handle alone.  Asked to spawn with one of the four settings of the
    command line missing or empty, it raises [AssertionError] before doing
    anything.  When it spawns and the process starts, the worker holds that
    process whether or not the connection then succeeds, and [on_shutdown]
    terminates, kills and waits for exactly it; when the process does not
    start, [on_run] raises that error without a connection attempt. *)
Theorem on_run_owns_what_it_spawns (o : Outside) (self self' : Worker)
    (effs : list effect) (r : result unit) :
  on_run o self = (self', effs, r) ->
  (spawn_servers (base_config self) = false
   \/ (complete (base_config self) = true
       /\ truthy_str (getenv (environ (host o)) "ORRB_DETACHED") = true) ->
   Forall (fun e => is_spawn e = false) effs
   /\ server_process self' = server_process self)
  /\ (spawn_servers (base_config self) = true ->
      complete (base_config self) = false ->
      self' = self /\ effs = [] /\ r = Raise AssertionError)
  /\ (forall argv cwd env,
        In (Spawn argv cwd env) effs ->
        match popen o argv with
        | Ok p =>
            server_process self' = Some p
            /\ on_shutdown self' = (self', [Terminate p; Kill p; Wait p], Ok tt)
        | Raise e =>
            self' = self /\ r = Raise e /\ effs = [Spawn argv cwd env]
        end).
Proof.
  unfold on_run. cbv [mbind act_bind].
  destruct (spawn_server o self) as [[s1 e1] r1] eqn:Hspawn.
  apply spawn_server_outcome in Hspawn.
  pose proof (server_commandline_complete (host o) self) as Hcomplete.
  assert (Hdial : forall s2 e2 r2,
            connect_attempts o (seq 0 10) s1 = (s2, e2, r2) ->
            Forall (fun e => is_spawn e = false) e2
            /\ server_process s2 = server_process s1).
  { intros s2 e2 r2 Hc.
    pose proof (connect_attempts_dials _ _ _ _ _ _ Hc) as Hd.
    destruct (connect_attempts_quiet _ _ _ _ _ _ Hc) as (_ & Hsp & _).
    split; [|exact Hsp].
    eapply Forall_impl; [exact Hd|]. intros e He.
    destruct e; try reflexivity; discriminate. }
  destruct Hspawn as [Hno|e Hyes Hcmd|command args environment Hyes Hcmd Hdet
                     |command args environment p Hyes Hcmd Hdet Hp
                     |command args environment e Hyes Hcmd Hdet Hp].
  - destruct (connect_attempts o (seq 0 10) self) as [[s2 e2] r2] eqn:Hc.
    destruct (Hdial _ _ _ eq_refl) as [Hns Hsp].
    intros Heq.
    assert (effs = e2 /\ self' = s2) as [-> ->].
    { destruct r2 as [[|]|]; cbv [mret act_ret raise lift] in Heq;
        injection Heq as <- <- <-; rewrite ?app_nil_r; split; reflexivity. }
    split; [|split].
    + intros _. split; assumption.
    + congruence.
    + intros argv cwd env Hin.
      rewrite List.Forall_forall in Hns. specialize (Hns _ Hin). discriminate.
  - intros [= <- <- <-].
    rewrite Hcmd in Hcomplete.
    destruct (complete (base_config self)) eqn:Hco; [discriminate|].
    injection Hcomplete as ->.
    split; [|split].
    + intros [H|[H _]]; congruence.
    + intros _ _. repeat split.
    + intros argv cwd env [].
  - destruct (connect_attempts o (seq 0 10) self) as [[s2 e2] r2] eqn:Hc.
    destruct (Hdial _ _ _ eq_refl) as [Hns Hsp].
    intros Heq.
    assert (effs = Prompt (command :: args) :: e2 /\ self' = s2) as [-> ->].
    { destruct r2 as [[|]|]; cbv [mret act_ret raise lift] in Heq;
        injection Heq as <- <- <-; rewrite ?app_nil_r; split; reflexivity. }
    rewrite Hcmd in Hcomplete.
    destruct (complete (base_config self)) eqn:Hco; [|discriminate].
    split; [|split].
    + intros _. split; [|exact Hsp].
      apply List.Forall_cons; [reflexivity|exact Hns].
    + discriminate.
    + intros argv cwd env [Hin|Hin]; [discriminate|].
      rewrite List.Forall_forall in Hns. specialize (Hns _ Hin). discriminate.
  - destruct (connect_attempts o (seq 0 10) _) as [[s2 e2] r2] eqn:Hc.
    destruct (Hdial _ _ _ eq_refl) as [Hns Hsp].
    intros Heq.
    assert (effs = Spawn (command :: args) (dirname command)
                     (environment ∪ environ (host o)) :: e2
            /\ self' = s2) as [-> ->].
    { destruct r2 as [[|]|]; cbv [mret act_ret raise lift] in Heq;
        injection Heq as <- <- <-; rewrite ?app_nil_r; split; reflexivity. }
    rewrite Hcmd in Hcomplete.
    destruct (complete (base_config self)) eqn:Hco; [|discriminate].
    split; [|split].
    + intros [H|[_ H]]; congruence.
    + discriminate.
    + intros argv cwd env [Hin|Hin];
        [|rewrite List.Forall_forall in Hns; specialize (Hns _ Hin);
          discriminate].
      injection Hin as <- <- <-. rewrite Hp.
      cbn in Hsp. split; [exact Hsp|].
      rewrite on_shutdown_effects. unfold shutdown_effects. rewrite Hsp.
      reflexivity.
  - intros [= <- <- <-].
    rewrite Hcmd in Hcomplete.
    destruct (complete (base_config self)) eqn:Hco; [|discriminate].
    split; [|split].
    + intros [H|[_ H]]; congruence.
    + discriminate.
    + intros argv cwd env [Hin|[]]. injection Hin as <- <- <-.
      rewrite Hp. repeat split.
Qed.

Lemma on_run_spawns_what_it_dials_witness :
  exists self' effs args,
    on_run (an_outside 0) a_spawning_worker = (self', effs, Ok tt)
    /\ effs = [Spawn ("/opt/orrb/run.sh" :: args) "/opt/orrb"
                 {[ "DISPLAY" := ":0.1" ]};
               ChannelReady "node:7001"]
    /\ In "--render_server.host=node" args
    /\ In "--render_server.port=7001" args.
Proof.
  destruct (on_run (an_outside 0) a_spawning_worker) as [[self' effs] r]
    eqn:Hrun.
  assert (Hin : exists argv cwd env, In (Spawn argv cwd env) effs).
  { vm_compute in Hrun. injection Hrun as <- <- <-.
    eexists _, _, _. left. reflexivity. }
  destruct Hin as (argv & cwd & env & Hin).
  destruct (on_run_spawns_what_it_dials _ _ _ _ _ _ _ _ Hrun Hin)
    as (binary & args & rest & Heffs & _ & _ & Hargv & _ & Hh & Hp & _).
  vm_compute in Hrun. injection Hrun as <- <- <-.
  injection Heffs as <- <- <- <-. injection Hargv as <- <-.
  eexists _, _, _. split; [reflexivity|]. split; [reflexivity|].
  split; [exact Hh|exact Hp].
Defined.

Lemma on_run_owns_what_it_spawns_witness :
  exists self' effs,
    on_run (an_outside 0) a_spawning_worker = (self', effs, Ok tt)
    /\ server_process self' = Some 1%nat
    /\ on_shutdown self'
       = (self', [Terminate 1%nat; Kill 1%nat; Wait 1%nat], Ok tt).
Proof.
  destruct (on_run (an_outside 0) a_spawning_worker) as [[self' effs] r]
    eqn:Hrun.
  destruct (on_run_owns_what_it_spawns _ _ _ _ _ Hrun) as (_ & _ & Hown).
  assert (Hin : exists argv cwd env, In (Spawn argv cwd env) effs).
  { vm_compute in Hrun. injection Hrun as <- <- <-.
    eexists _, _, _. left. reflexivity. }
  destruct Hin as (argv & cwd & env & Hin).
  specialize (Hown argv cwd env Hin). cbn in Hown.
  exists self', effs. split; [|exact Hown].
  vm_compute in Hrun. injection Hrun as <- <- <-. reflexivity.
Defined.

(* ================================================================== *)
(** ** More of the code: [create_workers] and [RemoteRenderer.__init__] *)
(* ================================================================== *)

Lemma slice_to_take {A} (l : list A) (n : Z) :
  exists k, (k <= length l)%nat /\ slice_to l n = take k l
            /\ (0 <= n -> k = Nat.min (Z.to_nat n) (length l)).
Proof.
  unfold slice_to. destruct (0 <=? n) eqn:E.
  - exists (Nat.min (Z.to_nat n) (length l)). split; [lia|]. split; [|auto].
    destruct (decide (Z.to_nat n <= length l)%nat).
    + rewrite Nat.min_l by lia. reflexivity.
    + rewrite Nat.min_r by lia. rewrite !firstn_all2 by lia. reflexivity.
  - exists (Nat.min (Z.to_nat (Z.of_nat (length l) + n)) (length l)).
    split; [lia|]. split; [|lia].
    rewrite Nat.min_l by lia. reflexivity.
Qed.

Lemma create_workers_prefix (environ : gmap string string)
    (server_configs : list (Z * Z)) (base_config : RemoteRendererConfig) :
  (forall workers,
     create_workers environ server_configs base_config = Ok workers ->
     exists n,
       (n <= length server_configs)%nat
       /\ workers
          = map (fun '(device, port) => new_worker device port base_config)
              (take n server_configs)).
Proof.
  unfold create_workers. cbv [mbind result_bind py_assert].
  destruct server_configs as [|c cfgs]; [discriminate|].
  rewrite bool_decide_eq_true_2 by (cbn; lia).
  destruct (truthy_str (getenv environ "ORRB_MINIMAL")).
  - destruct (py_int _) as [k|e]; [|discriminate]. intros workers [= <-].
    destruct (slice_to_take (c :: cfgs) k) as (n & Hn & Hs & _).
    exists n. rewrite Hs. split; [exact Hn|reflexivity].
  - intros workers [= <-]. exists (length (c :: cfgs)).
    split; [lia|]. rewrite firstn_all. reflexivity.
Qed.

(** X12. Whatever [ORRB_MINIMAL] holds, [create_workers] makes its workers
    from a leading part of the list of pairs, in order, one worker per pair,
    each unconnected, without a process, at version 0 and with the
    configuration given; a positive [ORRB_MINIMAL] of [k] keeps the first
    [k] pairs (all of them when there are fewer) and so at least one.  It
    fails only on an empty list ([AssertionError]) and on an [ORRB_MINIMAL]
    that is not an integer ([ValueError]). *)
Theorem create_workers_takes_leading_pairs (environ : gmap string string)
    (server_configs : list (Z * Z)) (base_config : RemoteRendererConfig) :
  (forall workers,
     create_workers environ server_configs base_config = Ok workers ->
     exists n,
       (n <= length server_configs)%nat
       /\ workers
          = map (fun '(device, port) =>
                   mkWorker false device port base_config None None 0)
              (take n server_configs)
       /\ forall v k,
            getenv environ "ORRB_MINIMAL" = Some v -> py_int v = Ok k ->
            0 < k ->
            n = Nat.min (Z.to_nat k) (length server_configs)
            /\ workers <> [])
  /\ (forall e,
        create_workers environ server_configs base_config = Raise e ->
        (e = AssertionError /\ server_configs = [])
        \/ (e = ValueError /\ server_configs <> []
            /\ exists v, getenv environ "ORRB_MINIMAL" = Some v
                         /\ v <> EmptyString
                         /\ py_int v = Raise ValueError)).
Proof.
  unfold create_workers. cbv [mbind result_bind py_assert].
  destruct server_configs as [|c cfgs].
  { split; [discriminate|]. intros e [= <-]. left. split; reflexivity. }
  rewrite bool_decide_eq_true_2 by (cbn; lia).
  destruct (getenv environ "ORRB_MINIMAL") as [v|] eqn:Hv; cbn [truthy_str].
  - destruct v as [|ch v]; cbn [default from_option id].
    + split; [|discriminate]. intros workers [= <-].
      exists (length (c :: cfgs)). split; [lia|].
      split; [rewrite firstn_all; reflexivity|].
      intros v k Hv' Hk. assert (v = EmptyString) as -> by congruence.
      vm_compute in Hk. discriminate Hk.
    + destruct (py_int (String ch v)) as [k|e'] eqn:Hint; cbv beta iota.
      * split; [|discriminate]. intros workers [= <-].
        destruct (slice_to_take (c :: cfgs) k) as (n & Hn & Hs & Hk).
        exists n. split; [exact Hn|]. rewrite Hs. split; [reflexivity|].
        intros v' k' [= <-] Hk' Hpos. rewrite Hint in Hk'.
        injection Hk' as <-. split; [apply Hk; lia|].
        rewrite (Hk ltac:(lia)).
        destruct (Z.to_nat k) as [|m] eqn:Hm; [lia|]. discriminate.
      * split; [discriminate|]. intros e [= <-]. right.
        assert (e' = ValueError) as ->.
        { unfold py_int in Hint. repeat case_match; congruence. }
        split; [reflexivity|]. split; [discriminate|].
        exists (String ch v). split; [reflexivity|].
        split; [discriminate|exact Hint].
  - split; [|discriminate]. intros workers [= <-].
    exists (length (c :: cfgs)). split; [lia|].
    split; [rewrite firstn_all; reflexivity|]. discriminate.
Qed.

Lemma create_workers_takes_leading_pairs_witness :
  create_workers {[ "ORRB_MINIMAL" := "2" ]}
    [(0, 7000); (1, 7001); (0, 7002)] a_config
  = Ok [new_worker 0 7000 a_config; new_worker 1 7001 a_config].
Proof.
  destruct (create_workers {[ "ORRB_MINIMAL" := "2" ]}
              [(0, 7000); (1, 7001); (0, 7002)] a_config)
    as [workers|e] eqn:H; [|vm_compute in H; discriminate].
  destruct (proj1 (create_workers_takes_leading_pairs _ _ _) workers H)
    as (n & _ & -> & Hn).
  destruct (Hn "2" 2) as [-> _]; [reflexivity|reflexivity|lia|].
  reflexivity.
Defined.

(** X13. A renderer that was constructed starts at version 0 with the
    configuration loaded, nothing queued and no thread; its workers, all
    unstarted, stand for a leading part of the server list in order, and
    they all hold one copy of the caller's configuration that differs from
    it at most in the local binary, which is the one given or else the one
    [get_renderer_executable] finds for the version.  When that look-up
    fails the construction fails with its error, whatever the server list. *)
Theorem new_renderer_shares_one_config (hst : Host) (loaded : RendererConfig)
    (server_configs : list (Z * Z)) (base_config : RemoteRendererConfig)
    (n_callers : nat) :
  (forall s,
     new_renderer hst loaded server_configs base_config n_callers = Ok s ->
     exists binary n,
       (renderer_local_binary base_config = Some binary
        \/ (renderer_local_binary base_config = None
            /\ get_renderer_executable hst (renderer_version base_config)
               = Ok binary))
       /\ renderer_config_stamp s = 0
       /\ renderer_config s = loaded
       /\ items (input_queue s) = []
       /\ worker_threads s = []
       /\ history s = []
       /\ workers s
          = map (fun '(device, port) =>
                   mkWorkerThread
                     (mkWorker false device port
                        (with_local_binary binary base_config) None None 0)
                     Unstarted)
              (take n server_configs))
  /\ (forall e,
        renderer_local_binary base_config = None ->
        get_renderer_executable hst (renderer_version base_config) = Raise e ->
        new_renderer hst loaded server_configs base_config n_callers
        = Raise e).
Proof.
  split.
  - intros s. unfold new_renderer. cbv [mbind result_bind].
    destruct (renderer_local_binary base_config) as [b|] eqn:Hb.
    + destruct (create_workers _ _ _) as [ws|e] eqn:Hws; [|discriminate].
      intros [= <-].
      destruct (create_workers_prefix _ _ _ ws Hws) as (n & _ & ->).
      exists b, n. split; [left; reflexivity|]. cbn.
      repeat split. rewrite map_map. apply map_ext. intros [d p]. reflexivity.
    + destruct (get_renderer_executable hst (renderer_version base_config))
        as [b|e] eqn:Hexe; [|discriminate].
      destruct (create_workers _ _ _) as [ws|e] eqn:Hws; [|discriminate].
      intros [= <-].
      destruct (create_workers_prefix _ _ _ ws Hws) as (n & _ & ->).
      exists b, n. split; [right; split; reflexivity|]. cbn.
      repeat split. rewrite map_map. apply map_ext. intros [d p]. reflexivity.
  - intros e Hb Hexe. unfold new_renderer. rewrite Hb, Hexe. reflexivity.
Qed.

Lemma new_renderer_shares_one_config_witness :
  exists s,
    new_renderer an_installed_host a_renderer_config [(0, 7000); (1, 7001)]
      a_versioned_config 1 = Ok s
    /\ map (fun wt => renderer_local_binary (base_config (self wt))) (workers s)
       = [Some "/opt/orrb/StandaloneRenderer-Linux-x86_64-20190514/run.sh";
          Some "/opt/orrb/StandaloneRenderer-Linux-x86_64-20190514/run.sh"].
Proof.
  destruct (new_renderer an_installed_host a_renderer_config
              [(0, 7000); (1, 7001)] a_versioned_config 1)
    as [s|e] eqn:H; [|vm_compute in H; discriminate].
  destruct (proj1 (new_renderer_shares_one_config _ _ _ _ _) s H)
    as (binary & n & _ & _ & _ & _ & _ & _ & Hws).
  exists s. split; [reflexivity|].
  vm_compute in H. injection H as <-. reflexivity.
Defined.

(* ================================================================== *)
(** ** More of the code: [QueueExecutorABC.start] *)
(* ================================================================== *)

(** The loop of [start] over the threads [k .. k + m - 1], none of which
    was started. *)
Lemma start_threads (c m : nat) :
  forall (k : nat) (s : Sys),
    callers s !! c = Some (foldr StartThread (Return None) (seq k m)) ->
    (forall j, (k <= j < k + m)%nat ->
               exists w, workers s !! j = Some (mkWorkerThread w Unstarted)) ->
    exists s',
      exec (replicate m (Advance c)) s = Some s'
      /\ callers s' = <[c := Return None]> (callers s)
      /\ worker_threads s' = worker_threads s
      /\ same_data s s'
      /\ forall j,
           workers s' !! j
           = if decide (k <= j < k + m)%nat
             then entering <$> workers s !! j
             else workers s !! j.
Proof.
  induction m as [|m IH]; intros k s Hc Hw.
  - exists s. cbn in *. split; [reflexivity|].
    split; [symmetry; apply list_insert_id; exact Hc|].
    split; [reflexivity|]. split; [repeat split|].
    intros j. destruct (decide _); [lia|reflexivity].
  - cbn [seq foldr] in Hc.
    destruct (Hw k ltac:(lia)) as [w Hk].
    pose proof (lookup_lt_Some _ _ _ Hc) as Hlt.
    pose proof (lookup_lt_Some _ _ _ Hk) as Hltk.
    set (s1 := with_caller c (foldr StartThread (Return None) (seq (S k) m))
                 (with_worker k (mkWorkerThread w Entering) s)).
    assert (Hstep : step (Advance c) s = Some s1).
    { unfold step. rewrite Hc. cbn [advance]. rewrite Hk. reflexivity. }
    destruct (IH (S k) s1) as (s' & Hexec & Hcs & Hth & Hdata & Hws).
    { cbn. apply list_lookup_insert_eq. exact Hlt. }
    { intros j Hj. cbn. rewrite list_lookup_insert_ne by lia.
      apply Hw. lia. }
    exists s'. split; [cbn [replicate exec]; rewrite Hstep; exact Hexec|].
    split; [rewrite Hcs; cbn; apply list_insert_insert_eq|].
    split; [rewrite Hth; reflexivity|].
    split; [exact Hdata|].
    intros j. rewrite Hws. cbn.
    destruct (decide (j = k)) as [->|Hne].
    + rewrite list_lookup_insert_eq by exact Hltk. rewrite Hk.
      repeat destruct (decide _); try lia; reflexivity.
    + rewrite list_lookup_insert_ne by congruence.
      repeat destruct (decide _); try lia; reflexivity.
Qed.

(** X14. On a renderer just constructed, [start] run by a caller on its own
    takes two operations and one more per worker, none of which waits; it
    leaves one thread per worker, in the order of the workers, each about
    to run [on_run], and touches neither the queues nor the configuration. *)
Theorem start_starts_every_worker (hst : Host) (loaded : RendererConfig)
    (server_configs : list (Z * Z)) (base_config : RemoteRendererConfig)
    (n_callers : nat) (s0 : Sys) (c : nat) :
  new_renderer hst loaded server_configs base_config n_callers = Ok s0 ->
  (c < n_callers)%nat ->
  let n := length (workers s0) in
  exists s,
    exec (invoke c ApiStart (n + 2)) s0 = Some s
    /\ callers s !! c = Some (Return None)
    /\ worker_threads s = seq 0 n
    /\ workers s = map entering (workers s0)
    /\ same_data s0 s.
Proof.
  intros Hnew Hc n.
  destruct (new_renderer_fresh _ _ _ _ _ _ Hnew) as (ws & Hs0).
  assert (Hcall : callers s0 !! c = Some (Return None)).
  { rewrite Hs0. cbn. apply lookup_replicate_2. exact Hc. }
  assert (Hltc : (c < length (callers s0))%nat)
    by (eapply lookup_lt_Some; eassumption).
  set (s2 := with_caller c (foldr StartThread (Return None) (seq 0 n))
               (with_threads (seq 0 n) s0)).
  assert (Hpre : exec [Call c ApiStart; Advance c; Advance c] s0 = Some s2).
  { rewrite (exec_call s0 c _ _ _ Hcall eq_refl). cbn [body start].
    erewrite exec_advance by caller_at Hltc. cbn [advance start].
    erewrite exec_advance by caller_at Hltc. cbn [advance].
    cbn [exec worker_threads with_caller with_threads].
    unfold s2, with_caller, with_threads. cbn.
    rewrite !list_insert_insert_eq. fold n. reflexivity. }
  destruct (start_threads c n 0 s2) as (s & Hexec & Hcs & Hth & Hdata & Hws).
  { cbn. apply list_lookup_insert_eq. exact Hltc. }
  { intros j Hj. cbn. rewrite Hs0. cbn. rewrite lookup_map.
    unfold n in Hj. rewrite Hs0 in Hj. cbn in Hj. rewrite length_map in Hj.
    destruct (lookup_lt_is_Some_2 ws j ltac:(lia)) as [w Hw].
    rewrite Hw. eauto. }
  exists s. split.
  - unfold invoke. replace (n + 2)%nat with (2 + n)%nat by lia.
    rewrite replicate_add.
    change (exec ([Call c ApiStart; Advance c; Advance c]
                  ++ replicate n (Advance c)) s0 = Some s).
    rewrite exec_app, Hpre. exact Hexec.
  - split; [rewrite Hcs; apply list_lookup_insert_eq;
            cbn; rewrite length_insert; exact Hltc|].
    split; [rewrite Hth; reflexivity|].
    split; [|exact Hdata].
    apply list_eq. intros j. rewrite Hws. cbn.
    rewrite (lookup_map entering).
    destruct (decide _) as [Hj|Hj].
    + destruct (workers s0 !! j); reflexivity.
    + rewrite lookup_ge_None_2 by (fold n; lia). reflexivity.
Qed.

Lemma start_starts_every_worker_witness :
  exists s0 s,
    a_pool 1 = Ok s0
    /\ exec (invoke 0 ApiStart 3) s0 = Some s
    /\ map at_pc (workers s) = [Entering]
    /\ worker_threads s = [0%nat].
Proof.
  destruct (a_pool 1) as [s0|e] eqn:Hs0; [|discriminate].
  destruct (start_starts_every_worker a_host a_renderer_config [(0, 7000)]
              a_config 1 s0 0 Hs0 ltac:(lia))
    as (s & Hexec & _ & Hth & Hws & _).
  assert (Hn : length (workers s0) = 1%nat).
  { vm_compute in Hs0. injection Hs0 as <-. reflexivity. }
  rewrite Hn in Hexec, Hth.
  exists s0, s. split; [reflexivity|]. split; [exact Hexec|].
  split; [|exact Hth].
  rewrite Hws. vm_compute in Hs0. injection Hs0 as <-. reflexivity.
Defined.

(* ================================================================== *)
(** ** More of the code: the order of service *)
(* ================================================================== *)

Lemma step_first_in_first_out (l : label) (s s' : Sys) :
  first_in_first_out s -> step l s = Some s' -> first_in_first_out s'.
Proof.
  intros [Hq Hw] Hstep.
  step_cases Hstep.
  all: repeat match goal with
         | H : get _ = Some _ |- _ => apply get_items in H; destruct H as [H ?]
         | H : task_done _ = Ok _ |- _ => apply task_done_items in H; cbn in H
         end.
  all: split; [|intros j; specialize (Hw j); unfold held_by in *];
    cbn [history record with_caller with_worker with_input with_sink
         with_stamp with_config with_threads with_next_task_id input_queue
         workers];
    rewrite ?submitted_app, ?dequeued_app, ?dequeued_by_app, ?served_by_app;
    unfold dequeued_by, served_by; rewrite ?events_by_one;
    cbn [by_worker submitted dequeued served outcomes omap list_omap map app
         fst put items];
    rewrite ?app_nil_r; try assumption.
  all: repeat match goal with
         | H : items _ = _ |- _ => rewrite H in *
         end.
  all: try (rewrite Hq, <- ?app_assoc; reflexivity).
  all: try match goal with
         | Hi : workers _ !! ?i = Some _ |- context [<[?i := _]> _ !! ?j] =>
             pose proof (lookup_lt_Some _ _ _ Hi);
             destruct (decide (i = j)) as [->|Hne];
             [rewrite list_lookup_insert_eq by assumption;
              rewrite ?bool_decide_eq_true_2 by reflexivity
             |rewrite list_lookup_insert_ne by assumption;
              rewrite ?bool_decide_eq_false_2 by assumption]
         end.
  all: cbn [dequeued served outcomes omap list_omap map app fst];
    rewrite ?app_nil_r; try assumption.
  all: match goal with
       | Hi : workers _ !! _ = Some _ |- _ => rewrite Hi in Hw
       end.
  all: unfold holding in *; cbn [at_pc] in *.
  all: repeat match goal with
         | H : at_pc _ = _ |- _ => rewrite H in *
         end.
  all: rewrite ?app_nil_r in *; try assumption.
  all: try (fold (dequeued_by j (history s)); fold (served_by j (history s))).
  all: try (unfold dequeued_by, served_by in *; rewrite Hw;
            rewrite <- ?app_assoc; reflexivity).
Qed.

Lemma step_known_workers (l : label) (s s' : Sys) :
  known_workers s -> step l s = Some s' -> known_workers s'.
Proof.
  intros Hk Hstep. unfold known_workers in *.
  rewrite (step_workers_length l s s' Hstep).
  step_cases Hstep.
  all: cbn [history record with_caller with_worker with_input with_sink
            with_stamp with_config with_threads with_next_task_id];
    try assumption.
  all: apply Forall_app; split; [assumption|].
  all: apply List.Forall_cons; [|apply List.Forall_nil].
  all: intros i Hi; cbn in Hi; try discriminate.
  all: apply bool_decide_eq_true_1 in Hi; subst.
  all: eapply lookup_lt_Some; eassumption.
Qed.

Lemma one_worker_events (h : list event) :
  Forall (fun e => forall i, by_worker i e = true -> (i < 1)%nat) h ->
  dequeued (events_by 0 h) = dequeued h
  /\ outcomes (events_by 0 h) = outcomes h.
Proof.
  induction 1 as [|e h He Hh [IH1 IH2]]; [split; reflexivity|].
  unfold events_by in *. rewrite filter_cons.
  destruct e as [v c|t|c q r|j effs r|j t|j t effs r|j effs]; cbn [by_worker].
  1-3: rewrite decide_False by discriminate; split; assumption.
  all: assert (j = 0%nat) as ->
         by (specialize (He j); cbn in He;
             rewrite bool_decide_eq_true_2 in He by reflexivity;
             specialize (He eq_refl); lia).
  all: rewrite bool_decide_eq_true_2 by reflexivity.
  all: rewrite decide_True by reflexivity.
  all: unfold dequeued, outcomes in *; cbn [omap list_omap].
  all: rewrite ?IH1, ?IH2; split; reflexivity.
Qed.

(** X15. First in, first out.  In every state a renderer can reach by a
    schedule that calls [start] once, with any number of callers and
    workers: the tasks taken from the input queue
    so far are the first ones submitted, in the order of submission, and
    those behind them are still queued in that order; each worker has
    finished the tasks it took in the order it took them, up to the one it
    holds.  With one worker the tasks were therefore served in the order of
    submission. *)
Theorem tasks_are_taken_in_order (hst : Host) (loaded : RendererConfig)
    (server_configs : list (Z * Z)) (base_config : RemoteRendererConfig)
    (n_callers : nat) (s0 s : Sys) (ls : list label) :
  new_renderer hst loaded server_configs base_config n_callers = Ok s0 ->
  starts_once ls ->
  exec ls s0 = Some s ->
  let h := history s in
  submitted h = dequeued h ++ items (input_queue s)
  /\ (forall i, dequeued_by i h = served_by i h ++ held_by i s)
  /\ (length (workers s) = 1%nat ->
      submitted h = served h ++ held_by 0 s ++ items (input_queue s)).
Proof.
  intros Hnew _ Hexec h.
  destruct (new_renderer_fresh _ _ _ _ _ _ Hnew) as (ws & ->).
  assert (Hfifo : first_in_first_out s).
  { eapply (exec_invariant first_in_first_out);
      [apply step_first_in_first_out| |exact Hexec].
    split; [reflexivity|]. intros i. unfold held_by. cbn.
    rewrite lookup_map. destruct (ws !! i); reflexivity. }
  assert (Hknown : known_workers s).
  { eapply (exec_invariant known_workers);
      [apply step_known_workers| |exact Hexec].
    constructor. }
  destruct Hfifo as [Hq Hw]. fold h in Hq, Hw.
  split; [exact Hq|]. split; [exact Hw|].
  intros Hone. unfold known_workers in Hknown. rewrite Hone in Hknown.
  destruct (one_worker_events _ Hknown) as [Hd Hs].
  specialize (Hw 0%nat). unfold dequeued_by, served_by, served in Hw.
  fold h in Hd, Hs. rewrite Hd, Hs in Hw.
  rewrite Hq, Hw, <- app_assoc. reflexivity.
Qed.

Lemma tasks_are_taken_in_order_witness :
  exists s0 s t1 t2,
    a_pool 1 = Ok s0
    /\ exec two_tasks_schedule s0 = Some s
    /\ submitted (history s) = [t1; t2]
    /\ served (history s) = [t1; t2].
Proof.
  destruct (a_pool 1) as [s0|e] eqn:Hs0; [|discriminate].
  destruct (exec two_tasks_schedule s0) as [s|] eqn:Hs;
    [|vm_compute in Hs0; injection Hs0 as <-; vm_compute in Hs; discriminate].
  assert (Honce : starts_once two_tasks_schedule)
    by (unfold starts_once; vm_compute; lia).
  destruct (tasks_are_taken_in_order a_host a_renderer_config [(0, 7000)]
              a_config 1 s0 s two_tasks_schedule Hs0 Honce Hs)
    as (_ & _ & Hone).
  assert (Hlen : length (workers s) = 1%nat).
  { rewrite (exec_workers_length _ _ _ Hs).
    vm_compute in Hs0. injection Hs0 as <-. reflexivity. }
  specialize (Hone Hlen).
  assert (Hrest : held_by 0 s = [] /\ items (input_queue s) = []
                  /\ exists t1 t2, submitted (history s) = [t1; t2]).
  { vm_compute in Hs0. injection Hs0 as <-. vm_compute in Hs.
    injection Hs as <-. repeat split. eexists _, _. reflexivity. }
  destruct Hrest as (Hheld & Hitems & t1 & t2 & Hsub).
  rewrite Hheld, Hitems, !app_nil_r in Hone.
  exists s0, s, t1, t2. split; [reflexivity|]. split; [exact Hs|].
  split; [exact Hsub|]. rewrite <- Hone. exact Hsub.
Defined.

(* ================================================================== *)
(** ** More of the code: [render_batch], end to end *)
(* ================================================================== *)

Lemma exec_work (s : Sys) (i : nat) (o : Outside) (wt : WorkerThread)
    (ls : list label) :
  workers s !! i = Some wt ->
  exec (Work i o :: ls) s
  = match work i o wt s with Some s1 => exec ls s1 | None => None end.
Proof. intros H. cbn. rewrite H. reflexivity. Qed.

(** X16. From caller to worker and back.  With nothing queued, a worker
    polling, and a server that answers, [render_batch] run by an idle caller
    returns what [process] makes of the workload stamped with the version
    and the configuration the renderer holds; the worker is left with the
    state [process] gave it, and both queues are empty again. *)
Theorem render_batch_returns_what_process_makes (s : Sys) (c i : nat)
    (p : prog) (wt : WorkerThread) (o : Outside) (workload result : Workload)
    (w' : Worker) (effs : list effect) :
  callers s !! c = Some p ->
  idle p = true ->
  workers s !! i = Some wt ->
  at_pc wt = Polling ->
  items (input_queue s) = [] ->
  items (sink s sync_queue) = [] ->
  process o
    (mkWorkloadWithConfig (renderer_config_stamp s) (renderer_config s)
       workload)
    (self wt)
  = (w', effs, Ok result) ->
  exists s',
    exec (served_at_once c i o workload) s = Some s'
    /\ callers s' !! c = Some (Return (Some result))
    /\ workers s' !! i = Some (mkWorkerThread w' Checking)
    /\ items (input_queue s') = []
    /\ items (sink s' sync_queue) = []
    /\ exists t,
         history s'
         = history s ++ [Submitted t; Dequeued i t; Served i t effs (Ok result);
                         CallerGot c sync_queue result].
Proof.
  intros Hc Hidle Hi Hpc Hq Hsink Hproc.
  pose proof (lookup_lt_Some _ _ _ Hc) as Hlt.
  pose proof (lookup_lt_Some _ _ _ Hi) as Hlti.
  destruct wt as [w at_]. cbn in Hpc, Hproc. subst at_.
  eexists. split.
  { unfold served_at_once, invoke. cbn [replicate app].
    rewrite (exec_call s c p _ _ Hc Hidle).
    cbn [body render_batch render_batch_async execute].
    caller_runs Hlt. caller_runs Hlt. caller_runs Hlt. state_simpl.
    (* the worker takes the task *)
    erewrite exec_work by (state_simpl; exact Hi).
    unfold work at 1. cbn [at_pc self]. state_simpl.
    unfold put at 1, get at 1. cbn [items]. rewrite Hq. cbn [app].
    (* and serves it *)
    erewrite exec_work
      by (state_simpl; apply list_lookup_insert_eq; exact Hlti).
    unfold work at 1. cbn [at_pc self Pool.workload]. rewrite Hproc.
    state_simpl. cbn [unfinished_tasks task_done destination].
    (* the caller takes the result *)
    erewrite exec_advance by caller_at Hlt. cbn [advance].
    unfold sink at 1. state_simpl.
    rewrite lookup_insert_eq. cbn [default from_option id].
    unfold sink at 1, put at 1, get at 1. cbn [items]. state_simpl.
    fold (sink s sync_queue). rewrite Hsink. cbn [app].
    erewrite exec_advance by caller_at Hlt. cbn [advance].
    unfold sink at 1. state_simpl.
    rewrite lookup_insert_eq.
    cbn [default from_option id task_done unfinished_tasks].
    cbn [exec]. reflexivity. }
  cbn [callers workers input_queue history record with_sink with_worker
       with_input with_caller with_next_task_id].
  split; [rewrite list_lookup_insert_eq
            by (rewrite ?length_insert; exact Hlt); reflexivity|].
  split; [rewrite list_insert_insert_eq;
          apply list_lookup_insert_eq; exact Hlti|].
  split; [reflexivity|].
  split; [unfold sink; cbn; rewrite lookup_insert_eq; reflexivity|].
  eexists. rewrite <- !app_assoc. reflexivity.
Qed.

Lemma render_batch_returns_what_process_makes_witness :
  exists s0 s s' result,
    a_pool 1 = Ok s0
    /\ exec (invoke 0 ApiStart 3 ++ [Work 0 (an_outside 0)]) s0 = Some s
    /\ exec (served_at_once 0 0 (an_outside 0) a_seeded_workload) s = Some s'
    /\ callers s' !! 0%nat = Some (Return (Some result))
    /\ result !! "seeds" = Some (VInts [7; 8]).
Proof.
  destruct (a_pool 1) as [s0|e] eqn:Hs0; [|discriminate].
  destruct (exec (invoke 0 ApiStart 3 ++ [Work 0 (an_outside 0)]) s0)
    as [s|] eqn:Hs;
    [|vm_compute in Hs0; injection Hs0 as <-; vm_compute in Hs; discriminate].
  assert (Hfacts :
    exists w,
      callers s !! 0%nat = Some (Return None)
      /\ workers s !! 0%nat = Some (mkWorkerThread w Polling)
      /\ items (input_queue s) = []
      /\ items (sink s sync_queue) = []
      /\ exists w' effs result,
           process (an_outside 0)
             (mkWorkloadWithConfig (renderer_config_stamp s)
                (renderer_config s) a_seeded_workload) w
           = (w', effs, Ok result)
           /\ result !! "seeds" = Some (VInts [7; 8])).
  { vm_compute in Hs0. injection Hs0 as <-. vm_compute in Hs.
    injection Hs as <-. eexists. split; [reflexivity|].
    split; [reflexivity|]. split; [reflexivity|]. split; [reflexivity|].
    eexists _, _, _. split; [vm_compute; reflexivity|reflexivity]. }
  destruct Hfacts as (w & Hc & Hw & Hq & Hsink & w' & effs & result & Hp & Hr).
  destruct (render_batch_returns_what_process_makes s 0 0 (Return None)
              (mkWorkerThread w Polling) (an_outside 0) a_seeded_workload
              result w' effs Hc eq_refl Hw eq_refl Hq Hsink Hp)
    as (s' & Hexec & Hret & _).
  exists s0, s, s', result. split; [reflexivity|]. split; [exact Hs|].
  split; [exact Hexec|]. split; [exact Hret|exact Hr].
Defined.

(* ================================================================== *)
(** ** More of the code: stopped workers *)
(* ================================================================== *)

(** X17. A pool none of whose worker threads is running, with every caller
    waiting for a result on an empty queue, is stuck for good: no caller
    and no worker can take a step.  So [render_batch] never returns once the
    workers have died, and neither before they are started. *)
Theorem waiting_on_stopped_workers_is_stuck (s : Sys) :
  Forall (fun wt => stopped (at_pc wt) = true) (workers s) ->
  Forall (waits_in_vain s) (callers s) ->
  (forall l, step l s = None)
  /\ forall ls s', exec ls s = Some s' -> ls = [] /\ s' = s.
Proof.
  intros Hw Hc.
  assert (Hstep : forall l, step l s = None).
  { intros [c a|c|i o]; unfold step.
    - destruct (callers s !! c) as [p|] eqn:Hp; [|reflexivity].
      rewrite List.Forall_forall in Hc.
      destruct (Hc p) as (q & k & -> & _); [|reflexivity].
      apply list_elem_of_In. eapply list_elem_of_lookup_2. eassumption.
    - destruct (callers s !! c) as [p|] eqn:Hp; [|reflexivity].
      rewrite List.Forall_forall in Hc.
      destruct (Hc p) as (q & k & -> & Hq).
      { apply list_elem_of_In. eapply list_elem_of_lookup_2. eassumption. }
      cbn. unfold get. rewrite Hq. reflexivity.
    - destruct (workers s !! i) as [wt|] eqn:Hi; [|reflexivity].
      rewrite List.Forall_forall in Hw.
      assert (Hst : stopped (at_pc wt) = true).
      { apply Hw. apply list_elem_of_In. eapply list_elem_of_lookup_2.
        eassumption. }
      unfold work. destruct (at_pc wt); try discriminate; reflexivity. }
  split; [exact Hstep|].
  intros [|l ls] s'; cbn.
  - intros [= <-]. split; reflexivity.
  - rewrite Hstep. discriminate.
Qed.

Lemma waiting_on_stopped_workers_is_stuck_witness :
  exists s0 s,
    a_pool 1 = Ok s0
    /\ exec stuck_schedule s0 = Some s
    /\ failed (history s) <> []
    /\ forall l, step l s = None.
Proof.
  destruct (a_pool 1) as [s0|e] eqn:Hs0; [|discriminate].
  destruct (exec stuck_schedule s0) as [s|] eqn:Hs;
    [|vm_compute in Hs0; injection Hs0 as <-; vm_compute in Hs; discriminate].
  exists s0, s. split; [reflexivity|]. split; [exact Hs|].
  vm_compute in Hs0. injection Hs0 as <-. vm_compute in Hs.
  injection Hs as <-.
  split; [discriminate|].
  apply waiting_on_stopped_workers_is_stuck.
  - cbn. repeat constructor.
  - cbn. apply List.Forall_cons; [|apply List.Forall_nil].
    eexists _, _. split; reflexivity.
Defined.

Lemma entered_once_app (i : nat) (h : list event) (ev : event) :
  entered_once i h -> is_entered ev = false ->
  entered_once i (h ++ [ev]).
Proof.
  intros (effs & u & rest & Hh & Hrest) Hev.
  destruct (by_worker i ev) eqn:Hby.
  - exists effs, u, (rest ++ [ev]). split.
    + rewrite events_by_app, events_by_one, Hh, Hby. reflexivity.
    + apply Forall_app. split; [assumption|].
      apply List.Forall_cons; [assumption|apply List.Forall_nil].
  - exists effs, u, rest. split; [|assumption].
    rewrite events_by_app, events_by_one, Hh, Hby. apply app_nil_r.
Qed.

Lemma events_by_other (i : nat) (h : list event) (ev : event) :
  by_worker i ev = false -> events_by i (h ++ [ev]) = events_by i h.
Proof.
  intros Hev. rewrite events_by_app, events_by_one, Hev. apply app_nil_r.
Qed.

(** The worker [i] recorded one more event, which is no entry. *)
Ltac one_more_event Hall :=
  let effs := fresh "effs" in
  let u := fresh "u" in
  let rest := fresh "rest" in
  let Hh := fresh "Hh" in
  let Hrest := fresh "Hrest" in
  destruct Hall as (effs & u & rest & Hh & Hrest);
  eexists effs, u, (rest ++ [_]); split;
  [rewrite events_by_app, events_by_one, Hh; cbn [by_worker];
   rewrite bool_decide_eq_true_2 by reflexivity; reflexivity
  |apply Forall_app; split; [assumption|];
   apply List.Forall_cons; [reflexivity|apply List.Forall_nil]].

Lemma step_start_up_seen (l : label) (s s' : Sys) :
  (forall i, start_up_seen i s) -> step l s = Some s' ->
  forall i, start_up_seen i s'.
Proof.
  intros Hall Hstep i. specialize (Hall i).
  step_cases Hstep.
  all: unfold start_up_seen, entered_once in *.
  all: cbn [history record with_caller with_worker with_input with_sink
            with_stamp with_config with_threads with_next_task_id workers].
  all: try assumption.
  (* a caller recorded an event that is no worker's *)
  all: try (rewrite events_by_other by reflexivity; assumption).
  (* a worker moved, or a caller touched one *)
  all: try match goal with
       | Hj : workers _ !! ?j = Some _ |- _ =>
           pose proof (lookup_lt_Some _ _ _ Hj) as Hlt;
           destruct (decide (j = i)) as [->|Hne];
           [rewrite list_lookup_insert_eq by exact Hlt; rewrite Hj in Hall
           |rewrite list_lookup_insert_ne by assumption]
       end.
  all: cbn [at_pc self] in *.
  all: repeat match goal with
         | H : at_pc _ = _ |- _ => rewrite H in *
         end.
  all: try assumption.
  (* another worker recorded an event *)
  all: try (rewrite events_by_other
              by (cbn; apply bool_decide_eq_false_2; assumption);
            assumption).
  (* this worker came through [on_run], or failed in it *)
  all: try (eexists _, _, []; split;
            [rewrite events_by_app, events_by_one, Hall; cbn [by_worker];
             rewrite bool_decide_eq_true_2 by reflexivity; reflexivity
            |constructor]).
  all: try (left; eexists;
            rewrite events_by_app, events_by_one, Hall; cbn [by_worker];
            rewrite bool_decide_eq_true_2 by reflexivity; reflexivity).
  (* this worker recorded another event *)
  all: try (one_more_event Hall).
  all: right; one_more_event Hall.
Qed.

(** X18. A worker whose [on_run] raised has done nothing else and never
    will: in every state a renderer can reach by a schedule that calls
    [start] once, a worker with a failed start-up in the trace has died with
    that error, the failed start-up is its only event, and so it has taken
    no task, served none and never run [on_shutdown]. *)
Theorem failed_start_up_is_final (hst : Host) (loaded : RendererConfig)
    (server_configs : list (Z * Z)) (base_config : RemoteRendererConfig)
    (n_callers : nat) (s0 s : Sys) (ls : list label) (i : nat)
    (effs : list effect) (e : exn) :
  new_renderer hst loaded server_configs base_config n_callers = Ok s0 ->
  starts_once ls ->
  exec ls s0 = Some s ->
  In (Entered i effs (Raise e)) (history s) ->
  events_by i (history s) = [Entered i effs (Raise e)]
  /\ dequeued_by i (history s) = []
  /\ served_by i (history s) = []
  /\ exists wt, workers s !! i = Some wt /\ at_pc wt = Died e.
Proof.
  intros Hnew _ Hexec Hin.
  destruct (new_renderer_fresh _ _ _ _ _ _ Hnew) as (ws & ->).
  assert (Hseen : forall j, start_up_seen j s).
  { eapply (exec_invariant (fun s => forall j, start_up_seen j s));
      [apply step_start_up_seen| |exact Hexec].
    intros j. unfold start_up_seen. cbn. rewrite lookup_map.
    destruct (ws !! j); reflexivity. }
  specialize (Hseen i). unfold start_up_seen in Hseen.
  fold (entered_once i (history s)) in Hseen.
  assert (Hby : In (Entered i effs (Raise e)) (events_by i (history s))).
  { apply list_elem_of_In. unfold events_by. apply list_elem_of_filter.
    split; [cbn; apply bool_decide_eq_true_2; reflexivity|].
    apply list_elem_of_In. exact Hin. }
  assert (Honce : ~ entered_once i (history s)).
  { intros (effs' & u & rest & Hh & Hrest). rewrite Hh in Hby.
    destruct Hby as [Hby|Hby]; [discriminate|].
    rewrite List.Forall_forall in Hrest. specialize (Hrest _ Hby).
    discriminate. }
  destruct (workers s !! i) as [wt|] eqn:Hi;
    [|rewrite Hseen in Hby; destruct Hby].
  destruct (at_pc wt) eqn:Hpc;
    try (rewrite Hseen in Hby; destruct Hby); try contradiction.
  destruct Hseen as [[effs' Hh]|Hh]; [|contradiction].
  rewrite Hh in Hby. destruct Hby as [Hby|[]]. injection Hby as <- <-.
  unfold dequeued_by, served_by. rewrite Hh.
  repeat split. exists wt. split; [reflexivity|exact Hpc].
Qed.

Lemma failed_start_up_is_final_witness :
  exists s0 s effs e,
    a_pool 1 = Ok s0
    /\ exec no_server_schedule s0 = Some s
    /\ In (Entered 0 effs (Raise e)) (history s)
    /\ dequeued_by 0 (history s) = []
    /\ length (items (input_queue s)) = 1%nat.
Proof.
  destruct (a_pool 1) as [s0|e] eqn:Hs0; [|discriminate].
  destruct (exec no_server_schedule s0) as [s|] eqn:Hs;
    [|vm_compute in Hs0; injection Hs0 as <-; vm_compute in Hs; discriminate].
  assert (Hin : exists effs e,
            In (Entered 0 effs (Raise e)) (history s)
            /\ length (items (input_queue s)) = 1%nat).
  { vm_compute in Hs0. injection Hs0 as <-. vm_compute in Hs.
    injection Hs as <-. eexists _, _. split; [left; reflexivity|reflexivity]. }
  destruct Hin as (effs & e & Hin & Hq).
  destruct (failed_start_up_is_final a_host a_renderer_config [(0, 7000)]
              a_config 1 s0 s no_server_schedule 0 effs e Hs0)
    as (_ & Hd & _).
  - unfold starts_once. vm_compute. lia.
  - exact Hs.
  - exact Hin.
  - exists s0, s, effs, e. repeat split; assumption.
Defined.

(* ================================================================== *)
(** ** More of the code: [QueueExecutorABC.shutdown] *)
(* ================================================================== *)

(** A step of a worker keeps every flag, and every thread that had
    finished. *)
Lemma work_keeps_flags (i : nat) (o : Outside) (s s' : Sys) :
  step (Work i o) s = Some s' ->
  length (workers s') = length (workers s)
  /\ worker_threads s' = worker_threads s
  /\ callers s' = callers s
  /\ forall j wt,
       workers s !! j = Some wt ->
       exists wt',
         workers s' !! j = Some wt'
         /\ should_shutdown (self wt') = should_shutdown (self wt)
         /\ (finished (at_pc wt) = true -> finished (at_pc wt') = true).
Proof.
  intros Hstep.
  split; [eapply step_workers_length; eassumption|].
  step_cases Hstep. all: hooks_quiet.
  all: cbn [workers worker_threads callers record with_caller with_worker
            with_input with_sink with_stamp with_config with_threads
            with_next_task_id].
  all: split; [reflexivity|]; split; [reflexivity|]; intros j wt Hj.
  all: match goal with
       | Hi : workers _ !! ?i = Some _ |- _ =>
           pose proof (lookup_lt_Some _ _ _ Hi) as Hlt;
           destruct (decide (i = j)) as [->|Hne];
           [rewrite list_lookup_insert_eq by exact Hlt; simplify_eq
           |rewrite list_lookup_insert_ne by assumption]
       end.
  all: try (eexists; split; [eassumption|]; split; [reflexivity|auto]).
  all: eexists; split; [reflexivity|]; cbn [self at_pc].
  all: repeat match goal with
         | H : at_pc _ = _ |- _ => rewrite H
         end.
  all: split; [congruence|]; cbn; try discriminate; auto.
Qed.

Lemma shutting_down_mono (n : nat) (threads : list nat) (s s' : Sys)
    (p : prog) :
  (forall j wt,
     workers s !! j = Some wt ->
     exists wt',
       workers s' !! j = Some wt'
       /\ (should_shutdown (self wt) = true ->
           should_shutdown (self wt') = true)
       /\ (finished (at_pc wt) = true -> finished (at_pc wt') = true)) ->
  length (workers s') = length (workers s) ->
  shutting_down n threads s p -> shutting_down n threads s' p.
Proof.
  intros Hmono Hlen Hp.
  assert (Hflag : forall k, flagged_below k s -> flagged_below k s').
  { intros k Hk i wt' Hi Hwt'.
    destruct (lookup_lt_is_Some_2 (workers s) i) as [wt Hwt].
    { rewrite <- Hlen. eapply lookup_lt_Some. eassumption. }
    destruct (Hmono i wt Hwt) as (wt2 & Hwt2 & Hf & _).
    rewrite Hwt' in Hwt2. injection Hwt2 as <-.
    apply Hf. eapply Hk; eassumption. }
  destruct Hp as [k Hk Hfl|joined rest Hth Hfl Hfin|e].
  - apply Signalling; auto.
  - eapply Joining; eauto.
    eapply Forall_impl; [exact Hfin|].
    intros i (wt & Hwt & Hf).
    destruct (Hmono i wt Hwt) as (wt' & Hwt' & _ & Hfin').
    exists wt'. split; [exact Hwt'|auto].
  - apply Failed.
Qed.

Lemma step_in_shutdown (n : nat) (threads : list nat) (l : label)
    (s s' : Sys) :
  in_shutdown n threads s -> is_call l = false -> step l s = Some s' ->
  in_shutdown n threads s'.
Proof.
  intros [Hn Hth (p & Hc & Hp)] Hl Hstep.
  destruct l as [c a|c|i o]; [discriminate| |].
  - (* the caller moves *)
    unfold step in Hstep. rewrite Hc in Hstep.
    destruct c as [|c]; [|discriminate]. cbn in Hstep.
    destruct Hp as [k Hk Hfl|joined rest Hjoin Hfl Hfin|e];
      [| |discriminate].
    + destruct (decide (k = n)) as [->|Hne].
      * rewrite Nat.sub_diag in Hstep. cbn in Hstep. injection Hstep as <-.
        split; cbn; [exact Hn|exact Hth|].
        eexists. split; [rewrite Hc; reflexivity|].
        rewrite Hth. apply (Joining n threads _ [] threads);
          [reflexivity|exact Hfl|constructor].
      * replace (n - k)%nat with (S (n - S k)) in Hstep by lia.
        cbn [seq foldr advance] in Hstep.
        destruct (workers s !! k) as [[w at_]|] eqn:Hwk; [|discriminate].
        injection Hstep as <-.
        pose proof (lookup_lt_Some _ _ _ Hwk) as Hltk.
        split; cbn; [rewrite length_insert; exact Hn|exact Hth|].
        eexists. split; [rewrite Hc; reflexivity|].
        apply Signalling; [lia|].
        intros i wt Hi Hwt. cbn in Hwt.
        destruct (decide (i = k)) as [->|Hik].
        -- rewrite list_lookup_insert_eq in Hwt by exact Hltk.
           injection Hwt as <-. reflexivity.
        -- rewrite list_lookup_insert_ne in Hwt by congruence.
           eapply Hfl; [|exact Hwt]. lia.
    + destruct rest as [|i rest]; [discriminate|].
      cbn [foldr advance] in Hstep.
      destruct (workers s !! i) as [[w at_]|] eqn:Hwi; [|discriminate].
      destruct at_; cbn in Hstep; try discriminate; injection Hstep as <-.
      * split; cbn; [exact Hn|exact Hth|].
        eexists. split; [rewrite Hc; reflexivity|apply Failed].
      * split; cbn; [exact Hn|exact Hth|].
        eexists. split; [rewrite Hc; reflexivity|].
        apply (Joining n threads _ (joined ++ [i]) rest).
        -- rewrite Hjoin, <- app_assoc. reflexivity.
        -- exact Hfl.
        -- apply Forall_app. split; [exact Hfin|].
           apply List.Forall_cons; [|apply List.Forall_nil].
           eexists. split; [exact Hwi|reflexivity].
      * split; cbn; [exact Hn|exact Hth|].
        eexists. split; [rewrite Hc; reflexivity|].
        apply (Joining n threads _ (joined ++ [i]) rest).
        -- rewrite Hjoin, <- app_assoc. reflexivity.
        -- exact Hfl.
        -- apply Forall_app. split; [exact Hfin|].
           apply List.Forall_cons; [|apply List.Forall_nil].
           eexists. split; [exact Hwi|reflexivity].
  - (* a worker moves *)
    destruct (work_keeps_flags i o s s' Hstep) as (Hlen & Hthr & Hcal & Hkeep).
    split; [congruence|congruence|].
    exists p. split; [congruence|].
    eapply shutting_down_mono; [|exact Hlen|exact Hp].
    intros j wt Hj. destruct (Hkeep j wt Hj) as (wt' & H1 & H2 & H3).
    exists wt'. split; [exact H1|]. split; [congruence|exact H3].
Qed.

Lemma exec_in_shutdown (n : nat) (threads : list nat) (ls : list label) :
  forall s s',
    in_shutdown n threads s ->
    Forall (fun l => is_call l = false) ls ->
    exec ls s = Some s' ->
    in_shutdown n threads s'.
Proof.
  induction ls as [|l ls IH]; intros s s' Hinv Hls Hexec; cbn in Hexec.
  - injection Hexec as <-. exact Hinv.
  - destruct (step l s) as [s2|] eqn:Hstep; [|discriminate].
    inversion Hls as [|? ? Hl Hls']; subst.
    eapply (IH s2); [|exact Hls'|exact Hexec].
    eapply step_in_shutdown; eassumption.
Qed.

(** X19. When [shutdown], called by the only caller of a pool, returns,
    every worker has been told to stop and every thread that [start] had
    left has returned or died: [shutdown] does not come back while a thread
    it joins is still running. *)
Theorem shutdown_returns_after_every_thread (s s' : Sys) (p : prog)
    (ls : list label) :
  callers s = [p] ->
  idle p = true ->
  Forall (fun l => is_call l = false) ls ->
  exec (Call 0 ApiShutdown :: ls) s = Some s' ->
  callers s' = [Return None] ->
  Forall (fun wt => should_shutdown (self wt) = true) (workers s')
  /\ Forall (finished_thread s') (worker_threads s).
Proof.
  intros Hc Hidle Hls Hexec Hret.
  assert (Hp : callers s !! 0%nat = Some p) by (rewrite Hc; reflexivity).
  rewrite (exec_call s 0 p _ _ Hp Hidle) in Hexec.
  set (n := length (workers s)) in *.
  set (s1 := with_caller 0 (body n ApiShutdown) s) in *.
  assert (Hinv : in_shutdown n (worker_threads s) s1).
  { split; [reflexivity|reflexivity|].
    eexists. split; [unfold s1; cbn; rewrite Hc; reflexivity|].
    unfold body, Pool.shutdown.
    replace (seq 0 n) with (seq 0 (n - 0)) by (f_equal; lia).
    apply (Signalling n (worker_threads s) s1 0); [lia|].
    intros i wt Hi. lia. }
  assert (Hend : in_shutdown n (worker_threads s) s')
    by (eapply exec_in_shutdown; eassumption).
  destruct Hend as [Hn Hth (p' & Hc' & Hp')].
  rewrite Hret in Hc'. injection Hc' as <-.
  inversion Hp' as [k Hk Hfl Heq|joined rest Hjoin Hfl Hfin Heq|e Heq].
  - destruct (n - k)%nat; discriminate.
  - destruct rest; [|discriminate]. rewrite app_nil_r in Hjoin. subst joined.
    split; [|exact Hfin].
    apply List.Forall_forall. intros wt Hin.
    apply list_elem_of_In, list_elem_of_lookup_1 in Hin.
    destruct Hin as [i Hi].
    eapply Hfl; [|exact Hi]. rewrite <- Hn. eapply lookup_lt_Some. exact Hi.
Qed.

Lemma shutdown_returns_after_every_thread_witness :
  exists s0 s s',
    a_pool 1 = Ok s0
    /\ exec (invoke 0 ApiStart 3 ++ [Work 0 (an_outside 0)]) s0 = Some s
    /\ exec a_shutdown_schedule s = Some s'
    /\ worker_threads s = [0%nat]
    /\ Forall (finished_thread s') (worker_threads s).
Proof.
  destruct (a_pool 1) as [s0|e] eqn:Hs0; [|discriminate].
  destruct (exec (invoke 0 ApiStart 3 ++ [Work 0 (an_outside 0)]) s0)
    as [s|] eqn:Hs;
    [|vm_compute in Hs0; injection Hs0 as <-; vm_compute in Hs; discriminate].
  destruct (exec a_shutdown_schedule s) as [s'|] eqn:Hs';
    [|vm_compute in Hs0; injection Hs0 as <-; vm_compute in Hs;
      injection Hs as <-; vm_compute in Hs'; discriminate].
  assert (Hfacts : callers s = [Return None] /\ worker_threads s = [0%nat]
                   /\ callers s' = [Return None]).
  { vm_compute in Hs0. injection Hs0 as <-. vm_compute in Hs.
    injection Hs as <-. vm_compute in Hs'. injection Hs' as <-.
    repeat split. }
  destruct Hfacts as (Hc & Hth & Hc').
  exists s0, s, s'. split; [reflexivity|]. split; [exact Hs|].
  split; [exact Hs'|]. split; [exact Hth|].
  refine (proj2 (shutdown_returns_after_every_thread s s' (Return None)
                   (tail a_shutdown_schedule) Hc eq_refl _ Hs' Hc')).
  repeat constructor.
Defined.

(* ================================================================== *)
(** ** More of the code: seeds of a request *)
(* ================================================================== *)

Lemma build_entries_short_seeds (pb : Schema) (all : list Z)
    (rows : list (list pyfloat)) (i : nat) :
  Forall (fun z => fits_entry_seed pb z = true) all ->
  (i <= length all < i + length rows)%nat ->
  build_entries pb true (Some (VInts all)) i rows = Raise IndexError.
Proof.
  intros Hfits. revert i.
  induction rows as [|q rows IH]; intros i Hlen; cbn in *; [lia|].
  destruct (all !! i) as [z|] eqn:Hz; cbn; [|reflexivity].
  pose proof (lookup_lt_Some _ _ _ Hz) as Hlt.
  unfold set_int.
  assert (fits_entry_seed pb z = true) as ->.
  { rewrite List.Forall_forall in Hfits. apply Hfits.
    apply list_elem_of_In. eapply list_elem_of_lookup_2. eassumption. }
  cbn. rewrite IH by lia. reflexivity.
Qed.

(** X20. What [_build_render_batch_request] does with a workload that is
    not seeded in one way, for an image size the request accepts.  Without
    ["seed"] and without ["seeds"] it raises [UnboundLocalError]; with both,
    an integer seed and seeds for the entries, it uses the seeds of the
    entries and still stores the batch seed; without ["qpos"] it raises
    [KeyError]; and with fewer seeds than state vectors it raises
    [IndexError]. *)
Theorem build_render_batch_request_odd_seeding (pb : Schema)
    (workload : Workload) (config : RemoteRendererConfig) :
  fits_width pb (image_width config) = true ->
  fits_height pb (image_height config) = true ->
  (workload !! "seed" = None -> workload !! "seeds" = None ->
   _build_render_batch_request pb workload config
   = Raise (UnboundLocalError "use_entry_seeds"))
  /\ (forall s ss rows qv,
        workload !! "seed" = Some (VInt s) ->
        workload !! "seeds" = Some (VInts ss) ->
        workload !! "qpos" = Some qv ->
        state_vectors qv = Ok rows ->
        length ss = length rows ->
        Forall (fun z => fits_entry_seed pb z = true) ss ->
        exists request,
          _build_render_batch_request pb workload config
          = Ok (request, length rows)
          /\ use_entry_seeds request = true
          /\ batch_seed request = Some (s mod 2 ^ 31)
          /\ map seed (entries request) = map Some ss)
  /\ (forall v,
        workload !! "seeds" = Some v ->
        workload !! "seed" = None ->
        workload !! "qpos" = None ->
        _build_render_batch_request pb workload config
        = Raise (KeyError "qpos"))
  /\ (forall ss rows qv,
        workload !! "seed" = None ->
        workload !! "seeds" = Some (VInts ss) ->
        workload !! "qpos" = Some qv ->
        state_vectors qv = Ok rows ->
        (length ss < length rows)%nat ->
        Forall (fun z => fits_entry_seed pb z = true) ss ->
        _build_render_batch_request pb workload config = Raise IndexError).
Proof.
  intros Hw Hh. unfold _build_render_batch_request, set_int.
  rewrite Hw, Hh. cbn.
  split; [|split; [|split]].
  - intros H1 H2. rewrite H1, H2. reflexivity.
  - intros s ss rows qv H1 H2 H3 Hrows Hlen Hfits.
    rewrite H1, H2, H3. cbn.
    assert (fits_int32 (s mod 2 ^ 31) = true) as ->.
    { unfold fits_int32. pose proof (Z.mod_pos_bound s (2 ^ 31)). lia. }
    cbn. rewrite Hrows. cbn.
    rewrite (build_entries_entry_seeds pb ss rows ss 0) by done. cbn.
    rewrite (state_vectors_len _ _ Hrows). cbn.
    eexists. split; [reflexivity|]. cbn.
    split; [reflexivity|]. split; [reflexivity|].
    clear -Hlen. revert ss Hlen.
    induction rows as [|q rows IH]; intros [|z ss] Hlen; try discriminate;
      [reflexivity|].
    cbn. f_equal. apply IH. cbn in Hlen. lia.
  - intros v H1 H2 H3. rewrite H1, H2, H3. reflexivity.
  - intros ss rows qv H1 H2 H3 Hrows Hlen Hfits.
    rewrite H1, H2, H3. cbn. rewrite Hrows. cbn.
    rewrite build_entries_short_seeds by (try assumption; cbn; lia).
    reflexivity.
Qed.

Lemma build_render_batch_request_odd_seeding_witness :
  _build_render_batch_request int32_schema an_unseeded_workload a_config
  = Raise (UnboundLocalError "use_entry_seeds")
  /\ _build_render_batch_request int32_schema a_short_seeded_workload a_config
     = Raise IndexError
  /\ exists request,
       _build_render_batch_request int32_schema a_twice_seeded_workload
         a_config = Ok (request, 1%nat)
       /\ use_entry_seeds request = true
       /\ batch_seed request = Some 3.
Proof.
  split; [|split].
  - apply (proj1 (build_render_batch_request_odd_seeding int32_schema
                    an_unseeded_workload a_config eq_refl eq_refl));
      reflexivity.
  - apply (proj2 (proj2 (proj2 (build_render_batch_request_odd_seeding
                                  int32_schema a_short_seeded_workload
                                  a_config eq_refl eq_refl)))
             [9] [[1.5%float]; [2.5%float]]
             (VVectors [[1.5%float]; [2.5%float]]));
      try reflexivity; [cbn; lia|repeat constructor].
  - destruct (proj1 (proj2 (build_render_batch_request_odd_seeding
                              int32_schema a_twice_seeded_workload a_config
                              eq_refl eq_refl))
                3 [9] [[1.5%float]] (VVectors [[1.5%float]]))
      as (request & Hreq & Huse & Hseed & _);
      try reflexivity; [repeat constructor|].
    exists request. repeat split; assumption.
Defined.

(* ================================================================== *)
(** ** More of the code: [render_batch] from two threads *)
(* ================================================================== *)

(** The first three operations of [render_batch], run by an idle caller. *)
Lemma render_batch_submits (s : Sys) (c : nat) (p : prog)
    (workload : Workload) :
  callers s !! c = Some p ->
  idle p = true ->
  exec (invoke c (ApiRenderBatch workload) 3) s
  = Some (submitted_by c (sync_task s workload) await_result s).
Proof.
  intros Hc Hidle. pose proof (lookup_lt_Some _ _ _ Hc) as Hlt.
  unfold invoke. cbn [replicate].
  rewrite (exec_call s c p _ _ Hc Hidle).
  cbn [body render_batch render_batch_async execute].
  caller_runs Hlt. caller_runs Hlt. caller_runs Hlt.
  cbn [exec]. f_equal.
  unfold submitted_by, sync_task, record, with_caller, with_next_task_id,
    with_input. cbn.
  rewrite !list_insert_insert_eq. reflexivity.
Qed.

(** A polling worker takes the head of the queue and serves it. *)
Lemma worker_serves_head (s : Sys) (i : nat) (o : Outside) (w w' : Worker)
    (t : QueueTask) (rest : list QueueTask) (effs : list effect)
    (r : Workload) :
  workers s !! i = Some (mkWorkerThread w Polling) ->
  items (input_queue s) = t :: rest ->
  (0 < unfinished_tasks (input_queue s))%nat ->
  process o (workload t) w = (w', effs, Ok r) ->
  exec [Work i o; Work i o] s
  = Some (served_by_worker i t w' effs r rest s).
Proof.
  intros Hi Hq Hun Hproc. pose proof (lookup_lt_Some _ _ _ Hi) as Hlt.
  erewrite exec_work by exact Hi.
  unfold work at 1. cbn [at_pc self]. unfold get at 1. rewrite Hq.
  erewrite exec_work
    by (state_simpl; apply list_lookup_insert_eq; exact Hlt).
  unfold work at 1. cbn [at_pc self]. rewrite Hproc.
  state_simpl. unfold task_done. cbn [unfinished_tasks].
  destruct (unfinished_tasks (input_queue s)) as [|n] eqn:Hn; [lia|].
  cbn [exec]. f_equal.
  unfold served_by_worker, record, with_worker, with_input, with_sink, sink.
  cbn. rewrite !list_insert_insert_eq, Hn, <- app_assoc. reflexivity.
Qed.

(** The last two operations of [render_batch], with a result waiting. *)
Lemma caller_takes_result (s : Sys) (c : nat) (r : Workload)
    (rest : list Workload) :
  callers s !! c = Some await_result ->
  items (sink s sync_queue) = r :: rest ->
  (0 < unfinished_tasks (sink s sync_queue))%nat ->
  exec [Advance c; Advance c] s = Some (taken_by c r rest s).
Proof.
  intros Hc Hq Hun. pose proof (lookup_lt_Some _ _ _ Hc) as Hlt.
  erewrite exec_advance by exact Hc.
  unfold await_result. cbn [advance]. unfold get. rewrite Hq.
  caller_runs Hlt.
  unfold sink at 1. state_simpl. rewrite lookup_insert_eq.
  cbn [default from_option id task_done unfinished_tasks].
  destruct (unfinished_tasks (sink s sync_queue)) as [|n] eqn:Hn; [lia|].
  cbn [exec]. f_equal.
  unfold taken_by, record, with_caller, with_sink. cbn.
  rewrite !list_insert_insert_eq, insert_insert_eq, Hn. reflexivity.
Qed.

(** X21. Two callers in [render_batch] at a time share the renderer's one
    private queue, and nothing ties a result to the caller that asked for
    it: when both have submitted and the worker has served both tasks, the
    caller that takes a result first gets the result of the first task,
    whoever submitted it.  In this run caller [c1], which submitted second,
    returns what [process] made of the workload of [c0], and caller [c0]
    returns what it made of the workload of [c1]. *)
Theorem concurrent_render_batch_swaps_results (s : Sys) (c0 c1 i : nat)
    (p0 p1 : prog) (w w1 w2 : Worker) (o : Outside) (wl0 wl1 r0 r1 : Workload)
    (e0 e1 : list effect) :
  c0 <> c1 ->
  callers s !! c0 = Some p0 -> idle p0 = true ->
  callers s !! c1 = Some p1 -> idle p1 = true ->
  workers s !! i = Some (mkWorkerThread w Polling) ->
  should_shutdown w = false ->
  items (input_queue s) = [] ->
  items (sink s sync_queue) = [] ->
  process o
    (mkWorkloadWithConfig (renderer_config_stamp s) (renderer_config s) wl0) w
  = (w1, e0, Ok r0) ->
  process o
    (mkWorkloadWithConfig (renderer_config_stamp s) (renderer_config s) wl1) w1
  = (w2, e1, Ok r1) ->
  exists s',
    exec (overtaken c0 c1 i o wl0 wl1) s = Some s'
    /\ callers s' !! c0 = Some (Return (Some r1))
    /\ callers s' !! c1 = Some (Return (Some r0)).
Proof.
  intros Hne Hc0 Hi0 Hc1 Hi1 Hw Hflag Hq Hsink Hp0 Hp1.
  pose proof (lookup_lt_Some _ _ _ Hc0) as Hlt0.
  pose proof (lookup_lt_Some _ _ _ Hc1) as Hlt1.
  pose proof (lookup_lt_Some _ _ _ Hw) as Hlti.
  set (t0 := sync_task s wl0).
  set (s1 := submitted_by c0 t0 await_result s).
  set (t1 := sync_task s1 wl1).
  set (s2 := submitted_by c1 t1 await_result s1).
  set (s3 := served_by_worker i t0 w1 e0 r0 [t1] s2).
  set (s4 := with_worker i (mkWorkerThread w1 Polling) s3).
  set (s5 := served_by_worker i t1 w2 e1 r1 [] s4).
  set (s6 := taken_by c1 r0 [r1] s5).
  set (s7 := taken_by c0 r1 [] s6).
  assert (H1 : exec (invoke c0 (ApiRenderBatch wl0) 3) s = Some s1)
    by (eapply render_batch_submits; eassumption).
  assert (H2 : exec (invoke c1 (ApiRenderBatch wl1) 3) s1 = Some s2).
  { eapply render_batch_submits; [|exact Hi1].
    unfold s1, submitted_by. state_simpl.
    rewrite list_lookup_insert_ne by exact Hne. exact Hc1. }
  assert (H3 : exec [Work i o; Work i o] s2 = Some s3).
  { apply worker_serves_head with (w := w).
    - unfold s2, s1, submitted_by. state_simpl. exact Hw.
    - unfold s2, s1, submitted_by. state_simpl. unfold put. cbn [items].
      rewrite Hq. reflexivity.
    - unfold s2, s1, submitted_by. state_simpl. unfold put.
      cbn [unfinished_tasks]. lia.
    - exact Hp0. }
  assert (Hflag1 : should_shutdown w1 = false).
  { apply process_quiet in Hp0. destruct Hp0 as (Hf & _). congruence. }
  assert (H4 : exec [Work i o] s3 = Some s4).
  { erewrite exec_work
      by (unfold s3, served_by_worker; state_simpl;
          apply list_lookup_insert_eq;
          unfold s2, s1, submitted_by; state_simpl; exact Hlti).
    unfold work. cbn [at_pc self]. rewrite Hflag1. reflexivity. }
  assert (H5 : exec [Work i o; Work i o] s4 = Some s5).
  { apply worker_serves_head with (w := w1).
    - unfold s4, s3, served_by_worker. state_simpl.
      rewrite list_insert_insert_eq. apply list_lookup_insert_eq.
      unfold s2, s1, submitted_by. state_simpl. exact Hlti.
    - reflexivity.
    - unfold s4, s3, served_by_worker, s2, s1, submitted_by. state_simpl.
      unfold put. cbn [unfinished_tasks]. lia.
    - exact Hp1. }
  assert (Hsink5 : items (sink s5 sync_queue) = [r0; r1]
                   /\ unfinished_tasks (sink s5 sync_queue)
                      = S (S (unfinished_tasks (sink s sync_queue)))).
  { unfold s5, s4, s3, served_by_worker, s2, s1, submitted_by, sink.
    cbn. rewrite !lookup_insert_eq. cbn.
    fold (sink s sync_queue). rewrite Hsink. split; reflexivity. }
  destruct Hsink5 as [Hitems5 Hun5].
  assert (H6 : exec [Advance c1; Advance c1] s5 = Some s6).
  { apply caller_takes_result; [|exact Hitems5|lia].
    unfold s5, s4, s3, served_by_worker, s2, submitted_by. state_simpl.
    apply list_lookup_insert_eq.
    unfold s1, submitted_by. state_simpl. rewrite length_insert.
    exact Hlt1. }
  assert (H7 : exec [Advance c0; Advance c0] s6 = Some s7).
  { apply caller_takes_result.
    - unfold s6, taken_by, s5, s4, s3, served_by_worker, s2, submitted_by.
      state_simpl. rewrite !list_lookup_insert_ne by congruence.
      unfold s1, submitted_by. state_simpl.
      apply list_lookup_insert_eq. exact Hlt0.
    - unfold s6, taken_by, sink. cbn. rewrite lookup_insert_eq. reflexivity.
    - unfold s6, taken_by, sink at 1. cbn. rewrite lookup_insert_eq.
      cbn. lia. }
  exists s7. split; [|split].
  - unfold overtaken.
    change [Work i o; Work i o; Work i o; Work i o; Work i o]
      with ([Work i o; Work i o] ++ [Work i o] ++ [Work i o; Work i o]).
    change [Advance c1; Advance c1; Advance c0; Advance c0]
      with ([Advance c1; Advance c1] ++ [Advance c0; Advance c0]).
    rewrite exec_app, H1, exec_app, H2, exec_app, exec_app, H3, exec_app,
      H4, H5, exec_app, H6. exact H7.
  - unfold s7, taken_by. state_simpl. apply list_lookup_insert_eq.
    unfold s6, taken_by, s5, s4, s3, served_by_worker, s2, s1, submitted_by.
    state_simpl. rewrite !length_insert. exact Hlt0.
  - unfold s7, taken_by. state_simpl.
    rewrite list_lookup_insert_ne by exact Hne.
    unfold s6, taken_by. state_simpl. apply list_lookup_insert_eq.
    unfold s5, s4, s3, served_by_worker, s2, s1, submitted_by.
    state_simpl. rewrite !length_insert. exact Hlt1.
Qed.

Lemma concurrent_render_batch_swaps_results_witness :
  exists s0 s s' result0 result1,
    a_pool 2 = Ok s0
    /\ exec (invoke 0 ApiStart 3 ++ [Work 0 (an_outside 0)]) s0 = Some s
    /\ exec (overtaken 0 1 0 (an_outside 0) a_seeded_workload
               another_seeded_workload) s = Some s'
    /\ callers s' !! 0%nat = Some (Return (Some result1))
    /\ callers s' !! 1%nat = Some (Return (Some result0))
    /\ result0 !! "seeds" = Some (VInts [7; 8])
    /\ result1 !! "seeds" = Some (VInts [9]).
Proof.
  destruct (a_pool 2) as [s0|e] eqn:Hs0; [|discriminate].
  destruct (exec (invoke 0 ApiStart 3 ++ [Work 0 (an_outside 0)]) s0)
    as [s|] eqn:Hs;
    [|vm_compute in Hs0; injection Hs0 as <-; vm_compute in Hs; discriminate].
  assert (Hfacts :
    exists w,
      callers s !! 0%nat = Some (Return None)
      /\ callers s !! 1%nat = Some (Return None)
      /\ workers s !! 0%nat = Some (mkWorkerThread w Polling)
      /\ should_shutdown w = false
      /\ items (input_queue s) = []
      /\ items (sink s sync_queue) = []
      /\ exists w1 w2 e0 e1 r0 r1,
           process (an_outside 0)
             (mkWorkloadWithConfig (renderer_config_stamp s)
                (renderer_config s) a_seeded_workload) w
           = (w1, e0, Ok r0)
           /\ process (an_outside 0)
                (mkWorkloadWithConfig (renderer_config_stamp s)
                   (renderer_config s) another_seeded_workload) w1
              = (w2, e1, Ok r1)
           /\ r0 !! "seeds" = Some (VInts [7; 8])
           /\ r1 !! "seeds" = Some (VInts [9])).
  { vm_compute in Hs0. injection Hs0 as <-. vm_compute in Hs.
    injection Hs as <-. eexists. split; [reflexivity|].
    split; [reflexivity|]. split; [reflexivity|]. split; [reflexivity|].
    split; [reflexivity|]. split; [reflexivity|].
    eexists _, _, _, _, _, _. split; [vm_compute; reflexivity|].
    split; [vm_compute; reflexivity|]. split; reflexivity. }
  destruct Hfacts as (w & Hc0 & Hc1 & Hw & Hflag & Hq & Hsink & w1 & w2 & e0
                      & e1 & r0 & r1 & Hp0 & Hp1 & Hr0 & Hr1).
  destruct (concurrent_render_batch_swaps_results s 0 1 0 (Return None)
              (Return None) w w1 w2 (an_outside 0) a_seeded_workload
              another_seeded_workload r0 r1 e0 e1 ltac:(discriminate)
              Hc0 eq_refl Hc1 eq_refl Hw Hflag Hq Hsink Hp0 Hp1)
    as (s' & Hexec & Hret0 & Hret1).
  exists s0, s, s', r0, r1. split; [reflexivity|]. split; [exact Hs|].
  split; [exact Hexec|]. split; [exact Hret0|]. split; [exact Hret1|].
  split; [exact Hr0|exact Hr1].
Defined.
